(** * SMTMS manifest translation scripts: extraction and restoration

    A shallow embedding of [docs/reference/ExtractChineseTranslations.py]
    and [docs/reference/RestoreChineseTranslations.py].

    Python [str] values are sequences of Unicode code points; they are
    modelled as lists of [N].  The scripts do all their work through the
    [re] module, so the first part of the file is a small backtracking
    matcher for the fragment of [re] the scripts use (literals, classes,
    greedy and lazy repetition of a class, [$], groups, the IGNORECASE,
    DOTALL and MULTILINE flags), together with [re.search], [re.sub] and
    the replacement-template parser. *)

From Stdlib Require Import NArith List Lia Bool Ascii String.
From Stdlib.Strings Require Import Byte.
From stdpp Require Import base option list gmap.

Open Scope N_scope.

Abbreviation char := N (only parsing).
Abbreviation str := (list N) (only parsing).

(** ** Characters and literals *)

Definition of_string (s : string) : str :=
  map (fun a : ascii => N_of_ascii a) (list_ascii_of_string s).

Definition QUOTE : char := 34.      (* the double quote *)
Definition BACKSLASH : char := 92.
Definition NEWLINE : char := 10.
Definition CR : char := 13.
Definition COLON : char := 58.
Definition SLASH : char := 47.
Definition ASTERISK : char := 42.
Definition LBRACKET : char := 91.
Definition RBRACKET : char := 93.

Definition in_range (lo hi c : char) : bool := (lo <=? c) && (c <=? hi).

(** [str.isspace], which is what [\s] matches on a [str] pattern. *)
Definition unicode_space (c : char) : bool :=
  in_range 9 13 c || in_range 28 32 c || (c =? 133) || (c =? 160)
  || (c =? 5760) || in_range 8192 8202 c || (c =? 8232) || (c =? 8233)
  || (c =? 8239) || (c =? 8287) || (c =? 12288).

(** The zero digit of every block of decimal digits (general category Nd)
    of the Unicode database, version 14.0; [\d] matches a character of
    one of these blocks. *)
Definition decimal_zeros : list char :=
  [48; 1632; 1776; 1984; 2406; 2534; 2662; 2790; 2918; 3046; 3174; 3302;
   3430; 3558; 3664; 3792; 3872; 4160; 4240; 6112; 6160; 6470; 6608; 6784;
   6800; 6992; 7088; 7232; 7248; 42528; 43216; 43264; 43472; 43504; 43600;
   44016; 65296; 66720; 68912; 69734; 69872; 69942; 70096; 70384; 70736;
   70864; 71248; 71360; 71472; 71904; 72016; 72784; 73040; 73120; 92768;
   92864; 93008; 120782; 120792; 120802; 120812; 120822; 123200; 123632;
   125264; 130032].

Definition unicode_decimal (c : char) : bool :=
  existsb (fun z => in_range z (z + 9) c) decimal_zeros.

Definition ascii_digit (c : char) : bool := in_range 48 57 c.
Definition ascii_octdigit (c : char) : bool := in_range 48 55 c.
Definition ascii_upper (c : char) : bool := in_range 65 90 c.
Definition ascii_lower (c : char) : bool := in_range 97 122 c.
Definition ascii_letter (c : char) : bool := ascii_upper c || ascii_lower c.

(** Case-insensitive comparison of a pattern character [p] with a text
    character [x] under IGNORECASE.  The patterns of the scripts are
    ASCII: an ASCII letter matches both of its cases, and [i], [s], [k]
    also match the characters whose lower case they are or that [re]
    lists as equivalent (U+0130 and U+0131; U+017F; U+212A). *)
Definition ascii_tolower (c : char) : char :=
  if ascii_upper c then c + 32 else c.

Definition ci_eq (p x : char) : bool :=
  if ascii_letter p then
    let l := ascii_tolower p in
    (ascii_tolower x =? l)
    || ((l =? 105) && ((x =? 304) || (x =? 305)))
    || ((l =? 115) && (x =? 383))
    || ((l =? 107) && (x =? 8490))
  else x =? p.

(** ** Regular expressions *)

Record flags := Flags { ignorecase : bool; dotall : bool; multiline : bool }.

Definition NOFLAGS : flags := Flags false false false.
Definition IGNORECASE : flags := Flags true false false.
Definition DOTALL : flags := Flags false true false.
Definition MULTILINE : flags := Flags false false true.

(** One-character matchers. *)
Inductive cset :=
| CChar (c : char)         (* a literal character *)
| CRange (lo hi : char)    (* [lo-hi] *)
| CSpace                   (* \s *)
| CDigit                   (* \d *)
| CDot                     (* . *)
| CNotChar (c : char).     (* [^c] *)

Definition cset_mem (fl : flags) (cs : cset) (x : char) : bool :=
  match cs with
  | CChar c => if ignorecase fl then ci_eq c x else x =? c
  | CRange lo hi => in_range lo hi x
  | CSpace => unicode_space x
  | CDigit => unicode_decimal x
  | CDot => dotall fl || negb (x =? NEWLINE)
  | CNotChar c => negb (x =? c)
  end.

Inductive regex :=
| Eps
| One (c : cset)
| Rep (greedy : bool) (c : cset)   (* c* when greedy, c*? otherwise *)
| Eol                              (* $ *)
| Cat (r1 r2 : regex)
| Grp (i : nat) (r : regex).       (* the i-th capturing group *)

Declare Scope regex_scope.
Delimit Scope regex_scope with re.
Bind Scope regex_scope with regex.
Notation "a ;; b" := (Cat a b) (at level 100, b at level 200, right associativity) : regex_scope.

Definition Star (c : cset) : regex := Rep true c.
Definition Lazy (c : cset) : regex := Rep false c.
Definition Plus (c : cset) : regex := (One c ;; Rep true c)%re.

(** A literal string. *)
Fixpoint Lit (s : str) : regex :=
  match s with
  | [] => Eps
  | c :: s' => (One (CChar c) ;; Lit s')%re
  end.

Fixpoint ngroups (r : regex) : nat :=
  match r with
  | Cat a b => (ngroups a + ngroups b)%nat
  | Grp _ a => S (ngroups a)
  | _ => 0%nat
  end.

(** Captured groups, most recent first. *)
Definition groups := list (nat * str).

Fixpoint group (g : groups) (i : nat) : option str :=
  match g with
  | [] => None
  | (j, v) :: g' => if Nat.eqb i j then Some v else group g' i
  end.

(** [$]: at the end of the text, or before the newline that ends it; with
    MULTILINE, before any newline. *)
Definition at_eol (fl : flags) (s : str) : bool :=
  match s with
  | [] => true
  | c :: s' =>
      (c =? NEWLINE) && (multiline fl || match s' with [] => true | _ => false end)
  end.

Section Matcher.
Context {A : Type}.

(** Greedy repetition: as many characters as possible, giving back
    one at a time while the continuation fails. *)
Fixpoint rep_greedy (p : char -> bool) (s : str) (k : str -> option A) : option A :=
  match s with
  | x :: s' =>
      if p x then
        match rep_greedy p s' k with
        | Some r => Some r
        | None => k s
        end
      else k s
  | [] => k s
  end.

(** Lazy repetition: as few characters as possible, taking one more
    while the continuation fails. *)
Fixpoint rep_lazy (p : char -> bool) (s : str) (k : str -> option A) : option A :=
  match k s with
  | Some r => Some r
  | None =>
      match s with
      | x :: s' => if p x then rep_lazy p s' k else None
      | [] => None
      end
  end.

(** The backtracking matcher, in continuation-passing style: [k] is
    what remains to be matched after [r]. *)
Fixpoint rmatch (fl : flags) (r : regex) (s : str) (g : groups)
    (k : str -> groups -> option A) : option A :=
  match r with
  | Eps => k s g
  | One c =>
      match s with
      | x :: s' => if cset_mem fl c x then k s' g else None
      | [] => None
      end
  | Rep true c => rep_greedy (cset_mem fl c) s (fun s' => k s' g)
  | Rep false c => rep_lazy (cset_mem fl c) s (fun s' => k s' g)
  | Eol => if at_eol fl s then k s g else None
  | Cat a b => rmatch fl a s g (fun s' g' => rmatch fl b s' g' k)
  | Grp i a =>
      rmatch fl a s g
        (fun s' g' => k s' ((i, take (length s - length s') s) :: g'))
  end.
End Matcher.

(** A match at the start of [s]: the groups and the unmatched rest. *)
Definition match_here (fl : flags) (r : regex) (s : str) : option (groups * str) :=
  rmatch fl r s [] (fun s' g => Some (g, s')).

(** The same, refusing the empty match. *)
Definition match_nonempty (fl : flags) (r : regex) (s : str) : option (groups * str) :=
  rmatch fl r s []
    (fun s' g => if (length s' <? length s)%nat then Some (g, s') else None).

(** [re.search]: the leftmost match, as the text before it, its groups
    and the text after it.  None of the patterns looks behind, so a match
    at a position is a match at the start of the suffix. *)
Fixpoint search (fl : flags) (r : regex) (s : str) : option (str * groups * str) :=
  match match_here fl r s with
  | Some (g, rest) => Some ([], g, rest)
  | None =>
      match s with
      | [] => None
      | x :: s' =>
          match search fl r s' with
          | Some (pre, g, rest) => Some (x :: pre, g, rest)
          | None => None
          end
      end
  end.

(** ** Replacement templates *)

Inductive py_error :=
| ReError             (* re.error *)
| UnicodeDecodeError
| OSError.

Inductive result (A : Type) :=
| Ok (a : A)
| Raise (e : py_error).
Arguments Ok {A} a.
Arguments Raise {A} e.

Definition bind {A B} (m : result A) (f : A -> result B) : result B :=
  match m with
  | Ok a => f a
  | Raise e => Raise e
  end.

Inductive tpl_item :=
| TLit (c : char)
| TGroup (n : nat).

Definition digit_val (c : char) : nat := N.to_nat (c - 48).

(** The escapes the template parser translates itself. *)
Definition tpl_escape (c : char) : option char :=
  if c =? 97 then Some 7            (* \a *)
  else if c =? 98 then Some 8       (* \b *)
  else if c =? 102 then Some 12     (* \f *)
  else if c =? 110 then Some 10     (* \n *)
  else if c =? 114 then Some 13     (* \r *)
  else if c =? 116 then Some 9      (* \t *)
  else if c =? 118 then Some 11     (* \v *)
  else if c =? BACKSLASH then Some BACKSLASH
  else None.

Definition tpl_group (ngrp n : nat) : result tpl_item :=
  if (ngrp <? n)%nat then Raise ReError (* invalid group reference *)
  else Ok (TGroup n).

(** The name between [\g<] and [>]. *)
Fixpoint tpl_name (s : str) : option (str * str) :=
  match s with
  | [] => None
  | c :: s' =>
      if c =? 62 then Some ([], s')
      else match tpl_name s' with
           | Some (n, r) => Some (c :: n, r)
           | None => None
           end
  end.

Definition tpl_number (n : str) : option nat :=
  match n with
  | [] => None
  | _ => if forallb ascii_digit n
         then Some (fold_left (fun a c => (10 * a + digit_val c)%nat) n 0%nat)
         else None
  end.

(** [re]'s parser of replacement templates, for a pattern with [ngrp]
    groups, none of them named.  [skip] counts the characters of a
    [\g<...>] reference still to be passed over. *)
Fixpoint parse_from (ngrp : nat) (skip : nat) (t : str) : result (list tpl_item) :=
  let cons i rest := bind rest (fun l => Ok (i :: l)) in
  let parse_template ngrp t := parse_from ngrp 0 t in
  match t with
  | [] => Ok []
  | c :: t1 =>
      if negb (skip =? 0)%nat then parse_from ngrp (pred skip) t1
      else if negb (c =? BACKSLASH) then cons (TLit c) (parse_template ngrp t1)
      else
        match t1 with
        | [] => Raise ReError                     (* bad escape (end of pattern) *)
        | c1 :: t2 =>
            if c1 =? 103 then                     (* \g<...> *)
              match t2 with
              | lt :: t3 =>
                  if lt =? 60 then
                    match tpl_name t3 with
                    | Some (n, _) =>
                        match tpl_number n with
                        | Some i =>
                            bind (tpl_group ngrp i) (fun it =>
                              cons it (parse_from ngrp (S (length n)) t3))
                        | None => Raise ReError   (* unknown group name *)
                        end
                    | None => Raise ReError       (* missing >, unterminated name *)
                    end
                  else Raise ReError              (* missing < *)
              | [] => Raise ReError
              end
            else if c1 =? 48 then                 (* \0, \0o, \0oo *)
              match t2 with
              | o1 :: t3 =>
                  if ascii_octdigit o1 then
                    match t3 with
                    | o2 :: t4 =>
                        if ascii_octdigit o2 then
                          cons (TLit (N.land (8 * (o1 - 48) + (o2 - 48)) 255))
                               (parse_template ngrp t4)
                        else cons (TLit (o1 - 48)) (parse_template ngrp t3)
                    | [] => cons (TLit (o1 - 48)) (parse_template ngrp t3)
                    end
                  else cons (TLit 0) (parse_template ngrp t2)
              | [] => cons (TLit 0) (parse_template ngrp t2)
              end
            else if ascii_digit c1 then           (* \d, \dd, \ooo *)
              match t2 with
              | d2 :: t3 =>
                  if ascii_digit d2 then
                    match t3 with
                    | d3 :: t4 =>
                        if ascii_octdigit c1 && ascii_octdigit d2 && ascii_octdigit d3 then
                          let v := 64 * (c1 - 48) + 8 * (d2 - 48) + (d3 - 48) in
                          if 255 <? v then Raise ReError   (* octal escape out of range *)
                          else cons (TLit v) (parse_template ngrp t4)
                        else
                          bind (tpl_group ngrp (10 * digit_val c1 + digit_val d2))
                               (fun it => cons it (parse_template ngrp t3))
                    | [] =>
                        bind (tpl_group ngrp (10 * digit_val c1 + digit_val d2))
                             (fun it => cons it (parse_template ngrp t3))
                    end
                  else
                    bind (tpl_group ngrp (digit_val c1))
                         (fun it => cons it (parse_template ngrp t2))
              | [] =>
                  bind (tpl_group ngrp (digit_val c1))
                       (fun it => cons it (parse_template ngrp t2))
              end
            else
              match tpl_escape c1 with
              | Some e => cons (TLit e) (parse_template ngrp t2)
              | None =>
                  if ascii_letter c1 then Raise ReError    (* bad escape *)
                  else cons (TLit BACKSLASH) (cons (TLit c1) (parse_template ngrp t2))
              end
        end
  end.

Definition parse_template (ngrp : nat) (t : str) : result (list tpl_item) :=
  parse_from ngrp 0 t.

(** Filling a parsed template in; a group that did not take part in the
    match gives the empty string. *)
Fixpoint expand (t : list tpl_item) (g : groups) : str :=
  match t with
  | [] => []
  | TLit c :: t' => c :: expand t' g
  | TGroup n :: t' => default [] (group g n) ++ expand t' g
  end.

(** ** [re.sub]

    Matches are replaced from left to right, each search starting where
    the previous match ended.  [skip] counts the characters of the
    current match still to be passed over.  An empty match is replaced
    too, and is followed by an attempt at a non-empty match at the same
    place (the behaviour of [re] since Python 3.7).  Group 0 is the whole
    match. *)
Fixpoint sub_go (fl : flags) (r : regex) (t : list tpl_item) (skip : nat) (s : str) : str :=
  match skip with
  | S n =>
      match s with
      | [] => []
      | _ :: s' => sub_go fl r t n s'
      end
  | O =>
      match match_here fl r s with
      | None =>
          match s with
          | [] => []
          | x :: s' => x :: sub_go fl r t 0 s'
          end
      | Some (g, rest) =>
          match (length s - length rest)%nat with
          | S m =>
              expand t ((0%nat, take (S m) s) :: g)
              ++ match s with
                 | [] => []
                 | _ :: s' => sub_go fl r t m s'
                 end
          | O =>
              expand t ((0%nat, []) :: g)
              ++ match s with
                 | [] => []
                 | x :: s' =>
                     match match_nonempty fl r s with
                     | Some (g2, rest2) =>
                         let n := (length s - length rest2)%nat in
                         expand t ((0%nat, take n s) :: g2)
                         ++ sub_go fl r t (pred n) s'
                     | None => x :: sub_go fl r t 0 s'
                     end
                 end
          end
      end
  end.

(** [re.sub(pattern, repl, string, flags)] for a string [repl]: the
    template is parsed first, and a bad template raises [re.error]
    whether or not the pattern matches. *)
Definition re_sub (fl : flags) (r : regex) (repl : str) (s : str) : result str :=
  bind (parse_template (ngroups r) repl) (fun t => Ok (sub_go fl r t 0 s)).

(** [bool(re.search(...))] *)
Definition found (fl : flags) (r : regex) (s : str) : bool :=
  match search fl r s with Some _ => true | None => false end.

(** [m.group(1) if m else None] *)
Definition group1 (m : option (str * groups * str)) : option str :=
  match m with
  | Some (_, g, _) => group g 1
  | None => None
  end.

(** Truth value of a [str] or [None]. *)
Definition truthy (v : option str) : bool :=
  match v with
  | Some (_ :: _) => true
  | _ => false
  end.

(** [s.replace(old, new)] for a one-character [old]. *)
Definition replace1 (old : char) (new : str) (s : str) : str :=
  flat_map (fun c => if c =? old then new else [c]) s.

(** * The patterns of the scripts

    In the comments below [Q] stands for the double quote character. *)

Definition quoted (key : string) : str := QUOTE :: of_string key ++ [QUOTE].

(** [Q<key>Q\s*:\s*Q( [^Q]* )Q] *)
Definition field_pattern (key : string) : regex :=
  (Lit (quoted key) ;; Star CSpace ;; One (CChar COLON) ;; Star CSpace ;;
   One (CChar QUOTE) ;; Grp 1 (Star (CNotChar QUOTE)) ;; One (CChar QUOTE))%re.

Definition name_pattern : regex := field_pattern "Name".
Definition desc_pattern : regex := field_pattern "Description".
Definition uniqueid_pattern : regex := field_pattern "UniqueID".   (* with IGNORECASE *)

(** the class from U+4E00 to U+9FFF *)
Definition chinese_pattern : regex := One (CRange 19968 40959).

(** [QUpdateKeysQ\s*:\s*\[( .*? )\]], with DOTALL *)
Definition updatekeys_pattern : regex :=
  (Lit (quoted "UpdateKeys") ;; Star CSpace ;; One (CChar COLON) ;; Star CSpace ;;
   One (CChar LBRACKET) ;; Grp 1 (Lazy CDot) ;; One (CChar RBRACKET))%re.

(** [QNexus:( \d+ )Q] *)
Definition nexus_pattern : regex :=
  (Lit (QUOTE :: of_string "Nexus:") ;; Grp 1 (Plus CDigit) ;; One (CChar QUOTE))%re.

(** [/\*.*?\*/], with DOTALL, and [//.*?$], with MULTILINE *)
Definition block_comment : regex :=
  (Lit (of_string "/*") ;; Lazy CDot ;; Lit (of_string "*/"))%re.
Definition line_comment : regex :=
  (Lit (of_string "//") ;; Lazy CDot ;; Eol)%re.

(** The patterns of the restore script:
    [Q<key>Q\s*:\s*Q[^Q]*Q] and [( Q<key>Q\s*:\s*Q )[^Q]*( Q )]. *)
Definition field_test (key : string) : regex :=
  (Lit (quoted key) ;; Star CSpace ;; One (CChar COLON) ;; Star CSpace ;;
   One (CChar QUOTE) ;; Star (CNotChar QUOTE) ;; One (CChar QUOTE))%re.

Definition field_subst (key : string) : regex :=
  (Grp 1 (Lit (quoted key) ;; Star CSpace ;; One (CChar COLON) ;; Star CSpace ;;
          One (CChar QUOTE)) ;;
   Star (CNotChar QUOTE) ;; Grp 2 (One (CChar QUOTE)))%re.

(** * Reading a manifest *)

Definition is_cont (b : N) : bool := in_range 128 191 b.

(** The strict UTF-8 decoder, as a stream reader runs it: an incomplete
    sequence at the end of the data is left undecoded, not an error. *)
Fixpoint utf8_decode (bs : list N) : result str :=
  let cons c rest := bind rest (fun l => Ok (c :: l)) in
  match bs with
  | [] => Ok []
  | b0 :: r1 =>
      if b0 <? 128 then cons b0 (utf8_decode r1)
      else if in_range 194 223 b0 then
        match r1 with
        | [] => Ok []
        | b1 :: r2 =>
            if is_cont b1 then cons (64 * (b0 - 192) + (b1 - 128)) (utf8_decode r2)
            else Raise UnicodeDecodeError
        end
      else if in_range 224 239 b0 then
        match r1 with
        | [] => Ok []
        | b1 :: r2 =>
            if is_cont b1
               && negb ((b0 =? 224) && (b1 <? 160))
               && negb ((b0 =? 237) && (160 <=? b1))
            then
              match r2 with
              | [] => Ok []
              | b2 :: r3 =>
                  if is_cont b2 then
                    cons (4096 * (b0 - 224) + 64 * (b1 - 128) + (b2 - 128)) (utf8_decode r3)
                  else Raise UnicodeDecodeError
              end
            else Raise UnicodeDecodeError
        end
      else if in_range 240 244 b0 then
        match r1 with
        | [] => Ok []
        | b1 :: r2 =>
            if is_cont b1
               && negb ((b0 =? 240) && (b1 <? 144))
               && negb ((b0 =? 244) && (144 <=? b1))
            then
              match r2 with
              | [] => Ok []
              | b2 :: r3 =>
                  if is_cont b2 then
                    match r3 with
                    | [] => Ok []
                    | b3 :: r4 =>
                        if is_cont b3 then
                          cons (262144 * (b0 - 240) + 4096 * (b1 - 128)
                                + 64 * (b2 - 128) + (b3 - 128)) (utf8_decode r4)
                        else Raise UnicodeDecodeError
                    end
                  else Raise UnicodeDecodeError
              end
            else Raise UnicodeDecodeError
        end
      else Raise UnicodeDecodeError
  end.

Definition BOM_UTF8 : list N := [239; 187; 191].

(** The utf-8-sig stream reader: a leading byte-order mark is dropped;
    fewer than three bytes that could still become one decode to
    nothing. *)
Definition utf8_sig_decode (bs : list N) : result str :=
  match bs with
  | [] => Ok []
  | [239] => Ok []
  | [239; 187] => Ok []
  | 239 :: 187 :: 191 :: rest => utf8_decode rest
  | _ => utf8_decode bs
  end.

(** Universal newlines of the built-in [open] in text mode. *)
Fixpoint universal_newlines (s : str) : str :=
  match s with
  | [] => []
  | c :: s' =>
      if c =? CR then
        match s' with
        | c' :: s'' => if c' =? NEWLINE then universal_newlines s' else NEWLINE :: universal_newlines s'
        | [] => [NEWLINE]
        end
      else c :: universal_newlines s'
  end.

Definition latin1_decode (bs : list N) : str := universal_newlines bs.

Definition bytes_to_N (bs : list byte) : list N := map Byte.to_N bs.

(** Lines 65-75 of the extraction script and 74-84 of the restore
    script: utf-8, then utf-8-sig, then latin-1; only
    [UnicodeDecodeError] leads to the next attempt. *)
Definition decode_manifest (bs : list byte) : result str :=
  match utf8_decode (bytes_to_N bs) with
  | Raise UnicodeDecodeError =>
      match utf8_sig_decode (bytes_to_N bs) with
      | Raise UnicodeDecodeError => Ok (latin1_decode (bytes_to_N bs))
      | r => r
      end
  | r => r
  end.

(** A file that cannot be opened is [None]. *)
Definition read_manifest (file : option (list byte)) : result str :=
  match file with
  | None => Raise OSError
  | Some bs => decode_manifest bs
  end.

(** * ExtractChineseTranslations.py *)

(** An entry of [xlgChineseBack.json].  [IsChinese] may be missing from a
    file written by hand or by an older version. *)
Record mod_data := ModData {
  UniqueID : str;
  Name : option str;
  Description : option str;
  Path : str;
  IsChinese : option bool;
  Nurl : option str
}.

(** What the patterns find in the text of a manifest. *)
Record fields := Fields {
  f_name : option str;
  f_description : option str;
  f_unique_id : option str;
  f_nurl : option str
}.

(** Lines 77-81: block comments first, then line comments. *)
Definition strip_comments (content : str) : result str :=
  bind (re_sub DOTALL block_comment [] content) (fun content =>
  re_sub MULTILINE line_comment [] content).

Definition NEXUS_URL : str := of_string "https://www.nexusmods.com/stardewvalley/mods/".

(** Lines 99-107. *)
Definition extract_nurl (content : str) : option str :=
  match search DOTALL updatekeys_pattern content with
  | Some (_, g, _) =>
      match group g 1 with
      | Some updatekeys_content =>
          match group1 (search NOFLAGS nexus_pattern updatekeys_content) with
          | Some nexus_id => Some (NEXUS_URL ++ nexus_id)
          | None => None
          end
      | None => None
      end
  | None => None
  end.

(** Lines 83-93, on the text without comments. *)
Definition extract_fields (content : str) : fields :=
  {| f_name := group1 (search NOFLAGS name_pattern content);
     f_description := group1 (search NOFLAGS desc_pattern content);
     f_unique_id := group1 (search IGNORECASE uniqueid_pattern content);
     f_nurl := extract_nurl content |}.

(** Lines 77-107. *)
Definition extract (content : str) : result fields :=
  bind (strip_comments content) (fun content => Ok (extract_fields content)).

(** Lines 109-114. *)
Definition is_chinese (name description : option str) : bool :=
  (truthy name && found NOFLAGS chinese_pattern (default [] name))
  || (truthy description && found NOFLAGS chinese_pattern (default [] description)).

(** A manifest found by the walk: the name of its folder, the path of
    that folder relative to the root, and the bytes of the file. *)
Record manifest_file := ManifestFile {
  mf_folder : str;
  mf_relpath : str;
  mf_file : option (list byte)
}.

(** Lines 59-133, up to the decision of line 117: the record to store,
    or [None] when there is no content. *)
Definition process_manifest (m : manifest_file) : result (option mod_data) :=
  bind (read_manifest (mf_file m)) (fun content =>
  bind (extract content) (fun f =>
  let unique_id := if truthy (f_unique_id f) then default [] (f_unique_id f)
                   else mf_folder m in
  if truthy (f_name f) || truthy (f_description f) then
    Ok (Some {| UniqueID := unique_id;
                Name := f_name f;
                Description := f_description f;
                Path := mf_relpath m;
                IsChinese := Some (is_chinese (f_name f) (f_description f));
                Nurl := f_nurl f |})
  else Ok None)).

Record scan_state := ScanState {
  translations_data : gmap (list N) mod_data;
  success_count : nat;
  error_count : nat
}.

Definition scan_init : scan_state := ScanState ∅ 0 0.

(** One turn of the loop of line 58; any exception is caught at line 135. *)
Definition scan_step (st : scan_state) (m : manifest_file) : scan_state :=
  match process_manifest m with
  | Ok (Some r) =>
      ScanState (<[mf_relpath m := r]> (translations_data st))
                (S (success_count st)) (error_count st)
  | Ok None | Raise _ =>
      ScanState (translations_data st) (success_count st) (S (error_count st))
  end.

Definition scan (ms : list manifest_file) : scan_state :=
  fold_left scan_step ms scan_init.

(** * RestoreChineseTranslations.py *)

(** Lines 113 and 123. *)
Definition escape (v : str) : str :=
  replace1 QUOTE [BACKSLASH; QUOTE] (replace1 BACKSLASH [BACKSLASH; BACKSLASH] v).

(** [r'\1' + escaped + r'\2'] *)
Definition template (escaped : str) : str :=
  [BACKSLASH; 49] ++ escaped ++ [BACKSLASH; 50].

(** Lines 110-118 for [key = Name] and 120-128 for [key = Description]:
    the text and the [updated] flag before and after. *)
Definition update_field (key : string) (value : option str) (st : str * bool)
    : result (str * bool) :=
  if truthy value then
    let escaped := escape (default [] value) in
    if found NOFLAGS (field_test key) st.1 then
      bind (re_sub NOFLAGS (field_subst key) (template escaped) st.1)
           (fun content => Ok (content, true))
    else Ok st
  else Ok st.

(** The Field Patcher: one field, starting from [updated = False]. *)
Definition patch (content : str) (key : string) (value : option str) : result (str * bool) :=
  update_field key value (content, false).

(** Lines 92-100. *)
Definition should_update (md : mod_data) : bool :=
  match IsChinese md with
  | Some b => b
  | None =>
      (truthy (Name md) && found NOFLAGS chinese_pattern (default [] (Name md)))
      || (truthy (Description md)
          && found NOFLAGS chinese_pattern (default [] (Description md)))
  end.

(** Lines 107-128. *)
Definition update_content (md : mod_data) (content : str) : result (str * bool) :=
  bind (update_field "Name" (Name md) (content, false)) (fun st =>
  update_field "Description" (Description md) st).

(** A text with a surrogate code point cannot be written as UTF-8. *)
Definition encodable (s : str) : bool :=
  forallb (fun c => negb (in_range 55296 57343 c)) s.

Inductive outcome :=
| Restored (content : str)   (* the manifest is rewritten with this text *)
| Skipped
| Failed.

(** Lines 60-142 for one entry; [file] is [None] when the manifest does
    not exist. *)
Definition restore_mod (file : option (list byte)) (md : mod_data) : outcome :=
  match file with
  | None => Skipped
  | Some bs =>
      match decode_manifest bs with
      | Raise _ => Failed
      | Ok content =>
          if forallb unicode_space content then Skipped
          else if negb (should_update md) then Skipped
          else
            match update_content md content with
            | Ok (content', true) =>
                if encodable content' then Restored content' else Failed
            | Ok (_, false) => Failed
            | Raise _ => Failed
            end
      end
  end.


(** * Reading the patterns as scanners

    The field patterns are deterministic: white space, the colon and the
    quotes exclude one another, so no backtracking ever succeeds.  The
    functions below read a text quote by quote; they are proved equal to
    the matcher on the patterns of the scripts and carry the proofs. *)

Definition is_quote (c : char) : bool := c =? QUOTE.
Definition notquote (c : char) : bool := negb (c =? QUOTE).

(** The longest prefix of characters in [p], and what follows it. *)
Fixpoint run (p : char -> bool) (s : str) : str :=
  match s with
  | x :: s' => if p x then x :: run p s' else []
  | [] => []
  end.

Fixpoint skipw (p : char -> bool) (s : str) : str :=
  match s with
  | x :: s' => if p x then skipw p s' else s
  | [] => []
  end.

(** The text before the first double quote and the text after it. *)
Fixpoint split_quote (s : str) : option (str * str) :=
  match s with
  | [] => None
  | c :: s' =>
      if c =? QUOTE then Some ([], s')
      else match split_quote s' with
           | Some (a, r) => Some (c :: a, r)
           | None => None
           end
  end.

(** A literal compared with a whole text, character by character. *)
Fixpoint lit_eq (fl : flags) (l s : str) : bool :=
  match l, s with
  | [], [] => true
  | c :: l', x :: s' => cset_mem fl (CChar c) x && lit_eq fl l' s'
  | _, _ => false
  end.

(** White space, a colon, white space. *)
Definition is_sep (c : str) : bool :=
  match skipw unicode_space c with
  | x :: c' => (x =? COLON) && forallb unicode_space c'
  | [] => false
  end.

(** A quoted field at the start of [s]: its head (the key in quotes, the
    separator and the opening quote of the value), its value, and the
    text after the closing quote. *)
Definition field_at (fl : flags) (key : string) (s : str) : option (str * str * str) :=
  match s with
  | [] => None
  | c :: s0 =>
      if c =? QUOTE then
        match split_quote s0 with
        | Some (b, s1) =>
            match split_quote s1 with
            | Some (sp, s2) =>
                match split_quote s2 with
                | Some (v, rest) =>
                    if lit_eq fl (of_string key) b && is_sep sp
                    then Some (QUOTE :: b ++ QUOTE :: sp ++ [QUOTE], v, rest)
                    else None
                | None => None
                end
            | None => None
            end
        | None => None
        end
      else None
  end.

(** The value of every quoted field of [s], wherever it starts. *)
Fixpoint all_values (fl : flags) (key : string) (s : str) : list str :=
  match field_at fl key s with
  | Some (_, v, _) => [v]
  | None => []
  end ++
  match s with
  | [] => []
  | _ :: s' => all_values fl key s'
  end.

(** The value of the first quoted field of [s]. *)
Definition find_field (fl : flags) (key : string) (s : str) : option str :=
  head (all_values fl key s).

(** No character of the key can be taken for a quote, a colon or white
    space. *)
Definition key_wf (fl : flags) (key : string) : bool :=
  forallb (fun c => negb (cset_mem fl (CChar c) QUOTE)
                    && negb (cset_mem fl (CChar c) COLON)
                    && forallb (fun x => negb (cset_mem fl (CChar c) x))
                         [9; 10; 11; 12; 13; 28; 29; 30; 31; 32; 133; 160; 5760;
                          8192; 8193; 8194; 8195; 8196; 8197; 8198; 8199; 8200;
                          8201; 8202; 8232; 8233; 8239; 8287; 12288])
          (of_string key)
  && negb (match of_string key with [] => true | _ => false end).

(** What the substitution writes for a value: the template parser turns
    the doubled backslashes of [escape] back into single ones and leaves
    the backslash in front of a quote. *)
Definition quote_escape (v : str) : str := replace1 QUOTE [BACKSLASH; QUOTE] v.

(** [replaced fl key w s out]: [out] is [s] with the value of every quoted
    field found from left to right, a search starting where the previous
    field ended, replaced by [w]; nothing else differs. *)
Inductive replaced (key : string) (w : str) : str -> str -> Prop :=
| replaced_nil : replaced key w [] []
| replaced_copy c s out :
    field_at NOFLAGS key (c :: s) = None ->
    replaced key w s out ->
    replaced key w (c :: s) (c :: out)
| replaced_hit s k v rest out :
    field_at NOFLAGS key s = Some (k, v, rest) ->
    replaced key w rest out ->
    replaced key w s (k ++ w ++ QUOTE :: out).

(** The head of a quoted field, as the patterns describe it. *)
Definition field_head (key : string) (k : str) : Prop :=
  exists w1 w2, k = quoted key ++ w1 ++ COLON :: w2 ++ [QUOTE]
                /\ forallb unicode_space w1 = true
                /\ forallb unicode_space w2 = true.

(** The first [n] quote-terminated segments of a text. *)
Fixpoint segs (n : nat) (s : str) : option (list str) :=
  match n with
  | O => Some []
  | S n' =>
      match split_quote s with
      | Some (a, r) =>
          match segs n' r with
          | Some l => Some (a :: l)
          | None => None
          end
      | None => None
      end
  end.

(** The head and the value of a field, without what follows. *)
Definition field_hv (fl : flags) (key : string) (s : str) : option (str * str) :=
  match field_at fl key s with
  | Some (k, v, _) => Some (k, v)
  | None => None
  end.

(** A value that starts with an ASCII digit: in the template the digit
    runs into the group reference in front of it. *)
Definition leading_digit (v : str) : bool :=
  match v with
  | c :: _ => ascii_digit c
  | [] => false
  end.

(** Texts for the examples: an apostrophe stands for a double quote. *)
Definition text (s : string) : str :=
  map (fun c => if c =? 39 then QUOTE else c) (of_string s).

(** The Field Patcher as the specification words it: the first
    occurrence only, its value span replaced by the escaped value. *)
Definition spec_patch (content : str) (key : string) (value : str) : str * bool :=
  match search NOFLAGS (field_subst key) content with
  | Some (pre, g, rest) =>
      (pre ++ default [] (group g 1) ++ escape value ++ QUOTE :: rest, true)
  | None => (content, false)
  end.

(** The bytes of a manifest for the examples: the UTF-8 bytes of the
    string, an apostrophe standing for a double quote. *)
Definition manifest_bytes (s : string) : list byte :=
  map (fun b => if Byte.eqb b x27 then x22 else b) (list_byte_of_string s).

(** A value that holds a character from U+4E00 to U+9FFF. *)
Definition has_chinese (v : option str) : Prop :=
  exists s c, v = Some s /\ In c s /\ 19968 <= c /\ c <= 40959.

Definition with_UniqueID (md : mod_data) (u : str) : mod_data :=
  {| UniqueID := u; Name := Name md; Description := Description md;
     Path := Path md; IsChinese := IsChinese md; Nurl := Nurl md |}.

(** The record of lines 120-127. *)
Definition record_of (m : manifest_file) (f : fields) : mod_data :=
  {| UniqueID := if truthy (f_unique_id f) then default [] (f_unique_id f)
                 else mf_folder m;
     Name := f_name f;
     Description := f_description f;
     Path := mf_relpath m;
     IsChinese := Some (is_chinese (f_name f) (f_description f));
     Nurl := f_nurl f |}.

(** What holds of the Record Store all along a scan. *)
Definition store_ok (d : gmap (list N) mod_data) : Prop :=
  forall k r, d !! k = Some r ->
    truthy (Name r) || truthy (Description r) = true /\ Path r = k.


(** No [x] directly followed by a character of [ys]. *)
Fixpoint no_pair (x : char) (ys : list char) (s : str) : bool :=
  match s with
  | [] => true
  | c :: s' =>
      negb ((c =? x) && match s' with
                        | c' :: _ => existsb (N.eqb c') ys
                        | [] => false
                        end)
      && no_pair x ys s'
  end.

(** No slash directly followed by a slash or an asterisk: nothing that
    opens a comment. *)
Definition no_opener (s : str) : bool := no_pair SLASH [SLASH; ASTERISK] s.

(** The field of an extraction by the name of its key. *)
Definition field_of (key : string) (f : fields) : option str :=
  if String.eqb key "Name" then f_name f
  else if String.eqb key "Description" then f_description f
  else if String.eqb key "UniqueID" then f_unique_id f
  else None.

(** ** Scanners for the update keys *)

(** A literal at the start of a text, and what follows it. *)
Fixpoint lit_strip (fl : flags) (l s : str) : option str :=
  match l with
  | [] => Some s
  | c :: l' =>
      match s with
      | x :: s' => if cset_mem fl (CChar c) x then lit_strip fl l' s' else None
      | [] => None
      end
  end.

(** The text before the first [d] and the text after it. *)
Fixpoint split_on (d : char) (s : str) : option (str * str) :=
  match s with
  | [] => None
  | c :: s' =>
      if c =? d then Some ([], s')
      else match split_on d s' with
           | Some (a, r) => Some (c :: a, r)
           | None => None
           end
  end.

(** The digits of a [Nexus:<digits>] token. *)
Definition nexus_id (b : str) : option str :=
  match lit_strip NOFLAGS (of_string "Nexus:") b with
  | Some ds =>
      if forallb unicode_decimal ds && negb (match ds with [] => true | _ => false end)
      then Some ds else None
  | None => None
  end.

(** A quoted Nexus token at the start of [s]: its digits. *)
Definition nexus_at (s : str) : option str :=
  match s with
  | [] => None
  | c :: s0 =>
      if c =? QUOTE then
        match split_quote s0 with
        | Some (b, _) => nexus_id b
        | None => None
        end
      else None
  end.

(** The key, the separator, the bracket and the text up to the next
    closing bracket: that text. *)
Definition uk_at (s : str) : option str :=
  match s with
  | [] => None
  | c :: s0 =>
      if c =? QUOTE then
        match split_quote s0 with
        | Some (b, s1) =>
            if lit_eq DOTALL (of_string "UpdateKeys") b then
              match skipw unicode_space s1 with
              | x :: s2 =>
                  if x =? COLON then
                    match skipw unicode_space s2 with
                    | y :: s3 =>
                        if y =? LBRACKET then
                          match split_on RBRACKET s3 with
                          | Some (cap, _) => Some cap
                          | None => None
                          end
                        else None
                    | [] => None
                    end
                  else None
              | [] => None
              end
            else None
        | None => None
        end
      else None
  end.

(** What a scanner finds at the successive places of a text. *)
Fixpoint toks {R : Type} (tok : str -> option R) (s : str) : list R :=
  match tok s with
  | Some r => [r]
  | None => []
  end ++
  match s with
  | [] => []
  | _ :: s' => toks tok s'
  end.

(** The Nexus identifier of the update keys at the start of [s]. *)
Definition uk_nexus_at (s : str) : option (option str) :=
  match uk_at s with
  | Some cap => Some (head (toks nexus_at cap))
  | None => None
  end.

(** A value that is none of the keys, in the cases their patterns take,
    and no Nexus token, and holds no closing bracket: replacing it, or
    writing it, moves no other field. *)
Definition key_like (v : str) : bool :=
  lit_eq NOFLAGS (of_string "Name") v
  || lit_eq NOFLAGS (of_string "Description") v
  || lit_eq IGNORECASE (of_string "UniqueID") v
  || lit_eq DOTALL (of_string "UpdateKeys") v.

Definition plain_value (v : str) : bool :=
  negb (key_like v)
  && negb (match nexus_id v with Some _ => true | None => false end)
  && forallb (fun c => negb (c =? RBRACKET)) v.

(** The value of the field at the start of [s]. *)
Definition field_value (fl : flags) (key : string) (s : str) : option str :=
  match field_at fl key s with
  | Some (_, v, _) => Some v
  | None => None
  end.

(** Whether [b] is a Nexus token. *)
Definition nexus_like (b : str) : bool :=
  match nexus_id b with Some _ => true | None => false end.

(** A value the round trip can carry: not empty, no double quote, no
    ASCII digit in front, nothing that opens a comment, and plain. *)
Definition patchable (v : str) : bool :=
  truthy (Some v) && negb (leading_digit v) && forallb notquote v
  && no_opener v && plain_value v.

(** What the extractor reads back of a written value: the value itself
    when it holds no double quote, else its part before the first double
    quote and the backslash of the escape. *)
Definition reextracted (v : str) : str :=
  match split_quote v with
  | Some (a, _) => a ++ [BACKSLASH]
  | None => v
  end.

(** * Writing a text back *)

(** A code point that UTF-8 can carry: below U+110000 and no surrogate.
    (The characters of a Python [str] are all below U+110000.) *)
Definition scalar (c : char) : bool :=
  (c <? 1114112) && negb (in_range 55296 57343 c).

Definition utf8_encode_char (c : char) : list N :=
  if c <? 128 then [c]
  else if c <? 2048 then [192 + c / 64; 128 + c mod 64]
  else if c <? 65536 then
    [224 + c / 4096; 128 + (c / 64) mod 64; 128 + c mod 64]
  else
    [240 + c / 262144; 128 + (c / 4096) mod 64; 128 + (c / 64) mod 64;
     128 + c mod 64].

Definition bytes_of_N (l : list N) : list byte :=
  map (fun n => default x00 (Byte.of_N n)) l.

(** The bytes the UTF-8 writer of [codecs] gives for a text it can
    encode, that is, a text for which [encodable] holds. *)
Definition utf8_encode (s : str) : list byte :=
  bytes_of_N (flat_map utf8_encode_char s).

(** Every literal character of a parsed template is in [P]. *)
Definition tpl_lits (P : char -> bool) (t : list tpl_item) : bool :=
  forallb (fun i => match i with TLit c => P c | TGroup _ => true end) t.

(** The byte-order mark, as bytes of a file. *)
Definition BOM_BYTES : list byte := [xef; xbb; xbf].

(** * The loop of the extraction script, seen from the store *)

(** What a manifest contributes to the store: its record, when it is
    read and has content. *)
Definition record_for (m : manifest_file) : option mod_data :=
  match process_manifest m with
  | Ok (Some r) => Some r
  | _ => None
  end.

(** The record of the last manifest of [ms], in the order of the walk,
    that lies in the directory [k] and contributes a record. *)
Fixpoint last_record (k : str) (ms : list manifest_file) : option mod_data :=
  match ms with
  | [] => None
  | m :: ms' =>
      match last_record k ms' with
      | Some r => Some r
      | None => if decide (mf_relpath m = k) then record_for m else None
      end
  end.

(** * The loop of the restore script *)

(** A manifest on disk.  A file that exists may still refuse to be
    opened, for reading (a directory, a permission) or for writing. *)
Record file := File {
  f_data : list byte;
  f_readable : bool;
  f_writable : bool
}.

Inductive verdict := VRestored | VSkipped | VFailed.

Record restore_state := RestoreState {
  rs_files : gmap N file;
  restored_count : nat;
  failed_count : nat;
  skipped_count : nat
}.

(** Lines 131-133: opening the file for writing empties it; the text is
    then encoded as a whole and written.  A text that cannot be encoded
    raises before a byte is written, and the file stays empty.  The
    result is the file afterwards and whether the write went through. *)
Definition write_manifest (f : file) (content : str) : file * bool :=
  if f_writable f then
    if encodable content
    then (File (utf8_encode content) (f_readable f) (f_writable f), true)
    else (File [] (f_readable f) (f_writable f), false)
  else (f, false).

Section RestoreLoop.

(** The file that the path of line 62 names, for a key of the backup:
    two keys may name the same file. *)
Context (locate : str -> N).

(** Lines 60-142 for one entry of the backup, with the files. *)
Definition restore_entry (fs : gmap N file) (mod_path : str) (md : mod_data)
    : gmap N file * verdict :=
  match fs !! locate mod_path with
  | None => (fs, VSkipped)
  | Some f =>
      if negb (f_readable f) then (fs, VFailed)
      else
        match decode_manifest (f_data f) with
        | Raise _ => (fs, VFailed)
        | Ok content =>
            if forallb unicode_space content then (fs, VSkipped)
            else if negb (should_update md) then (fs, VSkipped)
            else
              match update_content md content with
              | Ok (content', true) =>
                  let (f', ok) := write_manifest f content' in
                  (<[locate mod_path := f']> fs, if ok then VRestored else VFailed)
              | Ok (_, false) => (fs, VFailed)
              | Raise _ => (fs, VFailed)
              end
        end
  end.

Definition restore_step (st : restore_state) (e : str * mod_data) : restore_state :=
  let (fs, v) := restore_entry (rs_files st) e.1 e.2 in
  match v with
  | VRestored =>
      RestoreState fs (S (restored_count st)) (failed_count st) (skipped_count st)
  | VFailed =>
      RestoreState fs (restored_count st) (S (failed_count st)) (skipped_count st)
  | VSkipped =>
      RestoreState fs (restored_count st) (failed_count st) (S (skipped_count st))
  end.

(** The loop of line 60 over the entries of the backup, in their order. *)
Definition restore_all (entries : list (str * mod_data)) (fs : gmap N file)
    : restore_state :=
  fold_left restore_step entries (RestoreState fs 0 0 0).

End RestoreLoop.

(** * The backup file: JSON

    The store is kept in [xlgChineseBack.json]: the extraction script
    writes it with [json.dump], the restore script and the generator of
    test mods read it with [json.load].  This part models the values a
    JSON document can hold, the reader and the writer of the [json]
    module, as the scripts call them. *)

(** A [float]: not a number, an infinity, or [m * 2^e], negated when
    [neg]; a finite value is kept in the one form with
    [2^52 <= m < 2^53] and [-1074 <= e], or [m < 2^52] and [e = -1074],
    or [m = 0] and [e = 0]. *)
Inductive pyfloat :=
| FNan
| FInf (neg : bool)
| FFin (neg : bool) (m : N) (e : Z).

(** What [json.load] returns; a [dict] keeps its items in the order of
    their first insertion. *)
#[local] Unset Elimination Schemes.
Inductive pyobj :=
| PNone
| PBool (b : bool)
| PInt (z : Z)
| PFloat (f : pyfloat)
| PStr (s : str)
| PList (l : list pyobj)
| PDict (d : list (str * pyobj)).
#[local] Set Elimination Schemes.

Inductive exn :=
| FileNotFoundError
| OtherOSError
| UnicodeDecodeErr
| UnicodeEncodeErr
| JSONDecodeError
| ValueError
| TypeError
| AttributeError
| KeyError
| RegexError
| OutOfFuel.      (* not an exception of Python: the fuel of the reader ran out *)

Inductive res (A : Type) :=
| Done (a : A)
| Exn (e : exn).
Arguments Done {A} a.
Arguments Exn {A} e.

Definition rbind {A B} (m : res A) (f : A -> res B) : res B :=
  match m with
  | Done a => f a
  | Exn e => Exn e
  end.

(** [d[k] = v] *)
Fixpoint dict_set (d : list (str * pyobj)) (k : str) (v : pyobj) : list (str * pyobj) :=
  match d with
  | [] => [(k, v)]
  | (k', v') :: d' =>
      if decide (k' = k) then (k, v) :: d' else (k', v') :: dict_set d' k v
  end.

(** [d.get(k)], as an option *)
Fixpoint dict_get (d : list (str * pyobj)) (k : str) : option pyobj :=
  match d with
  | [] => None
  | (k', v) :: d' => if decide (k' = k) then Some v else dict_get d' k
  end.

(** ** Numbers *)

(** [float(s)] for a literal with the digits [d] and the decimal
    exponent [k]: the double nearest to [d * 10^k], ties to even. *)
Definition float_of_decimal (neg : bool) (d : Z) (k : Z) : pyfloat :=
  if (d =? 0)%Z then FFin neg 0 0
  else
    let num := if (0 <=? k)%Z then (d * 10 ^ k)%Z else d in
    let den := if (0 <=? k)%Z then 1%Z else (10 ^ (- k))%Z in
    let quo e := if (0 <=? e)%Z then (num / (den * 2 ^ e))%Z
                 else ((num * 2 ^ (- e)) / den)%Z in
    let e0 := (Z.log2 num - Z.log2 den - 52)%Z in
    let e1 := if (quo e0 <? 2 ^ 52)%Z then (e0 - 1)%Z else e0 in
    let e := Z.max e1 (-1074) in
    let n' := if (0 <=? e)%Z then num else (num * 2 ^ (- e))%Z in
    let d' := if (0 <=? e)%Z then (den * 2 ^ e)%Z else den in
    let q := (n' / d')%Z in
    let r := (n' mod d')%Z in
    let q1 := if (2 * r <? d')%Z then q
              else if (d' <? 2 * r)%Z then (q + 1)%Z
              else if Z.even q then q else (q + 1)%Z in
    let m := if (q1 =? 2 ^ 53)%Z then (2 ^ 52)%Z else q1 in
    let e2 := if (q1 =? 2 ^ 53)%Z then (e + 1)%Z else e in
    if (971 <? e2)%Z then FInf neg
    else if (m =? 0)%Z then FFin neg 0 0
    else FFin neg (Z.to_N m) e2.

(** The decimal digits of a number. *)
Fixpoint digits_from (fuel : nat) (n : N) (acc : str) : str :=
  match fuel with
  | O => acc
  | S f =>
      if n <? 10 then (48 + n) :: acc
      else digits_from f (n / 10) ((48 + n mod 10) :: acc)
  end.

Definition N_repr (n : N) : str := digits_from (S (N.size_nat n)) n [].

(** The value of a run of decimal digits. *)
Definition digits_value (ds : str) : N :=
  fold_left (fun a c => 10 * a + (c - 48)) ds 0.

(** The limit of [int(str)] and [str(int)] on the number of digits. *)
Definition MAX_STR_DIGITS : nat := 4300.

(** [int(s)] for a run of digits with its sign. *)
Definition int_of_digits (neg : bool) (ds : str) : res pyobj :=
  if (MAX_STR_DIGITS <? length ds)%nat then Exn ValueError
  else Done (PInt (if neg then (- Z.of_N (digits_value ds))%Z
                   else Z.of_N (digits_value ds))).

(** [int.__repr__] *)
Definition int_repr (z : Z) : res str :=
  let ds := N_repr (Z.abs_N z) in
  if (MAX_STR_DIGITS <? length ds)%nat then Exn ValueError
  else Done (if (z <? 0)%Z then 45 :: ds else ds).

(** The shortest decimal that reads back as the double [m * 2^e]
    ([0 < m]): its digits, without zeros at the end, and the place of
    the decimal point.  [n] counts the digits tried, from [18 - fuel]. *)
Fixpoint shortest_from (fuel : nat) (n : Z) (num den k : Z) (m : N) (e : Z)
    : str * Z :=
  match fuel with
  | O => ([48], 0%Z)
  | S f =>
      let p := (k - n + 1)%Z in
      let sn := if (0 <=? p)%Z then num else (num * 10 ^ (- p))%Z in
      let sd := if (0 <=? p)%Z then (den * 10 ^ p)%Z else den in
      let lo := (sn / sd)%Z in
      let ok D := match float_of_decimal false D p with
                  | FFin _ m' e' => (0 <? D)%Z && (m' =? m) && (e' =? e)%Z
                  | _ => false
                  end in
      let pick D :=
        let ds := N_repr (Z.to_N D) in
        (rev (skipw (N.eqb 48) (rev ds)), (Z.of_nat (length ds) + p)%Z) in
      if ok lo && ok (lo + 1)%Z then
        let r2 := (2 * (sn - lo * sd))%Z in
        if (r2 <? sd)%Z then pick lo
        else if (sd <? r2)%Z then pick (lo + 1)%Z
        else if Z.even lo then pick lo else pick (lo + 1)%Z
      else if ok lo then pick lo
      else if ok (lo + 1)%Z then pick (lo + 1)%Z
      else shortest_from f (n + 1) num den k m e
  end.

Definition shortest_digits (m : N) (e : Z) : str * Z :=
  let num := if (0 <=? e)%Z then (Z.of_N m * 2 ^ e)%Z else Z.of_N m in
  let den := if (0 <=? e)%Z then 1%Z else (2 ^ (- e))%Z in
  let k0 := (Z.of_nat (length (N_repr (Z.to_N num)))
             - Z.of_nat (length (N_repr (Z.to_N den))))%Z in
  let ge := if (0 <=? k0)%Z then (den * 10 ^ k0 <=? num)%Z
            else (den <=? num * 10 ^ (- k0))%Z in
  let k := if ge then k0 else (k0 - 1)%Z in
  shortest_from 17 1 num den k m e.

(** [float.__repr__] of a finite value. *)
Definition float_repr (neg : bool) (m : N) (e : Z) : str :=
  let sign := if neg then [45] else [] in
  if m =? 0 then sign ++ [48; 46; 48]
  else
    let (ds, decpt) := shortest_digits m e in
    let n := Z.of_nat (length ds) in
    let x := (decpt - 1)%Z in
    let xs := N_repr (Z.abs_N x) in
    let fixed :=
      if (decpt <=? 0)%Z then
        [48; 46] ++ repeat 48 (Z.to_nat (- decpt)) ++ ds
      else if (n <=? decpt)%Z then
        ds ++ repeat 48 (Z.to_nat (decpt - n)) ++ [46; 48]
      else take (Z.to_nat decpt) ds ++ 46 :: drop (Z.to_nat decpt) ds in
    let scientific :=
      take 1 ds
      ++ (match drop 1 ds with [] => [] | t => 46 :: t end)
      ++ [101; if (x <? 0)%Z then 45 else 43]
      ++ (match xs with [_] => 48 :: xs | _ => xs end) in
    sign ++ (if ((-4 <? decpt) && (decpt <=? 16))%Z then fixed else scientific).

(** ** [json.loads] *)

Definition json_ws (c : char) : bool :=
  (c =? 32) || (c =? 9) || (c =? 10) || (c =? 13).

Definition hex_val (c : char) : option N :=
  if in_range 48 57 c then Some (c - 48)
  else if in_range 97 102 c then Some (c - 87)
  else if in_range 65 70 c then Some (c - 55)
  else None.

Definition hex4 (a b c d : char) : option N :=
  match hex_val a, hex_val b, hex_val c, hex_val d with
  | Some x, Some y, Some z, Some w => Some (4096 * x + 256 * y + 16 * z + w)
  | _, _, _, _ => None
  end.

(** The character a backslash and [c] stand for, [\u] apart. *)
Definition json_escape (c : char) : option char :=
  if c =? QUOTE then Some QUOTE
  else if c =? BACKSLASH then Some BACKSLASH
  else if c =? SLASH then Some SLASH
  else if c =? 98 then Some 8
  else if c =? 102 then Some 12
  else if c =? 110 then Some 10
  else if c =? 114 then Some 13
  else if c =? 116 then Some 9
  else None.

(** A string, from after its opening quote: its value and the text
    after its closing quote.  A high surrogate followed by the escape of
    a low one makes one character. *)
Fixpoint scanstring (s : str) : res (str * str) :=
  let cons c r := rbind r (fun vr : str * str => Done (c :: vr.1, vr.2)) in
  match s with
  | [] => Exn JSONDecodeError                       (* unterminated *)
  | c :: s1 =>
      if c =? QUOTE then Done ([], s1)
      else if c =? BACKSLASH then
        match s1 with
        | [] => Exn JSONDecodeError
        | x :: s2 =>
            if x =? 117 then
              match s2 with
              | h1 :: h2 :: h3 :: h4 :: s3 =>
                  match hex4 h1 h2 h3 h4 with
                  | None => Exn JSONDecodeError
                  | Some u =>
                      if in_range 55296 56319 u then
                        match s3 with
                        | b :: y :: g1 :: g2 :: g3 :: g4 :: s4 =>
                            if (b =? BACKSLASH) && (y =? 117) then
                              match hex4 g1 g2 g3 g4 with
                              | None => Exn JSONDecodeError
                              | Some u2 =>
                                  if in_range 56320 57343 u2 then
                                    cons (65536 + 1024 * (u - 55296) + (u2 - 56320))
                                         (scanstring s4)
                                  else cons u (scanstring s3)
                              end
                            else cons u (scanstring s3)
                        | _ => cons u (scanstring s3)
                        end
                      else cons u (scanstring s3)
                  end
              | _ => Exn JSONDecodeError
              end
            else
              match json_escape x with
              | Some e => cons e (scanstring s2)
              | None => Exn JSONDecodeError
              end
        end
      else if c <? 32 then Exn JSONDecodeError       (* control character *)
      else cons c (scanstring s1)
  end.

(** A number at the start of [s]: [None] when there is none; else the
    value, or the exception of its conversion, and the text after it. *)
Definition match_number (s : str) : option (res pyobj * str) :=
  let neg := match s with c :: _ => c =? 45 | [] => false end in
  let s1 := if neg then drop 1 s else s in
  match s1 with
  | [] => None
  | d :: s2 =>
      if in_range 48 57 d then
        let ip := if d =? 48 then [d] else d :: run ascii_digit s2 in
        let s3 := if d =? 48 then s2 else skipw ascii_digit s2 in
        let frac :=
          match s3 with
          | dot :: f1 :: _ =>
              if (dot =? 46) && ascii_digit f1 then run ascii_digit (drop 1 s3) else []
          | _ => []
          end in
        let s4 := match frac with [] => s3 | _ => skipw ascii_digit (drop 1 s3) end in
        let after_e :=
          match s4 with
          | x :: t => if (x =? 101) || (x =? 69) then Some t else None
          | [] => None
          end in
        let eneg := match after_e with
                    | Some (sg :: _) => sg =? 45
                    | _ => false
                    end in
        let esigned := match after_e with
                       | Some (sg :: _) => (sg =? 45) || (sg =? 43)
                       | _ => false
                       end in
        let es := match after_e with
                  | Some t => run ascii_digit (if esigned then drop 1 t else t)
                  | None => []
                  end in
        let s5 := match es with
                  | [] => s4
                  | _ => match after_e with
                         | Some t => skipw ascii_digit (if esigned then drop 1 t else t)
                         | None => s4
                         end
                  end in
        match frac, es with
        | [], [] => Some (int_of_digits neg ip, s5)
        | _, _ =>
            let x := Z.of_N (digits_value es) in
            Some (Done (PFloat (float_of_decimal neg
                                  (Z.of_N (digits_value (ip ++ frac)))
                                  ((if eneg then - x else x) - Z.of_nat (length frac))%Z)),
                  s5)
        end
      else None
  end.

(** [lit] at the start of [s]: what follows it. *)
Fixpoint strip_prefix (lit s : str) : option str :=
  match lit with
  | [] => Some s
  | c :: lit' =>
      match s with
      | x :: s' => if x =? c then strip_prefix lit' s' else None
      | [] => None
      end
  end.

(** The scalars [null], [true], [false], the numbers and the three
    constants outside JSON that the reader takes. *)
Definition scan_scalar (s : str) : res (pyobj * str) :=
  match strip_prefix (of_string "null") s with
  | Some r => Done (PNone, r)
  | None =>
  match strip_prefix (of_string "true") s with
  | Some r => Done (PBool true, r)
  | None =>
  match strip_prefix (of_string "false") s with
  | Some r => Done (PBool false, r)
  | None =>
  match match_number s with
  | Some (Done v, r) => Done (v, r)
  | Some (Exn e, _) => Exn e
  | None =>
  match strip_prefix (of_string "NaN") s with
  | Some r => Done (PFloat FNan, r)
  | None =>
  match strip_prefix (of_string "Infinity") s with
  | Some r => Done (PFloat (FInf false), r)
  | None =>
  match strip_prefix (of_string "-Infinity") s with
  | Some r => Done (PFloat (FInf true), r)
  | None => Exn JSONDecodeError                      (* expecting value *)
  end end end end end end end.

(** The scanner: a value at the start of [s] and the text after it.
    [members] reads the items of an object from its first key on,
    [elements] the items of an array from its first value on. *)
Fixpoint scan_once (fuel : nat) (s : str) : res (pyobj * str) :=
  match fuel with
  | O => Exn OutOfFuel
  | S fuel =>
      match s with
      | [] => Exn JSONDecodeError                    (* expecting value *)
      | c :: s1 =>
          if c =? QUOTE then
            rbind (scanstring s1) (fun vr => Done (PStr vr.1, vr.2))
          else if c =? 123 then
            match skipw json_ws s1 with
            | x :: s2 =>
                if x =? 125 then Done (PDict [], s2)
                else members fuel [] (x :: s2)
            | [] => Exn JSONDecodeError
            end
          else if c =? 91 then
            match skipw json_ws s1 with
            | x :: s2 =>
                if x =? 93 then Done (PList [], s2)
                else elements fuel [] (x :: s2)
            | [] => Exn JSONDecodeError
            end
          else scan_scalar s
      end
  end
with members (fuel : nat) (acc : list (str * pyobj)) (s : str) : res (pyobj * str) :=
  match fuel with
  | O => Exn OutOfFuel
  | S fuel =>
      match s with
      | [] => Exn JSONDecodeError
      | q :: s1 =>
          if q =? QUOTE then
            rbind (scanstring s1) (fun kr =>
            match skipw json_ws kr.2 with
            | [] => Exn JSONDecodeError
            | x :: s2 =>
                if x =? COLON then
                  rbind (scan_once fuel (skipw json_ws s2)) (fun vr =>
                  match skipw json_ws vr.2 with
                  | [] => Exn JSONDecodeError
                  | y :: s3 =>
                      if y =? 125 then Done (PDict (dict_set acc kr.1 vr.1), s3)
                      else if y =? 44 then
                        members fuel (dict_set acc kr.1 vr.1) (skipw json_ws s3)
                      else Exn JSONDecodeError
                  end)
                else Exn JSONDecodeError
            end)
          else Exn JSONDecodeError                   (* expecting a property name *)
      end
  end
with elements (fuel : nat) (acc : list pyobj) (s : str) : res (pyobj * str) :=
  match fuel with
  | O => Exn OutOfFuel
  | S fuel =>
      rbind (scan_once fuel s) (fun vr =>
      match skipw json_ws vr.2 with
      | [] => Exn JSONDecodeError
      | y :: s3 =>
          if y =? 93 then Done (PList (acc ++ [vr.1]), s3)
          else if y =? 44 then elements fuel (acc ++ [vr.1]) (skipw json_ws s3)
          else Exn JSONDecodeError
      end)
  end.

(** [json.loads(s)] for a [str]: a byte-order mark is refused; white
    space may surround the one value. *)
Definition json_loads (s : str) : res pyobj :=
  match s with
  | 65279 :: _ => Exn JSONDecodeError
  | _ =>
      rbind (scan_once (S (length s)) (skipw json_ws s)) (fun vr =>
      match skipw json_ws vr.2 with
      | [] => Done vr.1
      | _ :: _ => Exn JSONDecodeError                (* extra data *)
      end)
  end.

(** ** [json.dump] with [ensure_ascii=False, indent=2] *)

Definition hex_digit (n : N) : char := if n <? 10 then 48 + n else 87 + n.

Definition encode_char (c : char) : str :=
  if c =? QUOTE then [BACKSLASH; QUOTE]
  else if c =? BACKSLASH then [BACKSLASH; BACKSLASH]
  else if c =? 10 then [BACKSLASH; 110]
  else if c =? 13 then [BACKSLASH; 114]
  else if c =? 9 then [BACKSLASH; 116]
  else if c =? 8 then [BACKSLASH; 98]
  else if c =? 12 then [BACKSLASH; 102]
  else if c <? 32 then
    [BACKSLASH; 117; 48; 48; hex_digit (c / 16); hex_digit (c mod 16)]
  else [c].

Definition encode_basestring (s : str) : str :=
  QUOTE :: flat_map encode_char s ++ [QUOTE].

Definition floatstr (f : pyfloat) : str :=
  match f with
  | FNan => of_string "NaN"
  | FInf false => of_string "Infinity"
  | FInf true => of_string "-Infinity"
  | FFin neg m e => float_repr neg m e
  end.

(** A new line and the indentation of a level. *)
Definition newline_indent (lvl : nat) : str := NEWLINE :: repeat 32 (2 * lvl).

(** The text of a value that is no list and no dict. *)
Definition encode_scalar (o : pyobj) : option (res str) :=
  match o with
  | PStr s => Some (Done (encode_basestring s))
  | PNone => Some (Done (of_string "null"))
  | PBool true => Some (Done (of_string "true"))
  | PBool false => Some (Done (of_string "false"))
  | PInt z => Some (int_repr z)
  | PFloat f => Some (Done (floatstr f))
  | PList _ | PDict _ => None
  end.

(** The pieces the encoder yields for the items of a non-empty list at
    the level [lvl], [enc] giving those of an item that is a list or a
    dict: the bracket or the comma, with the new line, comes in one
    piece with the text of a scalar. *)
Fixpoint list_chunks (enc : pyobj -> list (res str)) (lvl : nat) (first : bool)
    (l : list pyobj) : list (res str) :=
  match l with
  | [] => []
  | v :: l' =>
      let buf := (if first then 91 else 44) :: newline_indent (S lvl) in
      match encode_scalar v with
      | Some t => [rbind t (fun t => Done (buf ++ t))]
      | None => Done buf :: enc v
      end ++ list_chunks enc lvl false l'
  end.

(** The same for the items of a non-empty dict. *)
Fixpoint dict_chunks (enc : pyobj -> list (res str)) (lvl : nat) (first : bool)
    (d : list (str * pyobj)) : list (res str) :=
  match d with
  | [] => []
  | (k, v) :: d' =>
      (if first then [] else [Done (44 :: newline_indent (S lvl))])
      ++ [Done (encode_basestring k); Done [COLON; 32]]
      ++ match encode_scalar v with
         | Some t => [t]
         | None => enc v
         end
      ++ dict_chunks enc lvl false d'
  end.

(** The pieces the encoder yields, one after the other, for a value at
    the level [lvl] of indentation; a piece that is an exception is
    where the encoder raises. *)
Fixpoint iterencode (lvl : nat) (o : pyobj) : list (res str) :=
  match o with
  | PList [] => [Done (of_string "[]")]
  | PList l =>
      list_chunks (iterencode (S lvl)) lvl true l
      ++ [Done (newline_indent lvl); Done [93]]
  | PDict [] => [Done (of_string "{}")]
  | PDict d =>
      [Done [123]; Done (newline_indent (S lvl))]
      ++ dict_chunks (iterencode (S lvl)) lvl true d
      ++ [Done (newline_indent lvl); Done [125]]
  | _ => match encode_scalar o with
         | Some t => [t]
         | None => []
         end
  end.

(** Writing the pieces to a file opened for writing as UTF-8: every
    piece is encoded and written on its own, so an exception leaves in
    the file what was written before it.  The result is the bytes of the
    file and the exception, if any. *)
Fixpoint write_chunks (chunks : list (res str)) : list byte * option exn :=
  match chunks with
  | [] => ([], None)
  | Exn e :: _ => ([], Some e)
  | Done t :: rest =>
      if encodable t then
        let (bs, e) := write_chunks rest in (utf8_encode t ++ bs, e)
      else ([], Some UnicodeEncodeErr)
  end.

(** [json.dump(o, f, ensure_ascii=False, indent=2)] on a file just
    opened for writing. *)
Definition json_dump (o : pyobj) : list byte * option exn :=
  write_chunks (iterencode 0 o).

(** [json.dumps(o, ensure_ascii=False, indent=2)] *)
Fixpoint concat_chunks (chunks : list (res str)) : res str :=
  match chunks with
  | [] => Done []
  | Exn e :: _ => Exn e
  | Done t :: rest => rbind (concat_chunks rest) (fun r => Done (t ++ r))
  end.

Definition json_dumps (o : pyobj) : res str := concat_chunks (iterencode 0 o).

(** * The store in the order of its keys, and the backup file *)

(** [translations_data[relative_path] = {...}] (line 120) on the store
    kept as the list of its items: a key that is there keeps its place. *)
Fixpoint store_set (d : list (str * mod_data)) (k : str) (r : mod_data)
    : list (str * mod_data) :=
  match d with
  | [] => [(k, r)]
  | (k', r') :: d' =>
      if decide (k' = k) then (k, r) :: d' else (k', r') :: store_set d' k r
  end.

(** The items of the store after the loop of line 58. *)
Definition scan_items (ms : list manifest_file) : list (str * mod_data) :=
  fold_left (fun d m => match record_for m with
                        | Some r => store_set d (mf_relpath m) r
                        | None => d
                        end) ms [].

Definition obj_of_opt (v : option str) : pyobj :=
  match v with
  | Some s => PStr s
  | None => PNone
  end.

(** The dict of lines 120-127; a record without [IsChinese] stands for
    an entry without that key. *)
Definition obj_of_record (r : mod_data) : pyobj :=
  PDict ([(of_string "UniqueID", PStr (UniqueID r));
          (of_string "Name", obj_of_opt (Name r));
          (of_string "Description", obj_of_opt (Description r));
          (of_string "Path", PStr (Path r))]
         ++ match IsChinese r with
            | Some b => [(of_string "IsChinese", PBool b)]
            | None => []
            end
         ++ [(of_string "Nurl", obj_of_opt (Nurl r))]).

Definition obj_of_store (d : list (str * mod_data)) : pyobj :=
  PDict (map (fun e : str * mod_data => (e.1, obj_of_record e.2)) d).

(** Lines 141-146 of the extraction script: nothing is written for an
    empty store; else the file is opened, which empties it, and the
    store is dumped.  The result is the bytes of the file and the
    exception that ended the dump, if any. *)
Definition write_backup (d : list (str * mod_data)) : option (list byte * option exn) :=
  match d with
  | [] => None
  | _ :: _ => Some (json_dump (obj_of_store d))
  end.

(** Lines 42-43 of the restore script: [json.load] on the file read
    through [codecs] as UTF-8. *)
Definition load_backup (bs : list byte) : res pyobj :=
  match utf8_decode (bytes_to_N bs) with
  | Ok s => json_loads s
  | Raise _ => Exn UnicodeDecodeErr
  end.

(** * The restore script on what [json.load] returns *)

(** Truth value of an object. *)
Definition py_truthy (o : pyobj) : bool :=
  match o with
  | PNone => false
  | PBool b => b
  | PInt z => negb (z =? 0)%Z
  | PFloat (FFin _ m _) => negb (m =? 0)
  | PFloat _ => true
  | PStr s => match s with [] => false | _ => true end
  | PList l => match l with [] => false | _ => true end
  | PDict d => match d with [] => false | _ => true end
  end.

Definition is_prefix (a s : str) : bool :=
  match strip_prefix a s with Some _ => true | None => false end.

Fixpoint is_infix (a s : str) : bool :=
  is_prefix a s || match s with [] => false | _ :: s' => is_infix a s' end.

(** [k in o] for a string [k]: a key of a dict, a part of a string, an
    item of a list; other objects are no containers. *)
Definition py_contains (k : str) (o : pyobj) : res bool :=
  match o with
  | PDict d => Done (match dict_get d k with Some _ => true | None => false end)
  | PStr s => Done (is_infix k s)
  | PList l =>
      Done (existsb (fun x => match x with
                              | PStr s => bool_decide (s = k)
                              | _ => false
                              end) l)
  | _ => Exn TypeError
  end.

(** [o[k]] for a string [k] *)
Definition py_getitem (o : pyobj) (k : str) : res pyobj :=
  match o with
  | PDict d => match dict_get d k with Some v => Done v | None => Exn KeyError end
  | _ => Exn TypeError
  end.

(** [o.get(k)] *)
Definition py_get (o : pyobj) (k : str) : res pyobj :=
  match o with
  | PDict d => Done (default PNone (dict_get d k))
  | _ => Exn AttributeError
  end.

(** [len(o)] *)
Definition py_len (o : pyobj) : res nat :=
  match o with
  | PStr s => Done (length s)
  | PList l => Done (length l)
  | PDict d => Done (length d)
  | _ => Exn TypeError
  end.

(** [bool(chinese_pattern.search(o))] *)
Definition chinese_search (o : pyobj) : res bool :=
  match o with
  | PStr s => Done (found NOFLAGS chinese_pattern s)
  | _ => Exn TypeError
  end.

(** [mod_data.get(key) and chinese_pattern.search(mod_data[key])], as a
    truth value. *)
Definition has_chinese_field (mod_data : pyobj) (key : string) : res bool :=
  rbind (py_get mod_data (of_string key)) (fun v =>
  if py_truthy v then rbind (py_getitem mod_data (of_string key)) chinese_search
  else Done false).

(** Lines 93-100, as the truth value that line 102 tests. *)
Definition should_update_obj (mod_data : pyobj) : res bool :=
  rbind (py_contains (of_string "IsChinese") mod_data) (fun has =>
  if has then
    rbind (py_getitem mod_data (of_string "IsChinese")) (fun v => Done (py_truthy v))
  else
    rbind (has_chinese_field mod_data "Name") (fun x =>
    if x then Done true else has_chinese_field mod_data "Description")).

Definition res_of_result {A} (r : result A) : res A :=
  match r with
  | Ok a => Done a
  | Raise ReError => Exn RegexError
  | Raise UnicodeDecodeError => Exn UnicodeDecodeErr
  | Raise OSError => Exn OtherOSError
  end.

(** Lines 110-118 and 120-128: [replace] is a method of strings. *)
Definition update_field_obj (key : string) (mod_data : pyobj) (st : str * bool)
    : res (str * bool) :=
  rbind (py_get mod_data (of_string key)) (fun v =>
  if py_truthy v then
    rbind (py_getitem mod_data (of_string key)) (fun v' =>
    match v' with
    | PStr s => res_of_result (update_field key (Some s) st)
    | _ => Exn AttributeError
    end)
  else Done st).

Definition update_content_obj (mod_data : pyobj) (content : str) : res (str * bool) :=
  rbind (update_field_obj "Name" mod_data (content, false)) (fun st =>
  update_field_obj "Description" mod_data st).

(** What may end a run of a script. *)
Inductive ending (A : Type) :=
| Finished (a : A)
| Crashed (e : exn).       (* an exception that nothing catches *)
Arguments Finished {A} a.
Arguments Crashed {A} e.

Section RestoreMain.
Context (locate : str -> N).

(** Lines 60-142 for one item of what was loaded. *)
Definition restore_item (fs : gmap N file) (mod_path : str) (mod_data : pyobj)
    : gmap N file * verdict :=
  match fs !! locate mod_path with
  | None => (fs, VSkipped)
  | Some f =>
      if negb (f_readable f) then (fs, VFailed)
      else
        match decode_manifest (f_data f) with
        | Raise _ => (fs, VFailed)
        | Ok content =>
            if forallb unicode_space content then (fs, VSkipped)
            else
              match should_update_obj mod_data with
              | Exn _ => (fs, VFailed)
              | Done false => (fs, VSkipped)
              | Done true =>
                  match update_content_obj mod_data content with
                  | Done (content', true) =>
                      let (f', ok) := write_manifest f content' in
                      (<[locate mod_path := f']> fs, if ok then VRestored else VFailed)
                  | Done (_, false) => (fs, VFailed)
                  | Exn _ => (fs, VFailed)
                  end
              end
        end
  end.

Definition restore_item_step (st : restore_state) (e : str * pyobj) : restore_state :=
  let (fs, v) := restore_item (rs_files st) e.1 e.2 in
  match v with
  | VRestored =>
      RestoreState fs (S (restored_count st)) (failed_count st) (skipped_count st)
  | VFailed =>
      RestoreState fs (restored_count st) (S (failed_count st)) (skipped_count st)
  | VSkipped =>
      RestoreState fs (restored_count st) (failed_count st) (S (skipped_count st))
  end.

(** The script, from the check of line 35 on: [backup] is the backup
    file, when there is one.  Without it, or when it cannot be loaded or
    has no length, the script says so and returns; what is loaded must
    then have [items]. *)
Definition restore_main (backup : option file) (fs : gmap N file)
    : ending restore_state :=
  match backup with
  | None => Finished (RestoreState fs 0 0 0)
  | Some b =>
      if negb (f_readable b) then Finished (RestoreState fs 0 0 0)
      else
        match rbind (load_backup (f_data b)) (fun data =>
              rbind (py_len data) (fun _ => Done data)) with
        | Exn _ => Finished (RestoreState fs 0 0 0)
        | Done (PDict d) =>
            Finished (fold_left restore_item_step d (RestoreState fs 0 0 0))
        | Done _ => Crashed AttributeError
        end
  end.

End RestoreMain.

(** * Reading back what was dumped *)

(** An object made of [None], booleans, strings, lists and dicts, as
    the store is. *)
Fixpoint plain (o : pyobj) : bool :=
  match o with
  | PNone | PBool _ | PStr _ => true
  | PInt _ | PFloat _ => false
  | PList l => forallb plain l
  | PDict d => forallb (fun e : str * pyobj => plain e.2) d
  end.

(** The keys of every dict are distinct, as they are in a dict. *)
Fixpoint distinct_keys (o : pyobj) : bool :=
  match o with
  | PList l => forallb distinct_keys l
  | PDict d =>
      bool_decide (NoDup (map fst d))
      && forallb (fun e : str * pyobj => distinct_keys e.2) d
  | _ => true
  end.

(** A bound on the calls the scanner makes for an object. *)
Fixpoint pyobj_weight (o : pyobj) : nat :=
  match o with
  | PList l => S (list_sum (map (fun v => S (pyobj_weight v)) l))
  | PDict d => S (list_sum (map (fun e : str * pyobj => S (pyobj_weight e.2)) d))
  | _ => 1
  end.

(** The text of pieces that are all text. *)
Definition chunk_text (chunks : list (res str)) : str :=
  flat_map (fun c => match c with Done t => t | Exn _ => [] end) chunks.

Definition all_done (chunks : list (res str)) : bool :=
  forallb (fun c => match c with Done _ => true | Exn _ => false end) chunks.

(** The text of an object: what [json.dumps] gives when nothing raises. *)
Definition json_text (lvl : nat) (o : pyobj) : str := chunk_text (iterencode lvl o).

(** A text that starts like a value: no white space, no closing bracket
    or brace, no byte-order mark in front. *)
Definition starts_value (t : str) : bool :=
  match t with
  | c :: _ => negb (json_ws c) && negb (c =? 93) && negb (c =? 125) && negb (c =? 65279)
  | [] => false
  end.

(** The strings of an object, keys included. *)
Fixpoint pyobj_strings (o : pyobj) : list str :=
  match o with
  | PStr s => [s]
  | PList l => flat_map pyobj_strings l
  | PDict d => flat_map (fun e : str * pyobj => e.1 :: pyobj_strings e.2) d
  | _ => []
  end.

(** The text of [o] starts like a value, is long enough for the fuel
    [json_loads] takes, and the scanner reads [o] back from it, whatever
    follows. *)
Definition reads_back (o : pyobj) : Prop :=
  forall lvl,
    starts_value (json_text lvl o) = true
    /\ (pyobj_weight o <= length (json_text lvl o))%nat
    /\ forall fuel r, (pyobj_weight o <= fuel)%nat ->
         scan_once fuel (json_text lvl o ++ r) = Done (o, r).

(** A piece that is a text with all its characters in [P]. *)
Definition text_chunk (P : char -> bool) (c : res str) : Prop :=
  exists t, c = Done t /\ forallb P t = true.

(** The strings of a record and of the store, keys included. *)
Definition record_strings (r : mod_data) : list str :=
  [UniqueID r; default [] (Name r); default [] (Description r); Path r;
   default [] (Nurl r)].

Definition store_strings (d : list (str * mod_data)) : list str :=
  flat_map (fun e : str * mod_data => e.1 :: record_strings e.2) d.

(** A non-empty string. *)
Definition nonempty_str (o : option pyobj) : bool :=
  match o with
  | Some (PStr (_ :: _)) => true
  | _ => false
  end.

(** An item of the backup that can lead to a write: an object whose
    [Name] or [Description] is a non-empty string. *)
Definition may_patch (o : pyobj) : bool :=
  match o with
  | PDict d =>
      nonempty_str (dict_get d (of_string "Name"))
      || nonempty_str (dict_get d (of_string "Description"))
  | _ => false
  end.

(** A piece that is a text the UTF-8 writer refuses. *)
Definition bad_chunk (c : res str) : Prop :=
  exists t, c = Done t /\ encodable t = false.

(** * Properties of the matcher *)

#[local] Arguments cset_mem : simpl never.
#[local] Arguments match_here : simpl never.
#[local] Arguments field_at : simpl never.

(** ** The matcher on concrete inputs

    Each of these is what Python's [re] and [codecs] return on the same
    input. *)

Example sub_greedy_empty :
  re_sub NOFLAGS (Star (CChar 120)) (text "-") (text "abxd") = Ok (text "-a-b--d-").
Proof. by vm_compute. Qed.

Example sub_lazy_empty :
  re_sub NOFLAGS (Lazy (CChar 120)) (text "-") (text "abxd") = Ok (text "-a-b---d-").
Proof. by vm_compute. Qed.

Example sub_groups :
  re_sub NOFLAGS (Grp 1 (One (CChar 97)) ;; Grp 2 (Star (CChar 98)))%re
         (text "[\2\g<1>\\]") (text "abbacab")
  = Ok (text "[bba\][a\]c[ba\]").
Proof. by vm_compute. Qed.

Example sub_bad_escape :
  re_sub NOFLAGS (One (CChar 97)) (text "\q") (text "a") = Raise ReError.
Proof. by vm_compute. Qed.

Example sub_block_comments :
  re_sub DOTALL block_comment [] (text "a/*b*/c/*/d/**/e/*") = Ok (text "ace/*").
Proof. by vm_compute. Qed.

Example sub_line_comments :
  re_sub MULTILINE line_comment [] [97; 47; 47; 98; 10; 99; 47; 47; 100; 13; 10; 101; 47; 47]
  = Ok [97; 10; 99; 10; 101].
Proof. by vm_compute. Qed.

Example uniqueid_any_case :
  group1 (search IGNORECASE uniqueid_pattern (text "{'uniqueid' : 'a.b'}"))
  = Some (text "a.b").
Proof. by vm_compute. Qed.

Example template_digit_group :
  re_sub NOFLAGS (field_subst "Name") (template (escape (text "1abc"))) (text "{'Name': 'x'}")
  = Raise ReError.
Proof. by vm_compute. Qed.

Example template_digit_octal :
  re_sub NOFLAGS (field_subst "Name") (template (escape (text "01"))) (text "{'Name': 'x'}")
  = Ok (text "{A'}").
Proof. by vm_compute. Qed.

Example decode_truncated :
  decode_manifest [x61; x62; xe4; xb8] = Ok (text "ab").
Proof. by vm_compute. Qed.

Example decode_bom_kept :
  decode_manifest [xef; xbb; xbf; x61] = Ok [65279; 97].
Proof. by vm_compute. Qed.

Example decode_latin1 :
  decode_manifest [xff; x61; x0d; x0a; x62; x0d] = Ok [255; 97; 10; 98; 10].
Proof. by vm_compute. Qed.

Example decode_surrogate_latin1 :
  decode_manifest [xed; xa0; x80] = Ok [237; 160; 128].
Proof. by vm_compute. Qed.

Lemma cset_quote fl x : cset_mem fl (CChar QUOTE) x = (x =? QUOTE).
Proof. destruct fl as [[] ? ?]; reflexivity. Qed.

Lemma cset_colon fl x : cset_mem fl (CChar COLON) x = (x =? COLON).
Proof. destruct fl as [[] ? ?]; reflexivity. Qed.

Lemma space_not_quote x : unicode_space x = true -> (x =? QUOTE) = false.
Proof.
  intros H. destruct (N.eqb_spec x QUOTE) as [->|]; [discriminate H | reflexivity].
Qed.

Lemma space_not_colon x : unicode_space x = true -> (x =? COLON) = false.
Proof.
  intros H. destruct (N.eqb_spec x COLON) as [->|]; [discriminate H | reflexivity].
Qed.

(** Greedy repetition in front of something that refuses the repeated
    class takes the whole run. *)
Lemma rep_greedy_skipw {A} p s (k : str -> option A) :
  (forall x s', p x = true -> k (x :: s') = None) ->
  rep_greedy p s k = k (skipw p s).
Proof.
  intros Hk. induction s as [|x s IH]; simpl; [reflexivity|].
  destruct (p x) eqn:Hp; [|reflexivity].
  rewrite IH. destruct (k (skipw p s)); [reflexivity|]. by apply Hk.
Qed.

Lemma run_skipw p s : run p s ++ skipw p s = s.
Proof. induction s as [|x s IH]; simpl; [done|]. destruct (p x); simpl; congruence. Qed.

Lemma take_run p s : take (length s - length (skipw p s)) s = run p s.
Proof.
  rewrite <- (run_skipw p s) at 1 3. rewrite length_app.
  replace (length (run p s) + length (skipw p s) - length (skipw p s))%nat
    with (length (run p s)) by lia.
  by rewrite take_app_length.
Qed.

Lemma split_quote_skipw s :
  split_quote s =
  match skipw notquote s with
  | [] => None
  | _ :: rest => Some (run notquote s, rest)
  end.
Proof.
  induction s as [|x s IH]; simpl; [done|]. unfold notquote at 1 3.
  destruct (x =? QUOTE) eqn:E; simpl; [done|].
  rewrite IH. by destruct (skipw notquote s).
Qed.

Lemma skipw_notquote_head s x r : skipw notquote s = x :: r -> x = QUOTE.
Proof.
  induction s as [|y s IH]; simpl; [done|]. unfold notquote at 1.
  destruct (N.eqb_spec y QUOTE); simpl; [congruence | done].
Qed.

Lemma split_quote_app a r :
  forallb notquote a = true -> split_quote (a ++ QUOTE :: r) = Some (a, r).
Proof.
  induction a as [|x a IH]; simpl; [done|]. unfold notquote at 1.
  intros [Hx Ha]%andb_true_iff. apply negb_true_iff in Hx. rewrite Hx.
  by rewrite IH.
Qed.

Lemma split_quote_inv s a r :
  split_quote s = Some (a, r) -> s = a ++ QUOTE :: r /\ forallb notquote a = true.
Proof.
  revert a. induction s as [|x s IH]; intros a; simpl; [done|].
  destruct (N.eqb_spec x QUOTE) as [->|Hx].
  - intros [= <- <-]. done.
  - destruct (split_quote s) as [[a' r']|]; [|done].
    intros [= <- <-]. destruct (IH a' eq_refl) as [-> Ha']. simpl. split; [done|].
    unfold notquote at 1. apply N.eqb_neq in Hx. by rewrite Hx.
Qed.

(** The key in quotes: a literal, then the closing quote. *)
Lemma rmatch_key {A} fl key s g (k : str -> groups -> option A) :
  forallb (fun c => negb (cset_mem fl (CChar c) QUOTE)) key = true ->
  rmatch fl (Lit (key ++ [QUOTE])) s g k =
  match split_quote s with
  | Some (b, s1) => if lit_eq fl key b then k s1 g else None
  | None => None
  end.
Proof.
  revert s. induction key as [|c key IH]; intros s Hwf; simpl.
  - destruct s as [|x s]; [done|]. rewrite cset_quote. simpl.
    destruct (x =? QUOTE); [done|]. by destruct (split_quote s) as [[]|].
  - simpl in Hwf. apply andb_true_iff in Hwf as [Hc Hwf].
    destruct s as [|x s]; [done|]. simpl.
    destruct (N.eqb_spec x QUOTE) as [->|Hx].
    + apply negb_true_iff in Hc. rewrite Hc. done.
    + destruct (cset_mem fl (CChar c) x) eqn:E; simpl.
      * rewrite IH by done. destruct (split_quote s) as [[]|]; simpl; [|done].
        by rewrite E.
      * destruct (split_quote s) as [[]|]; simpl; [|done]. by rewrite E.
Qed.

Lemma is_sep_space x sp : unicode_space x = true -> is_sep (x :: sp) = is_sep sp.
Proof. intros H. unfold is_sep. simpl. by rewrite H. Qed.

(** White space and a quote. *)
Lemma expect_quote_skipw {B} (K : str -> option B) s :
  match skipw unicode_space s with
  | x :: s' => if x =? QUOTE then K s' else None
  | [] => None
  end =
  match split_quote s with
  | Some (sp, s2) => if forallb unicode_space sp then K s2 else None
  | None => None
  end.
Proof.
  induction s as [|x s IH]; simpl; [done|].
  destruct (unicode_space x) eqn:Hs.
  - rewrite (space_not_quote _ Hs). rewrite IH.
    destruct (split_quote s) as [[sp s2]|]; simpl; [|done]. by rewrite Hs.
  - destruct (x =? QUOTE); [done|].
    destruct (split_quote s) as [[sp s2]|]; simpl; [|done]. by rewrite Hs.
Qed.

(** White space, a colon, white space and a quote. *)
Lemma expect_sep_skipw {B} (K : str -> option B) s :
  match skipw unicode_space s with
  | x :: s' =>
      if x =? COLON then
        match skipw unicode_space s' with
        | y :: s'' => if y =? QUOTE then K s'' else None
        | [] => None
        end
      else None
  | [] => None
  end =
  match split_quote s with
  | Some (sp, s2) => if is_sep sp then K s2 else None
  | None => None
  end.
Proof.
  induction s as [|x s IH]; simpl; [done|].
  destruct (unicode_space x) eqn:Hs.
  - rewrite (space_not_quote _ Hs). rewrite IH.
    destruct (split_quote s) as [[sp s2]|]; [|done]. by rewrite is_sep_space.
  - destruct (N.eqb_spec x COLON) as [->|Hx].
    + change (COLON =? QUOTE) with false. cbv iota.
      rewrite expect_quote_skipw.
      destruct (split_quote s) as [[sp s2]|]; [|done].
      unfold is_sep. simpl. done.
    + destruct (x =? QUOTE) eqn:Hq.
      * done.
      * destruct (split_quote s) as [[sp s2]|]; [|done].
        unfold is_sep. simpl. rewrite Hs. apply N.eqb_neq in Hx. by rewrite Hx.
Qed.

Lemma rmatch_sep {A} fl (R : regex) s g (k : str -> groups -> option A) :
  rmatch fl (Star CSpace ;; One (CChar COLON) ;; Star CSpace ;; One (CChar QUOTE) ;; R)%re s g k =
  match split_quote s with
  | Some (sp, s2) => if is_sep sp then rmatch fl R s2 g k else None
  | None => None
  end.
Proof.
  rewrite <- expect_sep_skipw. cbn [rmatch Star].
  change (cset_mem fl CSpace) with unicode_space.
  rewrite rep_greedy_skipw.
  2:{ intros x s' Hx. rewrite cset_colon. by rewrite (space_not_colon _ Hx). }
  destruct (skipw unicode_space s) as [|x s']; [done|].
  rewrite cset_colon. destruct (x =? COLON); [|done].
  rewrite rep_greedy_skipw.
  2:{ intros y s'' Hy. rewrite cset_quote. by rewrite (space_not_quote _ Hy). }
  destruct (skipw unicode_space s') as [|y s'']; [done|].
  by rewrite cset_quote.
Qed.

(** The value and its closing quote. *)
Lemma rep_value {A} fl s (k : str -> str -> option A) :
  rep_greedy (cset_mem fl (CNotChar QUOTE)) s
    (fun s' => match s' with
               | x :: s'' => if cset_mem fl (CChar QUOTE) x then k s' s'' else None
               | [] => None
               end) =
  match split_quote s with
  | Some (_, rest) => k (QUOTE :: rest) rest
  | None => None
  end.
Proof.
  rewrite rep_greedy_skipw.
  2:{ intros x s' Hx. rewrite cset_quote. change (negb (x =? QUOTE) = true) in Hx.
      apply negb_true_iff in Hx. by rewrite Hx. }
  rewrite split_quote_skipw. change (cset_mem fl (CNotChar QUOTE)) with notquote.
  destruct (skipw notquote s) as [|x r] eqn:E; [done|].
  rewrite cset_quote. by rewrite (skipw_notquote_head _ _ _ E).
Qed.

Lemma key_wf_quote fl key :
  key_wf fl key = true ->
  forallb (fun c => negb (cset_mem fl (CChar c) QUOTE)) (of_string key) = true.
Proof.
  unfold key_wf. intros [H _]%andb_true_iff.
  induction (of_string key) as [|c l IH]; simpl in *; [done|].
  apply andb_true_iff in H as [[[H1 _]%andb_true_iff _]%andb_true_iff H].
  rewrite H1. by apply IH.
Qed.

Lemma rmatch_quoted_key {A} fl key (R : regex) s g (k : str -> groups -> option A) :
  key_wf fl key = true ->
  rmatch fl (Lit (quoted key) ;; R)%re s g k =
  match s with
  | c :: s0 =>
      if c =? QUOTE then
        match split_quote s0 with
        | Some (b, s1) => if lit_eq fl (of_string key) b then rmatch fl R s1 g k else None
        | None => None
        end
      else None
  | [] => None
  end.
Proof.
  intros Hwf. unfold quoted. cbn [Lit app rmatch].
  destruct s as [|c s0]; [done|]. rewrite cset_quote.
  destruct (c =? QUOTE); [|done].
  by rewrite rmatch_key by (by apply key_wf_quote).
Qed.

Lemma take_split_quote s v rest :
  split_quote s = Some (v, rest) ->
  take (length s - length (QUOTE :: rest)) s = v.
Proof.
  intros [-> _]%split_quote_inv. rewrite length_app.
  replace (length v + length (QUOTE :: rest) - length (QUOTE :: rest))%nat
    with (length v) by lia.
  by rewrite take_app_length.
Qed.


Lemma match_field_pattern fl key s :
  key_wf fl key = true ->
  match_here fl (field_pattern key) s =
  match field_at fl key s with
  | Some (_, v, rest) => Some ([(1%nat, v)], rest)
  | None => None
  end.
Proof.
  intros Hwf. unfold match_here, field_pattern, field_at.
  rewrite rmatch_quoted_key by done.
  destruct s as [|c s0]; [done|].
  destruct (c =? QUOTE); [|done].
  destruct (split_quote s0) as [[b s1]|]; [|done].
  rewrite rmatch_sep.
  destruct (lit_eq fl (of_string key) b); simpl.
  2:{ destruct (split_quote s1) as [[sp s2]|]; [|done]. by destruct (split_quote s2) as [[]|]. }
  destruct (split_quote s1) as [[sp s2]|]; [|done].
  destruct (is_sep sp).
  2:{ by destruct (split_quote s2) as [[]|]. }
  cbn [rmatch Star]. etrans; [apply (rep_value fl s2 (fun s' s'' => Some ([(1%nat, take (length s2 - length s') s2)], s'')))|].
  destruct (split_quote s2) as [[v rest]|] eqn:E; [|done].
  by rewrite (take_split_quote _ _ _ E).
Qed.

Lemma match_field_test key s :
  key_wf NOFLAGS key = true ->
  match_here NOFLAGS (field_test key) s =
  match field_at NOFLAGS key s with
  | Some (_, _, rest) => Some ([], rest)
  | None => None
  end.
Proof.
  intros Hwf. unfold match_here, field_test, field_at.
  rewrite rmatch_quoted_key by done.
  destruct s as [|c s0]; [done|].
  destruct (c =? QUOTE); [|done].
  destruct (split_quote s0) as [[b s1]|]; [|done].
  rewrite rmatch_sep.
  destruct (lit_eq NOFLAGS (of_string key) b); simpl.
  2:{ destruct (split_quote s1) as [[sp s2]|]; [|done]. by destruct (split_quote s2) as [[]|]. }
  destruct (split_quote s1) as [[sp s2]|]; [|done].
  destruct (is_sep sp).
  2:{ by destruct (split_quote s2) as [[]|]. }
  cbn [rmatch Star]. etrans; [apply (rep_value NOFLAGS s2 (fun s' s'' => Some ([], s'')))|].
  by destruct (split_quote s2) as [[v rest]|] eqn:E.
Qed.

Lemma rmatch_sep0 {A} fl s g (k : str -> groups -> option A) :
  rmatch fl (Star CSpace ;; One (CChar COLON) ;; Star CSpace ;; One (CChar QUOTE))%re s g k =
  match split_quote s with
  | Some (sp, s2) => if is_sep sp then k s2 g else None
  | None => None
  end.
Proof. exact (rmatch_sep fl Eps s g k). Qed.

Lemma rmatch_Grp {A} fl i a b s g (k : str -> groups -> option A) :
  rmatch fl (Grp i a ;; b)%re s g k =
  rmatch fl a s g
    (fun s' g' => rmatch fl b s' ((i, take (length s - length s') s) :: g') k).
Proof. reflexivity. Qed.

Lemma take_head (b sp s2 : str) :
  take (length (QUOTE :: b ++ QUOTE :: sp ++ QUOTE :: s2) - length s2)
       (QUOTE :: b ++ QUOTE :: sp ++ QUOTE :: s2)
  = QUOTE :: b ++ QUOTE :: sp ++ [QUOTE].
Proof.
  replace (QUOTE :: b ++ QUOTE :: sp ++ QUOTE :: s2)
    with ((QUOTE :: b ++ QUOTE :: sp ++ [QUOTE]) ++ s2)
    by (simpl; rewrite <- !app_assoc; simpl; by rewrite <- app_assoc).
  rewrite length_app.
  replace (length (QUOTE :: b ++ QUOTE :: sp ++ [QUOTE]) + length s2 - length s2)%nat
    with (length (QUOTE :: b ++ QUOTE :: sp ++ [QUOTE])) by lia.
  by rewrite take_app_length.
Qed.

Lemma match_field_subst key s :
  key_wf NOFLAGS key = true ->
  match_here NOFLAGS (field_subst key) s =
  match field_at NOFLAGS key s with
  | Some (k, _, rest) => Some ([(2%nat, [QUOTE]); (1%nat, k)], rest)
  | None => None
  end.
Proof.
  intros Hwf. unfold match_here, field_subst, field_at.
  rewrite rmatch_Grp, rmatch_quoted_key by done.
  destruct s as [|c s0]; [done|].
  destruct (N.eqb_spec c QUOTE) as [->|]; [|done].
  destruct (split_quote s0) as [[b s1]|] eqn:E0; [|done].
  rewrite rmatch_sep0.
  destruct (lit_eq NOFLAGS (of_string key) b); simpl.
  2:{ destruct (split_quote s1) as [[sp s2]|]; [|done]. by destruct (split_quote s2) as [[]|]. }
  destruct (split_quote s1) as [[sp s2]|] eqn:E1; [|done].
  destruct (is_sep sp).
  2:{ by destruct (split_quote s2) as [[]|]. }
  cbn [rmatch Star].
  etrans; [apply (rep_value NOFLAGS s2
    (fun s' s'' => Some ([(2%nat, take (length s' - length s'') s');
                          (1%nat, take (length (QUOTE :: s0) - length s2) (QUOTE :: s0))], s'')))|].
  destruct (split_quote s2) as [[v rest]|] eqn:E; [|done].
  apply split_quote_inv in E0 as [-> _]. apply split_quote_inv in E1 as [-> _].
  rewrite take_head. do 4 f_equal.
  replace (length (QUOTE :: rest) - length rest)%nat with 1%nat by (simpl; lia).
  done.
Qed.


(** ** Quoted fields *)

Lemma field_at_inv fl key s k v rest :
  field_at fl key s = Some (k, v, rest) ->
  exists b sp,
    k = QUOTE :: b ++ QUOTE :: sp ++ [QUOTE]
    /\ s = k ++ v ++ QUOTE :: rest
    /\ lit_eq fl (of_string key) b = true /\ is_sep sp = true
    /\ forallb notquote b = true /\ forallb notquote sp = true
    /\ forallb notquote v = true.
Proof.
  unfold field_at. destruct s as [|c s0]; [done|].
  destruct (N.eqb_spec c QUOTE) as [->|]; [|done].
  destruct (split_quote s0) as [[b s1]|] eqn:E0; [|done].
  destruct (split_quote s1) as [[sp s2]|] eqn:E1; [|done].
  destruct (split_quote s2) as [[v' rest']|] eqn:E2; [|done].
  destruct (lit_eq fl (of_string key) b) eqn:Hb; [|done].
  destruct (is_sep sp) eqn:Hsp; [|done].
  intros [= <- <- <-].
  apply split_quote_inv in E0 as [-> Hqb].
  apply split_quote_inv in E1 as [-> Hqsp].
  apply split_quote_inv in E2 as [-> Hqv].
  exists b, sp. repeat split; try done.
  simpl. rewrite <- !app_assoc. simpl. by rewrite <- !app_assoc.
Qed.

Lemma field_at_intro fl key b sp v rest :
  lit_eq fl (of_string key) b = true -> is_sep sp = true ->
  forallb notquote b = true -> forallb notquote sp = true ->
  forallb notquote v = true ->
  field_at fl key ((QUOTE :: b ++ QUOTE :: sp ++ [QUOTE]) ++ v ++ QUOTE :: rest)
  = Some (QUOTE :: b ++ QUOTE :: sp ++ [QUOTE], v, rest).
Proof.
  intros Hb Hsp Hqb Hqsp Hqv. unfold field_at. simpl.
  rewrite <- !app_assoc. simpl. rewrite <- !app_assoc. simpl.
  rewrite (split_quote_app b) by done.
  rewrite (split_quote_app sp) by done.
  rewrite (split_quote_app v) by done.
  by rewrite Hb, Hsp.
Qed.

(** A field stays a field when its value and what follows it change. *)
Lemma field_at_change fl key s k v rest w X :
  field_at fl key s = Some (k, v, rest) ->
  forallb notquote w = true ->
  field_at fl key (k ++ w ++ QUOTE :: X) = Some (k, w, X).
Proof.
  intros (b & sp & -> & _ & Hb & Hsp & Hqb & Hqsp & _)%field_at_inv Hw.
  by apply field_at_intro.
Qed.

Lemma field_at_decomp fl key s k v rest :
  field_at fl key s = Some (k, v, rest) -> s = k ++ v ++ QUOTE :: rest.
Proof. by intros (b & sp & _ & -> & _)%field_at_inv. Qed.

Lemma field_at_nil fl key : field_at fl key [] = None.
Proof. reflexivity. Qed.

Lemma field_at_nonquote fl key c s : (c =? QUOTE) = false -> field_at fl key (c :: s) = None.
Proof. intros H. unfold field_at. by rewrite H. Qed.

(** ** [re.search] on the field patterns *)

Lemma all_values_cons fl key c s :
  all_values fl key (c :: s) =
  match field_at fl key (c :: s) with
  | Some (_, v, _) => [v]
  | None => []
  end ++ all_values fl key s.
Proof. reflexivity. Qed.

Lemma search_field_pattern fl key s :
  key_wf fl key = true ->
  group1 (search fl (field_pattern key) s) = find_field fl key s.
Proof.
  intros Hwf. unfold find_field.
  induction s as [|c s IH].
  - cbn [search]. rewrite match_field_pattern by done. done.
  - cbn [search]. rewrite match_field_pattern by done. rewrite all_values_cons.
    destruct (field_at fl key (c :: s)) as [[[k v] rest]|]; [done|].
    simpl app. rewrite <- IH.
    by destruct (search fl (field_pattern key) s) as [[[pre g] rest]|].
Qed.

Lemma found_field_test key s :
  key_wf NOFLAGS key = true ->
  found NOFLAGS (field_test key) s =
  match find_field NOFLAGS key s with Some _ => true | None => false end.
Proof.
  intros Hwf. unfold find_field, found.
  induction s as [|c s IH].
  - cbn [search]. rewrite match_field_test by done. done.
  - cbn [search]. rewrite match_field_test by done. rewrite all_values_cons.
    destruct (field_at NOFLAGS key (c :: s)) as [[[k v] rest]|]; [done|].
    simpl app. rewrite <- IH.
    by destruct (search NOFLAGS (field_test key) s) as [[[pre g] rest]|].
Qed.

(** ** [re.sub] *)

Lemma sub_go_skip fl r t n s :
  (n <= length s)%nat -> sub_go fl r t n s = sub_go fl r t 0 (drop n s).
Proof.
  revert s. induction n as [|n IH]; intros s Hn; [by rewrite drop_0|].
  destruct s as [|x s]; [simpl in Hn; lia|].
  simpl in Hn. cbn [sub_go drop]. apply IH. lia.
Qed.

Lemma sub_go_nil fl r t :
  match_here fl r [] = None -> sub_go fl r t 0 [] = [].
Proof. intros H. cbn [sub_go]. by rewrite H. Qed.

Lemma sub_go_miss fl r t c s :
  match_here fl r (c :: s) = None ->
  sub_go fl r t 0 (c :: s) = c :: sub_go fl r t 0 s.
Proof. intros H. cbn [sub_go]. by rewrite H. Qed.

Lemma sub_go_hit fl r t s g m rest :
  match_here fl r (m ++ rest) = Some (g, rest) -> m <> [] -> s = m ++ rest ->
  sub_go fl r t 0 s = expand t ((0%nat, m) :: g) ++ sub_go fl r t 0 rest.
Proof.
  intros H Hm ->. destruct m as [|x m]; [done|].
  cbn [sub_go app]. cbn [app] in H. rewrite H.
  cbn [length]. rewrite length_app.
  replace (S (length m + length rest) - length rest)%nat with (S (length m)) by lia.
  rewrite sub_go_skip by (rewrite length_app; lia).
  rewrite drop_app_length.
  change (x :: m ++ rest) with ((x :: m) ++ rest).
  replace (S (length m)) with (length (x :: m)) by done.
  by rewrite take_app_length.
Qed.

Lemma expand_lits w t g : expand (map TLit w ++ t) g = w ++ expand t g.
Proof. induction w as [|c w IH]; simpl; [done|]. by rewrite IH. Qed.

Lemma sub_go_replaced key w s :
  key_wf NOFLAGS key = true ->
  replaced key w s
    (sub_go NOFLAGS (field_subst key) (TGroup 1 :: map TLit w ++ [TGroup 2]) 0 s).
Proof.
  intros Hwf. remember (length s) as n eqn:Hn. revert s Hn.
  induction n as [n IH] using lt_wf_ind. intros s ->.
  destruct (field_at NOFLAGS key s) as [[[k v] rest]|] eqn:E.
  - pose proof (field_at_decomp _ _ _ _ _ _ E) as Hs.
    rewrite (sub_go_hit _ _ _ s [(2%nat, [QUOTE]); (1%nat, k)] (k ++ v ++ [QUOTE]) rest).
    + cbn [expand group Nat.eqb default]. rewrite expand_lits. cbn [expand group Nat.eqb default].
      rewrite app_nil_r. rewrite <- !app_assoc. simpl.
      eapply replaced_hit; [exact E|].
      eapply IH; [|reflexivity]. rewrite Hs, !length_app. simpl. lia.
    + rewrite match_field_subst by done.
      rewrite <- !app_assoc. simpl. rewrite <- Hs, E. reflexivity.
    + intros Hnil. apply (f_equal length) in Hnil. rewrite !length_app in Hnil. simpl in Hnil. lia.
    + rewrite <- !app_assoc. simpl. exact Hs.
  - destruct s as [|c s].
    + rewrite sub_go_nil; [constructor|]. by rewrite match_field_subst, E.
    + rewrite sub_go_miss by (by rewrite match_field_subst, E).
      constructor; [done|]. eapply IH; [|reflexivity]. simpl. lia.
Qed.


(** ** The replacement template of the restore script *)

Lemma ngroups_Lit l : ngroups (Lit l) = 0%nat.
Proof. induction l as [|c l IH]; simpl; [done|]. exact IH. Qed.

Lemma ngroups_field_subst key : ngroups (field_subst key) = 2%nat.
Proof. unfold field_subst. cbn [ngroups]. by rewrite ngroups_Lit. Qed.

Lemma escape_cons c v :
  escape (c :: v) =
  (if c =? BACKSLASH then [BACKSLASH; BACKSLASH]
   else if c =? QUOTE then [BACKSLASH; QUOTE] else [c]) ++ escape v.
Proof.
  unfold escape, replace1. cbn [flat_map]. rewrite flat_map_app. f_equal.
  destruct (N.eqb_spec c BACKSLASH) as [->|]; [reflexivity|].
  cbn [flat_map]. by rewrite app_nil_r.
Qed.

Lemma quote_escape_cons c v :
  quote_escape (c :: v) =
  (if c =? QUOTE then [BACKSLASH; QUOTE] else [c]) ++ quote_escape v.
Proof. reflexivity. Qed.

Lemma parse_plain n c t :
  (c =? BACKSLASH) = false ->
  parse_from n 0 (c :: t) = bind (parse_from n 0 t) (fun l => Ok (TLit c :: l)).
Proof. intros H. cbn [parse_from]. rewrite H. reflexivity. Qed.

Lemma parse_backslash2 n t :
  parse_from n 0 (BACKSLASH :: BACKSLASH :: t)
  = bind (parse_from n 0 t) (fun l => Ok (TLit BACKSLASH :: l)).
Proof. reflexivity. Qed.

Lemma parse_backslash_quote n t :
  parse_from n 0 (BACKSLASH :: QUOTE :: t)
  = bind (parse_from n 0 t) (fun l => Ok (TLit BACKSLASH :: TLit QUOTE :: l)).
Proof.
  cbn. destruct (parse_from n 0 t); reflexivity.
Qed.

(** The parser undoes the doubling of the backslashes. *)
Lemma parse_escape n v t :
  parse_from n 0 (escape v ++ t)
  = bind (parse_from n 0 t) (fun l => Ok (map TLit (quote_escape v) ++ l)).
Proof.
  induction v as [|c v IH].
  - simpl. by destruct (parse_from n 0 t).
  - rewrite escape_cons, quote_escape_cons.
    destruct (N.eqb_spec c BACKSLASH) as [->|Hb].
    + cbn [app]. rewrite parse_backslash2, IH.
      by destruct (parse_from n 0 t).
    + destruct (N.eqb_spec c QUOTE) as [->|Hq].
      * cbn [app]. rewrite parse_backslash_quote, IH.
        by destruct (parse_from n 0 t).
      * cbn [app]. rewrite parse_plain by (by apply N.eqb_neq). rewrite IH.
        by destruct (parse_from n 0 t).
Qed.

Lemma escape_head c v :
  exists d r, escape (c :: v) = d :: r /\ (ascii_digit c = false -> ascii_digit d = false).
Proof.
  rewrite escape_cons.
  destruct (c =? BACKSLASH); [by eexists _, _|].
  destruct (c =? QUOTE); by eexists _, _.
Qed.

Lemma parse_group1 d t :
  ascii_digit d = false ->
  parse_from 2 0 (BACKSLASH :: 49 :: d :: t)
  = bind (parse_from 2 0 (d :: t)) (fun l => Ok (TGroup 1 :: l)).
Proof.
  intros Hd. cbn [parse_from]. cbn [negb Nat.eqb N.eqb BACKSLASH Pos.eqb].
  change (49 =? 103) with false. change (49 =? 48) with false.
  change (ascii_digit 49) with true. cbv iota. rewrite Hd.
  reflexivity.
Qed.

Lemma parse_template_escape c v :
  ascii_digit c = false ->
  parse_template 2 (template (escape (c :: v)))
  = Ok (TGroup 1 :: map TLit (quote_escape (c :: v)) ++ [TGroup 2]).
Proof.
  intros Hc. unfold parse_template, template.
  destruct (escape_head c v) as (d & r & E & Hd).
  cbn [app]. rewrite E. cbn [app]. rewrite parse_group1 by auto.
  change (d :: r ++ [BACKSLASH; 50]) with ((d :: r) ++ [BACKSLASH; 50]).
  rewrite <- E, parse_escape. reflexivity.
Qed.

Lemma update_field_spec key c v st :
  key_wf NOFLAGS key = true -> ascii_digit c = false ->
  update_field key (Some (c :: v)) st =
  match find_field NOFLAGS key st.1 with
  | Some _ =>
      Ok (sub_go NOFLAGS (field_subst key)
            (TGroup 1 :: map TLit (quote_escape (c :: v)) ++ [TGroup 2]) 0 st.1, true)
  | None => Ok st
  end.
Proof.
  intros Hwf Hc. unfold update_field. cbn [truthy default].
  rewrite found_field_test by done.
  destruct (find_field NOFLAGS key st.1); [|done].
  unfold re_sub. rewrite ngroups_field_subst. unfold id. rewrite parse_template_escape by done.
  reflexivity.
Qed.


(** ** What a substitution leaves in place *)

Lemma segs_quote n s :
  segs (S n) (QUOTE :: s) =
  match segs n s with Some l => Some ([] :: l) | None => None end.
Proof. reflexivity. Qed.

Lemma segs_nonquote n c s :
  (c =? QUOTE) = false ->
  segs (S n) (c :: s) =
  match segs (S n) s with
  | Some (a :: l) => Some ((c :: a) :: l)
  | _ => None
  end.
Proof.
  intros Hc. cbn [segs split_quote]. rewrite Hc.
  destruct (split_quote s) as [[a r]|]; [|done].
  by destruct (segs n r).
Qed.

Lemma segs_app n a s :
  forallb notquote a = true ->
  segs (S n) (a ++ QUOTE :: s) =
  match segs n s with Some l => Some (a :: l) | None => None end.
Proof. intros Ha. cbn [segs]. by rewrite split_quote_app. Qed.

Lemma segs_head n b sp X :
  (n <= 3)%nat -> forallb notquote b = true -> forallb notquote sp = true ->
  segs n ((QUOTE :: b ++ QUOTE :: sp ++ [QUOTE]) ++ X) = Some (take n [[]; b; sp]).
Proof.
  intros Hn Hb Hsp. cbn [app]. rewrite <- !app_assoc. cbn [app].
  rewrite <- !app_assoc. cbn [app].
  destruct n as [|n]; [done|]. rewrite segs_quote.
  destruct n as [|n]; [done|]. rewrite segs_app by done.
  destruct n as [|n]; [done|]. rewrite segs_app by done.
  destruct n as [|n]; [done|]. lia.
Qed.

(** The first three segments of a text are those of its image. *)
Lemma replaced_segs key w s out :
  replaced key w s out -> forall n, (n <= 3)%nat -> segs n out = segs n s.
Proof.
  induction 1 as [|c s out Hnone Hrep IH|s k v rest out Hfield Hrep IH]; intros n Hn.
  - done.
  - destruct n as [|n]; [done|].
    destruct (N.eqb_spec c QUOTE) as [->|Hc].
    + rewrite !segs_quote. by rewrite IH by lia.
    + apply N.eqb_neq in Hc. rewrite !segs_nonquote by done. by rewrite IH by lia.
  - destruct (field_at_inv _ _ _ _ _ _ Hfield) as (b & sp & -> & -> & _ & _ & Hb & Hsp & _).
    by rewrite !segs_head.
Qed.

(** Whether a field starts at a quote, and with which head and value,
    depends on the three segments after the quote only. *)
Lemma field_hv_segs fl key c s s' :
  segs 3 s = segs 3 s' -> field_hv fl key (c :: s) = field_hv fl key (c :: s').
Proof.
  unfold field_hv, field_at. cbn [segs].
  destruct (c =? QUOTE); [|done].
  destruct (split_quote s) as [[b s1]|], (split_quote s') as [[b' s1']|]; try done.
  - destruct (split_quote s1) as [[sp s2]|], (split_quote s1') as [[sp' s2']|]; try done.
    + destruct (split_quote s2) as [[v r]|], (split_quote s2') as [[v' r']|]; try done.
      intros [= -> -> ->].
      by destruct (lit_eq fl (of_string key) b' && is_sep sp').
    + by destruct (split_quote s2) as [[v r]|].
    + by destruct (split_quote s2') as [[v r]|].
  - destruct (split_quote s1) as [[sp s2]|]; [|done].
    by destruct (split_quote s2) as [[v r]|].
  - destruct (split_quote s1') as [[sp s2]|]; [|done].
    by destruct (split_quote s2) as [[v r]|].
Qed.

Lemma replaced_field_hv key w s out fl G c :
  replaced key w s out -> field_hv fl G (c :: out) = field_hv fl G (c :: s).
Proof. intros H. apply field_hv_segs. by apply (replaced_segs _ _ _ _ H). Qed.

Lemma field_hv_None fl key s : field_hv fl key s = None <-> field_at fl key s = None.
Proof. unfold field_hv. by destruct (field_at fl key s) as [[[]]|]. Qed.

Lemma replaced_field_None key w s out fl G c :
  replaced key w s out ->
  field_at fl G (c :: s) = None -> field_at fl G (c :: out) = None.
Proof.
  intros H E. apply field_hv_None. rewrite (replaced_field_hv _ _ _ _ _ _ _ H).
  by apply field_hv_None.
Qed.

(** Substituting twice is substituting once. *)
Lemma replaced_fixpoint key w s out :
  forallb notquote w = true -> replaced key w s out -> replaced key w out out.
Proof.
  intros Hw. induction 1 as [|c s out Hnone Hrep IH|s k v rest out Hfield Hrep IH].
  - constructor.
  - constructor; [|done]. exact (replaced_field_None _ _ _ _ _ _ _ Hrep Hnone).
  - eapply replaced_hit; [|done]. exact (field_at_change _ _ _ _ _ _ _ _ Hfield Hw).
Qed.

Lemma replaced_fun key w s out1 out2 :
  replaced key w s out1 -> replaced key w s out2 -> out1 = out2.
Proof.
  intros H. revert out2.
  induction H as [|c s out Hnone Hrep IH|s k v rest out Hfield Hrep IH]; intros out2 H2.
  - inversion H2 as [| |? ? ? ? ? Hf]; subst; [done|]. by rewrite field_at_nil in Hf.
  - inversion H2; subst.
    + f_equal. by apply IH.
    + congruence.
  - inversion H2; subst.
    + by rewrite field_at_nil in Hfield.
    + congruence.
    + assert (k0 = k /\ v0 = v /\ rest0 = rest) as (-> & -> & ->) by (split_and!; congruence).
      do 3 f_equal. by apply IH.
Qed.

(** The first field of the image holds what was written. *)
Lemma find_field_cons_None fl key c s :
  field_at fl key (c :: s) = None ->
  find_field fl key (c :: s) = find_field fl key s.
Proof. unfold find_field. rewrite all_values_cons. by intros ->. Qed.

Lemma find_field_Some fl key s k v rest :
  field_at fl key s = Some (k, v, rest) -> find_field fl key s = Some v.
Proof.
  unfold find_field. destruct s as [|c s]; [by rewrite field_at_nil|].
  rewrite all_values_cons. by intros ->.
Qed.

Lemma replaced_find key w s out :
  forallb notquote w = true -> replaced key w s out ->
  find_field NOFLAGS key out =
  match find_field NOFLAGS key s with Some _ => Some w | None => None end.
Proof.
  intros Hw. induction 1 as [|c s out Hnone Hrep IH|s k v rest out Hfield Hrep IH].
  - done.
  - rewrite (find_field_cons_None _ _ _ _ Hnone).
    rewrite find_field_cons_None by exact (replaced_field_None _ _ _ _ _ _ _ Hrep Hnone). done.
  - rewrite (find_field_Some _ _ _ _ _ _ Hfield).
    by rewrite (find_field_Some _ _ _ _ _ _ (field_at_change _ _ _ _ _ _ w out Hfield Hw)).
Qed.


(** ** Keys and separators *)

Ltac norm_app := repeat (progress (rewrite <- ?app_assoc; cbn [app])).

Lemma key_wf_Name : key_wf NOFLAGS "Name" = true.
Proof. reflexivity. Qed.

Lemma key_wf_Description : key_wf NOFLAGS "Description" = true.
Proof. reflexivity. Qed.

Lemma key_wf_UniqueID : key_wf IGNORECASE "UniqueID" = true.
Proof. reflexivity. Qed.

Lemma lit_eq_noflags l s : lit_eq NOFLAGS l s = true <-> s = l.
Proof.
  revert s. induction l as [|c l IH]; intros [|x s]; simpl; try done.
  unfold cset_mem at 1. simpl. rewrite andb_true_iff, IH, N.eqb_eq.
  split; [intros [-> ->]; done | intros [= -> ->]; done].
Qed.

Lemma forallb_space_notquote w :
  forallb unicode_space w = true -> forallb notquote w = true.
Proof.
  induction w as [|x w IH]; simpl; [done|].
  intros [Hx Hw]%andb_true_iff. unfold notquote at 1.
  by rewrite (space_not_quote _ Hx), IH.
Qed.

Lemma is_sep_intro w1 w2 :
  forallb unicode_space w1 = true -> forallb unicode_space w2 = true ->
  is_sep (w1 ++ COLON :: w2) = true.
Proof.
  intros H1 H2. induction w1 as [|x w1 IH]; simpl in *.
  - unfold is_sep. simpl. done.
  - apply andb_true_iff in H1 as [Hx H1]. rewrite is_sep_space by done. by apply IH.
Qed.

Lemma is_sep_inv sp :
  is_sep sp = true ->
  exists w1 w2, sp = w1 ++ COLON :: w2
    /\ forallb unicode_space w1 = true /\ forallb unicode_space w2 = true.
Proof.
  induction sp as [|x sp IH]; [done|].
  destruct (unicode_space x) eqn:Hx.
  - rewrite is_sep_space by done. intros (w1 & w2 & -> & H1 & H2)%IH.
    exists (x :: w1), w2. simpl. by rewrite Hx.
  - unfold is_sep. simpl. rewrite Hx.
    intros [->%N.eqb_eq H2]%andb_true_iff. by exists [], sp.
Qed.

(** A field, as the patterns describe it. *)
Lemma field_at_head key s k v rest :
  forallb notquote (of_string key) = true ->
  field_at NOFLAGS key s = Some (k, v, rest)
  <-> field_head key k /\ forallb notquote v = true /\ s = k ++ v ++ QUOTE :: rest.
Proof.
  intros Hkey. split.
  - intros (b & sp & -> & -> & Hb & Hsp & _ & _ & Hv)%field_at_inv.
    apply lit_eq_noflags in Hb as ->.
    apply is_sep_inv in Hsp as (w1 & w2 & -> & H1 & H2).
    split_and!; [|done|done].
    exists w1, w2. split_and!; [|done|done].
    unfold quoted. by norm_app.
  - intros ((w1 & w2 & -> & H1 & H2) & Hv & ->).
    replace (quoted key ++ w1 ++ COLON :: w2 ++ [QUOTE])
      with (QUOTE :: of_string key ++ QUOTE :: (w1 ++ COLON :: w2) ++ [QUOTE])
      by (unfold quoted; by norm_app).
    apply field_at_intro; try done.
    + by apply lit_eq_noflags.
    + by apply is_sep_intro.
    + rewrite forallb_app. simpl. by rewrite !forallb_space_notquote.
Qed.

Lemma quote_escape_id v : forallb notquote v = true -> quote_escape v = v.
Proof.
  induction v as [|c v IH]; [done|]. cbn [forallb]. unfold notquote at 1.
  intros [Hc Hv]%andb_true_iff. apply negb_true_iff in Hc.
  rewrite quote_escape_cons, Hc, IH by done. done.
Qed.

Lemma patch_spec key c v content :
  key_wf NOFLAGS key = true -> ascii_digit c = false ->
  exists out,
    patch content key (Some (c :: v))
      = Ok (out, found NOFLAGS (field_test key) content)
    /\ replaced key (quote_escape (c :: v)) content out
    /\ (found NOFLAGS (field_test key) content = false -> out = content).
Proof.
  intros Hwf Hc. unfold patch. rewrite update_field_spec by done.
  rewrite found_field_test by done. cbn [fst].
  pose proof (sub_go_replaced key (quote_escape (c :: v)) content Hwf) as Hrep.
  destruct (find_field NOFLAGS key content) eqn:E.
  - eexists. split_and!; [done|exact Hrep|done].
  - exists content. split_and!; [done| |done].
    clear Hrep. unfold find_field in E.
    induction content as [|x s IH]; [constructor|].
    rewrite all_values_cons in E.
    destruct (field_at NOFLAGS key (x :: s)) as [[[]]|] eqn:E'; [done|].
    constructor; [done|]. by apply IH.
Qed.


(** ** Comments, extraction and classification *)

Lemma strip_comments_Ok content :
  strip_comments content
  = Ok (sub_go MULTILINE line_comment [] 0 (sub_go DOTALL block_comment [] 0 content)).
Proof. reflexivity. Qed.

Lemma extract_Ok content :
  extract content
  = Ok (extract_fields
          (sub_go MULTILINE line_comment [] 0 (sub_go DOTALL block_comment [] 0 content))).
Proof. reflexivity. Qed.

Lemma find_field_span fl key s v :
  find_field fl key s = Some v ->
  exists pre k rest, s = pre ++ k ++ v ++ QUOTE :: rest
                     /\ field_at fl key (k ++ v ++ QUOTE :: rest) = Some (k, v, rest).
Proof.
  unfold find_field. induction s as [|c s IH]; [by change (all_values fl key []) with (@nil (list N))|].
  rewrite all_values_cons.
  destruct (field_at fl key (c :: s)) as [[[k v'] rest]|] eqn:E.
  - intros [= <-]. exists [], k, rest.
    pose proof (field_at_decomp _ _ _ _ _ _ E) as Hs. simpl. by rewrite <- Hs.
  - intros (pre & k & rest & -> & H)%IH. by exists (c :: pre), k, rest.
Qed.

Lemma found_chinese s :
  found NOFLAGS chinese_pattern s = existsb (in_range 19968 40959) s.
Proof.
  unfold found. induction s as [|x s IH]; [done|].
  cbn [search existsb]. unfold match_here at 1, chinese_pattern at 1. cbn [rmatch].
  unfold cset_mem. destruct (in_range 19968 40959 x); [done|].
  simpl. rewrite <- IH. by destruct (search NOFLAGS chinese_pattern s) as [[[]]|].
Qed.

Lemma is_chinese_spec name description :
  is_chinese name description = true <-> has_chinese name \/ has_chinese description.
Proof.
  assert (forall v, truthy v && found NOFLAGS chinese_pattern (default [] v) = true
                    <-> has_chinese v) as H.
  { intros v. rewrite found_chinese. unfold has_chinese. split.
    - intros [Ht (c & Hin & Hc)%existsb_exists]%andb_true_iff.
      destruct v as [s|]; [|done]. exists s, c. split; [done|]. split; [done|].
      unfold in_range in Hc. apply andb_true_iff in Hc as [H1 H2].
      apply N.leb_le in H1, H2. done.
    - intros (s & c & -> & Hin & H1 & H2). apply andb_true_iff. split.
      + by destruct s.
      + apply existsb_exists. exists c. split; [done|]. unfold in_range.
        apply andb_true_iff. split; by apply N.leb_le. }
  unfold is_chinese. rewrite orb_true_iff, !H. done.
Qed.

Lemma process_manifest_spec m :
  process_manifest m =
  match read_manifest (mf_file m) with
  | Raise e => Raise e
  | Ok content =>
      match extract content with
      | Raise e => Raise e
      | Ok f =>
          if truthy (f_name f) || truthy (f_description f)
          then Ok (Some (record_of m f)) else Ok None
      end
  end.
Proof.
  unfold process_manifest. destruct (read_manifest (mf_file m)); [|done].
  cbn [bind]. by destruct (extract a).
Qed.

(** ** Decoding *)

Lemma utf8_decode_raise n : forall bs e,
  (length bs <= n)%nat -> utf8_decode bs = Raise e -> e = UnicodeDecodeError.
Proof.
  induction n as [|n IH]; intros bs e Hn.
  - destruct bs; [done | simpl in Hn; lia].
  - destruct bs as [|b0 r1]; [done|]. cbn [utf8_decode].
    assert (forall r c, (length r <= n)%nat ->
              bind (utf8_decode r) (fun l => Ok (c :: l)) = Raise e ->
              e = UnicodeDecodeError) as Hrec.
    { intros r c Hr. destruct (utf8_decode r) eqn:E; [done|].
      intros [= <-]. by eapply IH. }
    simpl in Hn.
    repeat match goal with
    | |- Ok _ = Raise _ -> _ => discriminate
    | |- Raise _ = Raise _ -> _ => by intros [= <-]
    | |- bind _ _ = Raise _ -> _ => apply Hrec; simpl in *; lia
    | |- context [if ?b then _ else _] => destruct b
    | |- context [match ?l with [] => _ | _ :: _ => _ end] =>
        is_var l; destruct l; simpl in Hn
    end.
Qed.

Lemma utf8_sig_decode_raise bs e :
  utf8_sig_decode bs = Raise e -> e = UnicodeDecodeError.
Proof.
  unfold utf8_sig_decode.
  repeat match goal with
  | |- Ok _ = Raise _ -> _ => discriminate
  | |- utf8_decode ?l = Raise _ -> _ => apply (utf8_decode_raise (length l)); lia
  | |- context [match ?l with [] => _ | _ :: _ => _ end] => destruct l
  | |- context [match ?n with N0 => _ | Npos _ => _ end] => destruct n
  | |- context [match ?p with xH => _ | xO _ => _ | xI _ => _ end] => destruct p
  end.
Qed.

Lemma decode_manifest_spec bs :
  decode_manifest bs =
  Ok match utf8_decode (bytes_to_N bs) with
     | Ok t => t
     | Raise _ =>
         match utf8_sig_decode (bytes_to_N bs) with
         | Ok t => t
         | Raise _ => latin1_decode (bytes_to_N bs)
         end
     end.
Proof.
  unfold decode_manifest.
  destruct (utf8_decode (bytes_to_N bs)) as [t|e] eqn:E1; [done|].
  rewrite (utf8_decode_raise _ _ _ (le_n _) E1).
  destruct (utf8_sig_decode (bytes_to_N bs)) as [t|e'] eqn:E2; [done|].
  by rewrite (utf8_sig_decode_raise _ _ E2).
Qed.


(** ** Texts without comments *)

Lemma no_pair_cons x ys c s :
  no_pair x ys (c :: s) =
  negb ((c =? x) && match s with c' :: _ => existsb (N.eqb c') ys | [] => false end)
  && no_pair x ys s.
Proof. reflexivity. Qed.

Lemma no_pair_suffix x ys a b : no_pair x ys (a ++ b) = true -> no_pair x ys b = true.
Proof.
  induction a as [|c a IH]; [done|]. cbn [app]. rewrite no_pair_cons.
  intros [_ H]%andb_true_iff. by apply IH.
Qed.

Lemma sub_go_no_match fl r t s :
  (forall pre suf, s = pre ++ suf -> match_here fl r suf = None) ->
  sub_go fl r t 0 s = s.
Proof.
  induction s as [|c s IH]; intros H.
  - apply sub_go_nil. by apply (H [] []).
  - rewrite sub_go_miss by (by apply (H [] (c :: s))). f_equal. apply IH.
    intros pre suf ->. by apply (H (c :: pre) suf).
Qed.

Lemma match_block_comment_head s r :
  match_here DOTALL block_comment s = Some r -> exists t, s = SLASH :: ASTERISK :: t.
Proof.
  unfold match_here, block_comment. cbn [rmatch Lit of_string map list_ascii_of_string].
  destruct s as [|x [|y t]]; unfold cset_mem; cbn [ignorecase DOTALL].
  - done.
  - by destruct (x =? _).
  - destruct (N.eqb_spec x (N_of_ascii "/")) as [->|]; [|done].
    destruct (N.eqb_spec y (N_of_ascii "*")) as [->|]; [|done].
    intros _. by exists t.
Qed.

Lemma match_line_comment_head s r :
  match_here MULTILINE line_comment s = Some r -> exists t, s = SLASH :: SLASH :: t.
Proof.
  unfold match_here, line_comment. cbn [rmatch Lit of_string map list_ascii_of_string].
  destruct s as [|x [|y t]]; unfold cset_mem; cbn [ignorecase MULTILINE].
  - done.
  - by destruct (x =? _).
  - destruct (N.eqb_spec x (N_of_ascii "/")) as [->|]; [|done].
    destruct (N.eqb_spec y (N_of_ascii "/")) as [->|]; [|done].
    intros _. by exists t.
Qed.

Lemma no_pair_head x ys y t :
  In y ys -> no_pair x ys (x :: y :: t) = false.
Proof.
  intros Hy. rewrite no_pair_cons. rewrite N.eqb_refl.
  assert (existsb (N.eqb y) ys = true) as ->; [|done].
  apply existsb_exists. exists y. split; [done|]. apply N.eqb_refl.
Qed.

Lemma block_pass_id s :
  no_pair SLASH [ASTERISK] s = true -> sub_go DOTALL block_comment [] 0 s = s.
Proof.
  intros H. apply sub_go_no_match. intros pre suf ->.
  destruct (match_here DOTALL block_comment suf) eqn:E; [|done].
  apply match_block_comment_head in E as [t ->].
  apply no_pair_suffix in H. rewrite no_pair_head in H; [done | by left].
Qed.

Lemma line_pass_id s :
  no_pair SLASH [SLASH] s = true -> sub_go MULTILINE line_comment [] 0 s = s.
Proof.
  intros H. apply sub_go_no_match. intros pre suf ->.
  destruct (match_here MULTILINE line_comment suf) eqn:E; [|done].
  apply match_line_comment_head in E as [t ->].
  apply no_pair_suffix in H. rewrite no_pair_head in H; [done | by left].
Qed.

Lemma no_pair_weaken x ys ys' s :
  (forall y, In y ys' -> In y ys) -> no_pair x ys s = true -> no_pair x ys' s = true.
Proof.
  intros Hsub. induction s as [|c s IH]; [done|]. rewrite !no_pair_cons.
  intros [H1 H2]%andb_true_iff. rewrite IH by done. rewrite andb_true_r.
  destruct (c =? x); [|done]. destruct s as [|c' s]; [done|].
  simpl in *. apply negb_true_iff in H1. apply negb_true_iff.
  destruct (existsb (N.eqb c') ys') eqn:E; [|done].
  apply existsb_exists in E as (y & Hy & Hc).
  rewrite <- H1. symmetry. apply existsb_exists. exists y. split; [by apply Hsub | done].
Qed.

(** A text that opens no comment is its own text without comments. *)
Lemma strip_comments_id s : no_opener s = true -> strip_comments s = Ok s.
Proof.
  intros H. rewrite strip_comments_Ok. f_equal.
  rewrite block_pass_id.
  - apply line_pass_id. revert H. apply no_pair_weaken. intros y [<-|[]]. by left.
  - revert H. apply no_pair_weaken. intros y [<-|[]]. right. by left.
Qed.

(** Freedom from comment openers splits at a double quote. *)
Lemma no_opener_app_quote a b :
  no_opener (a ++ QUOTE :: b) = no_opener a && no_opener b.
Proof.
  unfold no_opener. induction a as [|x a IH].
  - cbn [app]. rewrite no_pair_cons. done.
  - cbn [app]. rewrite !no_pair_cons, IH.
    destruct a as [|y a]; cbn [app].
    + cbn [existsb]. change (QUOTE =? SLASH) with false.
      change (QUOTE =? ASTERISK) with false. cbn [orb].
      rewrite !andb_false_r. done.
    + by rewrite andb_assoc.
Qed.

Lemma replaced_head key w s out : replaced key w s out -> head out = head s.
Proof.
  induction 1 as [|c s out Hnone Hrep IH|s k v rest out Hfield Hrep IH]; try done.
  by apply field_at_inv in Hfield as (b & sp & -> & -> & _).
Qed.

Lemma replaced_no_opener key w s out :
  no_opener w = true -> replaced key w s out ->
  no_opener s = true -> no_opener out = true.
Proof.
  intros Hw. induction 1 as [|c s out Hnone Hrep IH|s k v rest out Hfield Hrep IH].
  - done.
  - unfold no_opener in *. rewrite !no_pair_cons.
    intros [H1 H2]%andb_true_iff. rewrite IH by done. rewrite andb_true_r.
    pose proof (replaced_head _ _ _ _ Hrep) as Hh.
    destruct s as [|c1 s], out as [|c2 out]; try done. by injection Hh as ->.
  - apply field_at_inv in Hfield as (b & sp & -> & -> & _).
    replace ((QUOTE :: b ++ QUOTE :: sp ++ [QUOTE]) ++ v ++ QUOTE :: rest)
      with ((QUOTE :: b ++ QUOTE :: sp) ++ QUOTE :: v ++ QUOTE :: rest) by (by norm_app).
    replace ((QUOTE :: b ++ QUOTE :: sp ++ [QUOTE]) ++ w ++ QUOTE :: out)
      with ((QUOTE :: b ++ QUOTE :: sp) ++ QUOTE :: w ++ QUOTE :: out) by (by norm_app).
    rewrite !no_opener_app_quote.
    intros [H1 [H2 H3]%andb_true_iff]%andb_true_iff.
    by rewrite H1, Hw, IH.
Qed.


(** ** A line comment is removed wherever it stands *)

Lemma rep_lazy_to_end {A} p b (k : str -> option A) :
  forallb p b = true ->
  (forall x s, k (x :: s) = None \/ p x = false) ->
  rep_lazy p b k = k [].
Proof.
  intros Hb Hk. induction b as [|x b IH]; simpl.
  - by destruct (k []).
  - simpl in Hb. apply andb_true_iff in Hb as [Hx Hb].
    destruct (Hk x b) as [-> | E]; [|congruence]. rewrite Hx. by apply IH.
Qed.

Lemma match_line_comment_run b :
  forallb (fun c => negb (c =? NEWLINE)) b = true ->
  match_here MULTILINE line_comment (SLASH :: SLASH :: b) = Some ([], []).
Proof.
  intros Hb. unfold match_here, line_comment.
  cbn [rmatch Lit of_string map list_ascii_of_string Lazy].
  change (cset_mem MULTILINE (CChar (N_of_ascii "/")) SLASH) with true. cbv iota.
  rewrite rep_lazy_to_end; [done| |].
  - unfold cset_mem. cbn [dotall MULTILINE orb]. done.
  - intros x s. unfold cset_mem. cbn [dotall MULTILINE orb at_eol multiline].
    destruct (x =? NEWLINE); [by right | by left].
Qed.

Lemma line_pass_prefix a b :
  no_pair SLASH [SLASH] (a ++ [SLASH]) = true ->
  sub_go MULTILINE line_comment [] 0 (a ++ SLASH :: SLASH :: b)
  = a ++ sub_go MULTILINE line_comment [] 0 (SLASH :: SLASH :: b).
Proof.
  induction a as [|x a IH]; [done|]. cbn [app]. rewrite no_pair_cons.
  intros [H1 H2]%andb_true_iff.
  rewrite sub_go_miss; [by rewrite IH|].
  destruct (match_here MULTILINE line_comment (x :: a ++ SLASH :: SLASH :: b)) eqn:E; [|done].
  apply match_line_comment_head in E as [t E]. exfalso.
  destruct a as [|y a]; cbn [app] in *.
  - injection E as -> _. done.
  - injection E as -> -> _. done.
Qed.

Lemma line_comment_removed a b :
  no_pair SLASH [ASTERISK] (a ++ SLASH :: SLASH :: b) = true ->
  no_pair SLASH [SLASH] (a ++ [SLASH]) = true ->
  forallb (fun c => negb (c =? NEWLINE)) b = true ->
  strip_comments (a ++ SLASH :: SLASH :: b) = Ok a.
Proof.
  intros Hblock Hline Hb. rewrite strip_comments_Ok. f_equal.
  rewrite block_pass_id by done. rewrite line_pass_prefix by done.
  rewrite (sub_go_hit _ _ _ _ [] (SLASH :: SLASH :: b) []).
  - simpl. by rewrite app_nil_r.
  - rewrite app_nil_r. by apply match_line_comment_run.
  - done.
  - by rewrite app_nil_r.
Qed.


(** ** The update keys *)

Lemma toks_cons {R} (tok : str -> option R) c s :
  toks tok (c :: s) =
  match tok (c :: s) with Some r => [r] | None => [] end ++ toks tok s.
Proof. reflexivity. Qed.

Lemma toks_nil {R} (tok : str -> option R) :
  toks tok [] = match tok [] with Some r => [r] | None => [] end.
Proof. simpl. by rewrite app_nil_r. Qed.

(** [re.search] with a scanner in the place of the pattern. *)
Lemma search_toks fl r (tok : str -> option str) s :
  (forall s, match match_here fl r s with
             | Some (g, _) => Some (group g 1)
             | None => None
             end = match tok s with Some v => Some (Some v) | None => None end) ->
  group1 (search fl r s) = head (toks tok s).
Proof.
  intros H. induction s as [|c s IH].
  - cbn [search]. rewrite toks_nil. specialize (H []).
    destruct (match_here fl r []) as [[g rest]|], (tok []); try done.
    injection H as H. cbn. by rewrite H.
  - cbn [search]. rewrite toks_cons. specialize (H (c :: s)).
    destruct (match_here fl r (c :: s)) as [[g rest]|], (tok (c :: s)); try done.
    + injection H as H. cbn. by rewrite H.
    + cbn [app]. rewrite <- IH. by destruct (search fl r s) as [[[]]|].
Qed.

Lemma rmatch_Lit_strip {A} fl l (R : regex) s g (k : str -> groups -> option A) :
  rmatch fl (Lit l ;; R)%re s g k =
  match lit_strip fl l s with
  | Some s' => rmatch fl R s' g k
  | None => None
  end.
Proof.
  revert s. induction l as [|c l IH]; intros s; [done|].
  cbn [Lit rmatch lit_strip]. destruct s as [|x s]; [done|].
  destruct (cset_mem fl (CChar c) x); [|done]. apply IH.
Qed.

Lemma digits_then_quote s :
  match skipw unicode_decimal s with
  | y :: _ => if y =? QUOTE then Some (run unicode_decimal s) else None
  | [] => None
  end =
  match split_quote s with
  | Some (b, _) => if forallb unicode_decimal b then Some b else None
  | None => None
  end.
Proof.
  induction s as [|x s IH]; [done|]. cbn [skipw run split_quote].
  destruct (unicode_decimal x) eqn:Hx.
  - assert ((x =? QUOTE) = false) as ->
      by (destruct (N.eqb_spec x QUOTE) as [->|]; [by vm_compute in Hx | done]).
    destruct (split_quote s) as [[b r]|].
    + cbn [forallb]. rewrite Hx. cbn [andb].
      destruct (skipw unicode_decimal s) as [|y t]; [by destruct (forallb _ b)|].
      destruct (y =? QUOTE), (forallb unicode_decimal b); congruence.
    + destruct (skipw unicode_decimal s) as [|y t]; [done|]. by destruct (y =? QUOTE).
  - destruct (x =? QUOTE); [done|].
    destruct (split_quote s) as [[b r]|]; [|done]. cbn [forallb]. by rewrite Hx.
Qed.

Lemma lit_strip_segment {B} l (G : str -> option B) (H : str -> option B) :
  forallb notquote l = true ->
  (forall s, G s = match split_quote s with Some (b, _) => H b | None => None end) ->
  forall s,
  match lit_strip NOFLAGS l s with Some s1 => G s1 | None => None end =
  match split_quote s with
  | Some (b, _) => match lit_strip NOFLAGS l b with Some ds => H ds | None => None end
  | None => None
  end.
Proof.
  intros Hl HG. induction l as [|c l IH]; intros s.
  - cbn [lit_strip]. rewrite HG. by destruct (split_quote s) as [[]|].
  - cbn [forallb] in Hl. apply andb_true_iff in Hl as [Hc Hl].
    unfold notquote in Hc. apply negb_true_iff in Hc.
    cbn [lit_strip]. destruct s as [|x s]; [done|]. cbn [split_quote].
    unfold cset_mem. cbn [ignorecase NOFLAGS].
    destruct (N.eqb_spec x QUOTE) as [->|Hx].
    + rewrite N.eqb_sym, Hc. done.
    + destruct (x =? c) eqn:Hxc.
      * rewrite IH by done. destruct (split_quote s) as [[b r]|]; [|done].
        cbn [lit_strip]. unfold cset_mem. cbn [ignorecase NOFLAGS]. by rewrite Hxc.
      * destruct (split_quote s) as [[b r]|]; [|done].
        cbn [lit_strip]. unfold cset_mem. cbn [ignorecase NOFLAGS]. by rewrite Hxc.
Qed.

Lemma decimal_not_quote x : unicode_decimal x = true -> (x =? QUOTE) = false.
Proof.
  intros Hx. destruct (N.eqb_spec x QUOTE) as [->|]; [by vm_compute in Hx | done].
Qed.

Lemma match_nexus_pattern s :
  match match_here NOFLAGS nexus_pattern s with
  | Some (g, _) => Some (group g 1)
  | None => None
  end = match nexus_at s with Some ds => Some (Some ds) | None => None end.
Proof.
  unfold match_here, nexus_pattern. rewrite rmatch_Lit_strip.
  cbn [lit_strip]. unfold nexus_at. destruct s as [|c s0]; [done|].
  rewrite cset_quote. destruct (c =? QUOTE); [|done].
  transitivity
    (match split_quote s0 with
     | Some (b, _) =>
         match lit_strip NOFLAGS (of_string "Nexus:") b with
         | Some ds =>
             if forallb unicode_decimal ds
                && negb (match ds with [] => true | _ => false end)
             then Some (Some ds) else None
         | None => None
         end
     | None => None
     end).
  2:{ unfold nexus_id. destruct (split_quote s0) as [[b r]|]; [|done].
      destruct (lit_strip NOFLAGS (of_string "Nexus:") b); [|done].
      by destruct (_ && _). }
  rewrite <- (lit_strip_segment (of_string "Nexus:")
    (fun s1 => match skipw unicode_decimal s1 with
               | y :: _ =>
                   if y =? QUOTE then
                     if negb (match run unicode_decimal s1 with [] => true | _ => false end)
                     then Some (Some (run unicode_decimal s1)) else None
                   else None
               | [] => None
               end)
    (fun ds => if forallb unicode_decimal ds
                  && negb (match ds with [] => true | _ => false end)
               then Some (Some ds) else None)); [|done|].
  - destruct (lit_strip NOFLAGS (of_string "Nexus:") s0) as [s1|]; [|done].
    cbn [rmatch Plus]. destruct s1 as [|x s1']; [done|].
    change (cset_mem NOFLAGS CDigit) with unicode_decimal.
    cbn [skipw run]. destruct (unicode_decimal x) eqn:Hx.
    + rewrite rep_greedy_skipw.
      2:{ intros y t Hy. rewrite cset_quote. by rewrite decimal_not_quote. }
      destruct (skipw unicode_decimal s1') as [|y t] eqn:E; [done|].
      rewrite cset_quote. destruct (y =? QUOTE); [|done]. cbn [group Nat.eqb negb].
      do 2 f_equal. rewrite <- E.
      change (x :: s1') with ([x] ++ s1'). rewrite length_app.
      replace (length [x] + length s1' - length (skipw unicode_decimal s1'))%nat
        with (length [x] + (length s1' - length (skipw unicode_decimal s1')))%nat.
      2:{ pose proof (run_skipw unicode_decimal s1') as Hrs.
          apply (f_equal length) in Hrs. rewrite length_app in Hrs. lia. }
      rewrite take_app_add. by rewrite take_run.
    + destruct (x =? QUOTE); done.
  - intros t. pose proof (digits_then_quote t) as Hd.
    destruct (skipw unicode_decimal t) as [|y r].
    + destruct (split_quote t) as [[b r']|]; [|done].
      destruct (forallb unicode_decimal b); [done|done].
    + destruct (y =? QUOTE).
      * destruct (split_quote t) as [[b r']|]; [|done].
        destruct (forallb unicode_decimal b); [|done]. by injection Hd as ->.
      * destruct (split_quote t) as [[b r']|]; [|done].
        by destruct (forallb unicode_decimal b).
Qed.


Lemma split_on_inv d s a r :
  split_on d s = Some (a, r) ->
  s = a ++ d :: r /\ forallb (fun c => negb (c =? d)) a = true.
Proof.
  revert a. induction s as [|x s IH]; intros a; simpl; [done|].
  destruct (N.eqb_spec x d) as [->|Hx].
  - by intros [= <- <-].
  - destruct (split_on d s) as [[a' r']|]; [|done].
    intros [= <- <-]. destruct (IH a' eq_refl) as [-> Ha']. simpl. split; [done|].
    apply N.eqb_neq in Hx. by rewrite Hx.
Qed.

Lemma split_on_app d a r :
  forallb (fun c => negb (c =? d)) a = true -> split_on d (a ++ d :: r) = Some (a, r).
Proof.
  induction a as [|x a IH]; simpl; [by rewrite N.eqb_refl|].
  intros [Hx Ha]%andb_true_iff. apply negb_true_iff in Hx. by rewrite Hx, IH.
Qed.

Lemma split_on_None d s :
  split_on d s = None <-> forallb (fun c => negb (c =? d)) s = true.
Proof.
  induction s as [|x s IH]; simpl; [done|].
  destruct (x =? d); simpl; [done|].
  rewrite <- IH. by destruct (split_on d s) as [[]|].
Qed.

Lemma rep_lazy_split {A} p d s (K : str -> str -> A) :
  (forall x, p x = true) ->
  rep_lazy p s (fun s' => match s' with
                          | x :: s'' => if x =? d then Some (K s' s'') else None
                          | [] => None
                          end) =
  match split_on d s with
  | Some (_, r) => Some (K (d :: r) r)
  | None => None
  end.
Proof.
  intros Hp. induction s as [|x s IH]; [done|]. cbn [rep_lazy split_on].
  destruct (N.eqb_spec x d) as [->|]; [done|].
  rewrite Hp, IH. by destruct (split_on d s) as [[]|].
Qed.

Lemma rmatch_star_char {A} fl c d (R : regex) s g (k : str -> groups -> option A) :
  (forall x, cset_mem fl c x = true -> cset_mem fl (CChar d) x = false) ->
  rmatch fl (Star c ;; One (CChar d) ;; R)%re s g k =
  match skipw (cset_mem fl c) s with
  | x :: s' => if cset_mem fl (CChar d) x then rmatch fl R s' g k else None
  | [] => None
  end.
Proof.
  intros H. cbn [rmatch Star]. rewrite rep_greedy_skipw; [done|].
  intros x s' Hx. by rewrite H.
Qed.

Lemma cset_char_noflags fl d x :
  ignorecase fl = false -> cset_mem fl (CChar d) x = (x =? d).
Proof. unfold cset_mem. by intros ->. Qed.

Lemma take_split_on d s a r :
  split_on d s = Some (a, r) -> take (length s - length (d :: r)) s = a.
Proof.
  intros [-> _]%split_on_inv. rewrite length_app.
  replace (length a + length (d :: r) - length (d :: r))%nat with (length a) by lia.
  by rewrite take_app_length.
Qed.

Lemma match_updatekeys_pattern s :
  match match_here DOTALL updatekeys_pattern s with
  | Some (g, _) => Some (group g 1)
  | None => None
  end = match uk_at s with Some cap => Some (Some cap) | None => None end.
Proof.
  unfold match_here, updatekeys_pattern, uk_at.
  rewrite rmatch_quoted_key by reflexivity.
  destruct s as [|c s0]; [done|]. destruct (c =? QUOTE); [|done].
  destruct (split_quote s0) as [[b s1]|]; [|done].
  destruct (lit_eq DOTALL (of_string "UpdateKeys") b); [|done].
  rewrite rmatch_star_char.
  2:{ intros x Hx. rewrite cset_colon. by apply space_not_colon. }
  change (cset_mem DOTALL CSpace) with unicode_space.
  destruct (skipw unicode_space s1) as [|x s2]; [done|].
  rewrite cset_colon. destruct (x =? COLON); [|done].
  rewrite rmatch_star_char.
  2:{ intros y Hy. rewrite cset_char_noflags by done.
      destruct (N.eqb_spec y LBRACKET) as [->|]; [by vm_compute in Hy | done]. }
  change (cset_mem DOTALL CSpace) with unicode_space.
  destruct (skipw unicode_space s2) as [|y s3]; [done|].
  rewrite cset_char_noflags by done. destruct (y =? LBRACKET); [|done].
  cbn [rmatch Lazy].
  etrans.
  { apply (f_equal (fun o : option (groups * str) =>
                      match o with Some (g, _) => Some (group g 1) | None => None end)).
    apply (rep_lazy_split (cset_mem DOTALL CDot) RBRACKET s3
      (fun s' s'' => ([(1%nat, take (length s3 - length s') s3)], s''))).
    done. }
  destruct (split_on RBRACKET s3) as [[cap r]|] eqn:E; [|done].
  cbn [group Nat.eqb]. by rewrite (take_split_on _ _ _ _ E).
Qed.

Lemma extract_nurl_toks s :
  extract_nurl s =
  match head (toks uk_nexus_at s) with
  | Some (Some id) => Some (NEXUS_URL ++ id)
  | _ => None
  end.
Proof.
  unfold extract_nurl.
  assert (forall t, match match_here DOTALL updatekeys_pattern t with
                    | Some (g, _) =>
                        Some match group g 1 with
                             | Some uk =>
                                 match group1 (search NOFLAGS nexus_pattern uk) with
                                 | Some id => Some (NEXUS_URL ++ id)
                                 | None => None
                                 end
                             | None => None
                             end
                    | None => None
                    end
                    = match uk_nexus_at t with
                      | Some (Some id) => Some (Some (NEXUS_URL ++ id))
                      | Some None => Some None
                      | None => None
                      end) as H.
  { intros t. pose proof (match_updatekeys_pattern t) as Hm. unfold uk_nexus_at.
    destruct (match_here DOTALL updatekeys_pattern t) as [[g rest]|], (uk_at t) as [cap|];
      try done.
    injection Hm as ->.
    rewrite (search_toks NOFLAGS nexus_pattern nexus_at cap match_nexus_pattern).
    by destruct (head (toks nexus_at cap)). }
  induction s as [|c s IH].
  - cbn [search]. rewrite toks_nil. specialize (H []).
    destruct (match_here DOTALL updatekeys_pattern []) as [[g rest]|],
      (uk_nexus_at []) as [[id|]|]; try done; apply (inj Some) in H; by rewrite H.
  - cbn [search]. rewrite toks_cons. specialize (H (c :: s)).
    destruct (match_here DOTALL updatekeys_pattern (c :: s)) as [[g rest]|],
      (uk_nexus_at (c :: s)) as [[id|]|]; try done;
      try (apply (inj Some) in H; by rewrite H).
    cbn [app]. rewrite <- IH.
    by destruct (search DOTALL updatekeys_pattern s) as [[[]]|].
Qed.


(** ** What a substitution cannot disturb *)

Lemma all_values_suffix fl key (P : str -> bool) a r :
  forallb P (all_values fl key (a ++ r)) = true ->
  forallb P (all_values fl key r) = true.
Proof.
  induction a as [|c a IH]; [done|]. cbn [app]. rewrite all_values_cons.
  rewrite forallb_app. intros [_ H]%andb_true_iff. by apply IH.
Qed.

Lemma all_values_head fl key (P : str -> bool) s k v rest :
  field_at fl key s = Some (k, v, rest) ->
  forallb P (all_values fl key s) = true -> P v = true.
Proof.
  intros E. destruct s as [|c s]; [by rewrite field_at_nil in E|].
  rewrite all_values_cons, E. cbn. by intros [H _]%andb_true_iff.
Qed.

Section NoInterference.
Context {R : Type}.
Variables (K : string) (w : str) (tok : str -> option R) (like P : str -> bool).
Hypothesis Hwq : forallb notquote w = true.
Hypothesis Hwl : like w = false.
Hypothesis tok_nonquote : forall c s, (c =? QUOTE) = false -> tok (c :: s) = None.
Hypothesis tok_like : forall b X,
  forallb notquote b = true -> like b = false -> tok (QUOTE :: b ++ QUOTE :: X) = None.
Hypothesis like_K : like (of_string K) = false.
Hypothesis like_sep : forall sp, is_sep sp = true -> like sp = false.
Hypothesis P_like : forall v, P v = true -> like v = false.
Hypothesis tok_stable : forall c s out,
  replaced K w s out -> forallb P (all_values NOFLAGS K s) = true ->
  tok (c :: out) = tok (c :: s).

Lemma toks_skip_nonquote a X :
  forallb notquote a = true -> toks tok (a ++ X) = toks tok (X).
Proof.
  induction a as [|c a IH]; [done|]. cbn [forallb app]. unfold notquote at 1.
  intros [Hc Ha]%andb_true_iff. apply negb_true_iff in Hc.
  rewrite toks_cons, tok_nonquote by done. by apply IH.
Qed.

Lemma toks_skip_segment b X :
  forallb notquote b = true -> like b = false ->
  toks tok (QUOTE :: b ++ QUOTE :: X) = toks tok (QUOTE :: X).
Proof.
  intros Hb Hl. rewrite toks_cons, tok_like by done. by apply toks_skip_nonquote.
Qed.

Lemma toks_skip_field b sp v X :
  forallb notquote b = true -> forallb notquote sp = true ->
  forallb notquote v = true ->
  like b = false -> like sp = false -> like v = false ->
  toks tok ((QUOTE :: b ++ QUOTE :: sp ++ [QUOTE]) ++ v ++ QUOTE :: X)
  = toks tok (QUOTE :: X).
Proof.
  intros Hb Hsp Hv Lb Lsp Lv.
  replace ((QUOTE :: b ++ QUOTE :: sp ++ [QUOTE]) ++ v ++ QUOTE :: X)
    with (QUOTE :: b ++ QUOTE :: sp ++ QUOTE :: v ++ QUOTE :: X) by (by norm_app).
  by rewrite !toks_skip_segment.
Qed.

Lemma toks_replaced s out :
  replaced K w s out -> forallb P (all_values NOFLAGS K s) = true ->
  toks tok out = toks tok s.
Proof.
  induction 1 as [|c s out Hnone Hrep IH|s k v rest out Hfield Hrep IH]; intros HP.
  - done.
  - assert (forallb P (all_values NOFLAGS K s) = true) as HP'
      by (by apply (all_values_suffix _ _ _ [c])).
    rewrite !toks_cons, IH by done. by rewrite (tok_stable c s out Hrep HP').
  - pose proof (all_values_head _ _ _ _ _ _ _ Hfield HP) as Hv.
    destruct (field_at_inv _ _ _ _ _ _ Hfield) as (b & sp & -> & -> & Hb & Hsp & Hqb & Hqsp & Hqv).
    apply lit_eq_noflags in Hb as ->.
    assert (forallb P (all_values NOFLAGS K rest) = true) as HP'.
    { apply (all_values_suffix _ _ _
               ((QUOTE :: of_string K ++ QUOTE :: sp ++ [QUOTE]) ++ v ++ [QUOTE])).
      revert HP. by norm_app. }
    rewrite !toks_skip_field by auto.
    rewrite !toks_cons, IH by done. by rewrite (tok_stable QUOTE rest out Hrep HP').
Qed.
End NoInterference.


(** *** The other fields *)

Lemma all_values_toks fl key s : all_values fl key s = toks (field_value fl key) s.
Proof.
  induction s as [|c s IH]; [reflexivity|].
  rewrite all_values_cons, toks_cons, IH. unfold field_value.
  by destruct (field_at fl key (c :: s)) as [[[]]|].
Qed.

Lemma lit_eq_char fl l a x r :
  lit_eq fl l (a ++ x :: r) = true -> exists c, In c l /\ cset_mem fl (CChar c) x = true.
Proof.
  revert a. induction l as [|c l IH]; intros a; [by destruct a|].
  destruct a as [|y a]; cbn [app lit_eq].
  - intros [H _]%andb_true_iff. exists c. split; [by left | done].
  - intros [_ H]%andb_true_iff. destruct (IH _ H) as (c' & Hin & Hc).
    exists c'. split; [by right | done].
Qed.

Lemma key_wf_colon fl key c :
  key_wf fl key = true -> In c (of_string key) -> cset_mem fl (CChar c) COLON = false.
Proof.
  unfold key_wf. intros [H _]%andb_true_iff Hin.
  rewrite forallb_forall in H. specialize (H c Hin).
  apply andb_true_iff in H as [[_ H]%andb_true_iff _]. by apply negb_true_iff.
Qed.

Lemma lit_eq_sep fl key sp :
  key_wf fl key = true -> is_sep sp = true -> lit_eq fl (of_string key) sp = false.
Proof.
  intros Hwf (w1 & w2 & -> & _)%is_sep_inv.
  destruct (lit_eq fl (of_string key) (w1 ++ COLON :: w2)) eqn:E; [|done].
  apply lit_eq_char in E as (c & Hin & Hc).
  by rewrite (key_wf_colon _ _ _ Hwf Hin) in Hc.
Qed.

Lemma field_value_nonquote fl key c s :
  (c =? QUOTE) = false -> field_value fl key (c :: s) = None.
Proof. intros H. unfold field_value. by rewrite field_at_nonquote. Qed.

Lemma field_value_mismatch fl key b X :
  forallb notquote b = true -> lit_eq fl (of_string key) b = false ->
  field_value fl key (QUOTE :: b ++ QUOTE :: X) = None.
Proof.
  intros Hb Hl. unfold field_value, field_at. cbn [N.eqb QUOTE Pos.eqb].
  rewrite split_quote_app by done.
  destruct (split_quote X) as [[sp s2]|]; [|done].
  destruct (split_quote s2) as [[v rest]|]; [|done]. by rewrite Hl.
Qed.

Lemma field_value_hv fl key s :
  field_value fl key s = match field_hv fl key s with Some (_, v) => Some v | None => None end.
Proof. unfold field_value, field_hv. by destruct (field_at fl key s) as [[[]]|]. Qed.

(** The values of another field are those of before. *)
Lemma field_values_replaced K fl G (P : str -> bool) w s out :
  key_wf fl G = true ->
  lit_eq fl (of_string G) (of_string K) = false ->
  (forall v, P v = true -> lit_eq fl (of_string G) v = false) ->
  forallb notquote w = true -> P w = true ->
  replaced K w s out -> forallb P (all_values NOFLAGS K s) = true ->
  all_values fl G out = all_values fl G s.
Proof.
  intros Hwf HK HP Hwq Hw Hrep Hall. rewrite !all_values_toks.
  apply (toks_replaced K w (field_value fl G) (lit_eq fl (of_string G)) P); try done.
  - by apply HP.
  - apply field_value_nonquote.
  - apply field_value_mismatch.
  - intros sp. by apply lit_eq_sep.
  - intros c s' out' Hrep' _. rewrite !field_value_hv.
    by rewrite (replaced_field_hv _ _ _ _ fl G c Hrep').
Qed.

Lemma plain_value_inv v :
  plain_value v = true ->
  lit_eq NOFLAGS (of_string "Name") v = false
  /\ lit_eq NOFLAGS (of_string "Description") v = false
  /\ lit_eq IGNORECASE (of_string "UniqueID") v = false
  /\ lit_eq DOTALL (of_string "UpdateKeys") v = false
  /\ nexus_id v = None
  /\ forallb (fun c => negb (c =? RBRACKET)) v = true.
Proof.
  unfold plain_value, key_like.
  intros [[H1 H2]%andb_true_iff H3]%andb_true_iff.
  apply negb_true_iff in H1, H2.
  apply orb_false_iff in H1 as [[[? ?]%orb_false_iff ?]%orb_false_iff ?].
  split_and!; try done. by destruct (nexus_id v).
Qed.


(** *** The Nexus tokens *)


Lemma nexus_at_nonquote c s : (c =? QUOTE) = false -> nexus_at (c :: s) = None.
Proof. intros H. unfold nexus_at. by rewrite H. Qed.

Lemma nexus_at_segment b X :
  forallb notquote b = true -> nexus_at (QUOTE :: b ++ QUOTE :: X) = nexus_id b.
Proof. intros Hb. unfold nexus_at. cbn [N.eqb QUOTE Pos.eqb]. by rewrite split_quote_app. Qed.

Lemma is_sep_head sp :
  is_sep sp = true ->
  exists x r, sp = x :: r /\ (unicode_space x = true \/ x = COLON).
Proof.
  intros (w1 & w2 & -> & H1 & _)%is_sep_inv. destruct w1 as [|x w1].
  - eexists _, _. split; [done|]. by right.
  - eexists _, _. split; [done|]. left. simpl in H1. by apply andb_true_iff in H1 as [? _].
Qed.

Lemma nexus_id_sep sp : is_sep sp = true -> nexus_id sp = None.
Proof.
  intros (x & r & -> & Hx)%is_sep_head. unfold nexus_id.
  replace (of_string "Nexus:") with [78; 101; 120; 117; 115; 58] by (by vm_compute).
  cbn [lit_strip]. unfold cset_mem at 1. cbn [ignorecase NOFLAGS].
  destruct (N.eqb_spec x 78) as [->|]; [|done].
  destruct Hx as [Hx | Hx]; [by vm_compute in Hx | done].
Qed.

Lemma segs_1 s :
  segs 1 s = match split_quote s with Some (b, _) => Some [b] | None => None end.
Proof. cbn [segs]. by destruct (split_quote s) as [[]|]. Qed.

Lemma replaced_first_segment key w s out :
  replaced key w s out ->
  match split_quote s with
  | Some (b, _) => exists r, split_quote out = Some (b, r)
  | None => split_quote out = None
  end.
Proof.
  intros H. pose proof (replaced_segs _ _ _ _ H 1 ltac:(lia)) as Hs.
  rewrite !segs_1 in Hs.
  destruct (split_quote s) as [[b r]|], (split_quote out) as [[b' r']|]; try done.
  injection Hs as ->. by exists r'.
Qed.

Lemma nexus_at_stable key w c s out :
  replaced key w s out -> nexus_at (c :: out) = nexus_at (c :: s).
Proof.
  intros H. unfold nexus_at. destruct (c =? QUOTE); [|done].
  pose proof (replaced_first_segment _ _ _ _ H) as Hs.
  destruct (split_quote s) as [[b r]|].
  - destruct Hs as [r' ->]. done.
  - by rewrite Hs.
Qed.

Lemma key_facts K :
  K = "Name"%string \/ K = "Description"%string ->
  key_wf NOFLAGS K = true
  /\ forallb notquote (of_string K) = true
  /\ key_like (of_string K) = true
  /\ nexus_id (of_string K) = None
  /\ lit_eq DOTALL (of_string "UpdateKeys") (of_string K) = false
  /\ forallb (fun c => negb (c =? RBRACKET)) (of_string K) = true
  /\ (forall X, match skipw unicode_space (of_string K ++ X) with
                | x :: _ => (x =? COLON) = false
                | [] => True
                end).
Proof. intros [-> | ->]; split_and!; try done; intros X; by cbn. Qed.

Lemma nexus_toks_replaced K w s out :
  K = "Name"%string \/ K = "Description"%string ->
  forallb notquote w = true -> plain_value w = true ->
  replaced K w s out -> forallb plain_value (all_values NOFLAGS K s) = true ->
  toks nexus_at out = toks nexus_at s.
Proof.
  intros HK Hwq Hw Hrep Hall.
  destruct (key_facts K HK) as (_ & _ & _ & HKn & _).
  apply (toks_replaced K w nexus_at nexus_like plain_value); try done.
  - apply plain_value_inv in Hw as (_ & _ & _ & _ & Hn & _). unfold nexus_like. by rewrite Hn.
  - apply nexus_at_nonquote.
  - intros b X Hb Hl. rewrite nexus_at_segment by done. unfold nexus_like in Hl.
    by destruct (nexus_id b).
  - unfold nexus_like. by rewrite HKn.
  - intros sp Hsp. unfold nexus_like. by rewrite nexus_id_sep.
  - intros v (_ & _ & _ & _ & Hn & _)%plain_value_inv. unfold nexus_like. by rewrite Hn.
  - intros c s' out' Hrep' _. by apply (nexus_at_stable K w).
Qed.


(** *** The update keys under a substitution *)

Lemma replaced_nil_inv key w out : replaced key w [] out -> out = [].
Proof.
  inversion 1 as [| |? ? ? ? ? Hf]; [done|]. by rewrite field_at_nil in Hf.
Qed.

Lemma replaced_peel_char key w x s out :
  (x =? QUOTE) = false -> replaced key w (x :: s) out ->
  exists out', out = x :: out' /\ replaced key w s out'.
Proof.
  intros Hx. inversion 1 as [|? ? out' Hn Hr|? ? ? ? ? Hf]; subst.
  - by exists out'.
  - by rewrite field_at_nonquote in Hf.
Qed.

Lemma replaced_skipw key w p s out :
  (forall x, p x = true -> (x =? QUOTE) = false) ->
  replaced key w s out -> replaced key w (skipw p s) (skipw p out).
Proof.
  intros Hp. induction 1 as [|c s out Hnone Hrep IH|s k v rest out Hfield Hrep IH].
  - constructor.
  - cbn [skipw]. destruct (p c); [done|]. by constructor.
  - destruct (field_at_inv _ _ _ _ _ _ Hfield) as (b & sp & Hk & Hs & _).
    destruct (p QUOTE) eqn:E; [by apply Hp in E|].
    assert (skipw p s = s) as -> by (rewrite Hs, Hk; cbn [app skipw]; by rewrite E).
    assert (skipw p (k ++ w ++ QUOTE :: out) = k ++ w ++ QUOTE :: out) as ->
      by (rewrite Hk; cbn [app skipw]; by rewrite E).
    by eapply replaced_hit.
Qed.

(** White space and a character that is not a quote: both texts have
    it, or neither. *)
Lemma replaced_expect key w p d s out :
  (forall x, p x = true -> (x =? QUOTE) = false) -> (d =? QUOTE) = false ->
  replaced key w s out ->
  match skipw p s with
  | x :: s2 =>
      if x =? d then exists out2, skipw p out = d :: out2 /\ replaced key w s2 out2
      else exists out2, skipw p out = x :: out2
  | [] => skipw p out = []
  end.
Proof.
  intros Hp Hd Hrep. pose proof (replaced_skipw _ _ p _ _ Hp Hrep) as H.
  destruct (skipw p s) as [|x s2].
  - by apply replaced_nil_inv in H.
  - destruct (N.eqb_spec x d) as [->|Hx].
    + by apply replaced_peel_char in H.
    + apply replaced_head in H. destruct (skipw p out) as [|y out2]; [done|].
      injection H as ->. by exists out2.
Qed.

Lemma field_at_app fl key s t k v rest :
  field_at fl key s = Some (k, v, rest) ->
  field_at fl key (s ++ t) = Some (k, v, rest ++ t).
Proof.
  intros (b & sp & -> & -> & Hb & Hsp & Hqb & Hqsp & Hqv)%field_at_inv.
  replace (((QUOTE :: b ++ QUOTE :: sp ++ [QUOTE]) ++ v ++ QUOTE :: rest) ++ t)
    with ((QUOTE :: b ++ QUOTE :: sp ++ [QUOTE]) ++ v ++ QUOTE :: rest ++ t)
    by (by norm_app).
  by apply field_at_intro.
Qed.

Lemma field_at_prefix_None fl key s t :
  field_at fl key (s ++ t) = None -> field_at fl key s = None.
Proof.
  intros H. destruct (field_at fl key s) as [[[k v] rest]|] eqn:E; [|done].
  by rewrite (field_at_app _ _ _ t _ _ _ E) in H.
Qed.

Lemma all_values_prefix fl key (P : str -> bool) a r :
  forallb P (all_values fl key (a ++ r)) = true ->
  forallb P (all_values fl key a) = true.
Proof.
  induction a as [|c a IH]; [done|]. cbn [app]. rewrite !all_values_cons, !forallb_app.
  intros [H1 H2]%andb_true_iff. rewrite IH by done. rewrite andb_true_r.
  destruct (field_at fl key (c :: a)) as [[[k v] rest]|] eqn:E; [|done].
  change (c :: a ++ r) with ((c :: a) ++ r) in H1.
  by rewrite (field_at_app _ _ _ r _ _ _ E) in H1.
Qed.

Lemma split_on_skip d x y :
  forallb (fun c => negb (c =? d)) x = true ->
  split_on d (x ++ y) =
  match split_on d y with Some (a, r) => Some (x ++ a, r) | None => None end.
Proof.
  induction x as [|c x IH]; cbn [app forallb split_on].
  - intros _. by destruct (split_on d y) as [[]|].
  - intros [Hc Hx]%andb_true_iff. apply negb_true_iff in Hc. rewrite Hc, IH by done.
    by destruct (split_on d y) as [[]|].
Qed.

Lemma is_sep_no_bracket sp :
  is_sep sp = true -> forallb (fun c => negb (c =? RBRACKET)) sp = true.
Proof.
  intros (w1 & w2 & -> & H1 & H2)%is_sep_inv. rewrite forallb_app. cbn [forallb].
  assert (forall l, forallb unicode_space l = true ->
                    forallb (fun c => negb (c =? RBRACKET)) l = true) as H.
  { induction l as [|x l IH]; [done|]. cbn [forallb].
    intros [Hx Hl]%andb_true_iff. rewrite IH by done.
    destruct (N.eqb_spec x RBRACKET) as [->|]; [by vm_compute in Hx | done]. }
  by rewrite !H.
Qed.

(** The text up to the first closing bracket is replaced in itself. *)
Lemma replaced_split_on K w s out :
  K = "Name"%string \/ K = "Description"%string ->
  plain_value w = true ->
  replaced K w s out -> forallb plain_value (all_values NOFLAGS K s) = true ->
  match split_on RBRACKET s with
  | Some (a, _) => exists a' r', split_on RBRACKET out = Some (a', r') /\ replaced K w a a'
  | None => split_on RBRACKET out = None
  end.
Proof.
  intros HK Hw. destruct (key_facts K HK) as (_ & _ & _ & _ & _ & HKb & _).
  apply plain_value_inv in Hw as (_ & _ & _ & _ & _ & Hwb).
  induction 1 as [|c s out Hnone Hrep IH|s k v rest out Hfield Hrep IH]; intros HP.
  - done.
  - assert (forallb plain_value (all_values NOFLAGS K s) = true) as HP'
      by (by apply (all_values_suffix _ _ _ [c])).
    specialize (IH HP'). cbn [split_on]. destruct (c =? RBRACKET).
    + exists [], out. split; [done | constructor].
    + destruct (split_on RBRACKET s) as [[a r]|] eqn:E.
      * destruct IH as (a' & r' & -> & Ha). exists (c :: a'), r'. split; [done|].
        constructor; [|done]. apply split_on_inv in E as [-> _].
        by apply (field_at_prefix_None _ _ (c :: a) (RBRACKET :: r)).
      * by rewrite IH.
  - pose proof (all_values_head _ _ _ _ _ _ _ Hfield HP) as Hv.
    apply plain_value_inv in Hv as (_ & _ & _ & _ & _ & Hvb).
    destruct (field_at_inv _ _ _ _ _ _ Hfield) as (b & sp & Hk & Hs & Hb & Hsp & Hqb & Hqsp & Hqv).
    apply lit_eq_noflags in Hb as ->.
    assert (forallb plain_value (all_values NOFLAGS K rest) = true) as HP'.
    { apply (all_values_suffix _ _ _ (k ++ v ++ [QUOTE])). revert HP. rewrite Hs. by norm_app. }
    specialize (IH HP').
    assert (forallb (fun c => negb (c =? RBRACKET)) k = true) as Hkb.
    { rewrite Hk. cbn [forallb]. rewrite forallb_app. cbn [forallb].
      rewrite forallb_app. cbn [forallb].
      rewrite HKb, (is_sep_no_bracket _ Hsp). done. }
    replace s with ((k ++ v ++ [QUOTE]) ++ rest) by (rewrite Hs; by norm_app).
    replace (k ++ w ++ QUOTE :: out) with ((k ++ w ++ [QUOTE]) ++ out) by (by norm_app).
    rewrite !split_on_skip by (rewrite !forallb_app; cbn [forallb]; by rewrite ?Hkb, ?Hvb, ?Hwb).
    destruct (split_on RBRACKET rest) as [[a r]|].
    + destruct IH as (a' & r' & -> & Ha). eexists _, _. split; [done|].
      replace ((k ++ v ++ [QUOTE]) ++ a) with (k ++ v ++ QUOTE :: a) by (by norm_app).
      replace ((k ++ w ++ [QUOTE]) ++ a') with (k ++ w ++ QUOTE :: a') by (by norm_app).
      eapply replaced_hit; [|done]. by eapply field_at_change.
    + by rewrite IH.
Qed.


Lemma replaced_split_quote key w s out :
  replaced key w s out ->
  match split_quote s with
  | Some (b, s1) =>
      exists out1, split_quote out = Some (b, out1)
                   /\ replaced key w (QUOTE :: s1) (QUOTE :: out1)
  | None => split_quote out = None
  end.
Proof.
  induction 1 as [|c s out Hnone Hrep IH|s k v rest out Hfield Hrep IH].
  - done.
  - cbn [split_quote]. destruct (N.eqb_spec c QUOTE) as [->|Hc].
    + exists out. split; [done|]. by constructor.
    + destruct (split_quote s) as [[b s1]|].
      * destruct IH as (out1 & -> & H1). by exists out1.
      * by rewrite IH.
  - destruct (field_at_inv _ _ _ _ _ _ Hfield) as (b & sp & Hk & Hs & _).
    pose proof (replaced_hit _ _ _ _ _ _ _ Hfield Hrep) as H.
    revert H. rewrite Hs, Hk. cbn [app split_quote N.eqb QUOTE Pos.eqb].
    intros H. eexists. split; [done|]. exact H.
Qed.

Lemma skipw_suffix p s : exists a, s = a ++ skipw p s.
Proof. exists (run p s). by rewrite run_skipw. Qed.

(** The update keys read at a place are those of before. *)
Lemma uk_nexus_stable K w c s out :
  K = "Name"%string \/ K = "Description"%string ->
  forallb notquote w = true -> plain_value w = true ->
  replaced K w s out -> forallb plain_value (all_values NOFLAGS K s) = true ->
  uk_nexus_at (c :: out) = uk_nexus_at (c :: s).
Proof.
  intros HK Hwq Hw Hrep HP.
  destruct (key_facts K HK) as (_ & _ & _ & _ & _ & _ & HKhead).
  unfold uk_nexus_at, uk_at. destruct (c =? QUOTE); [|done].
  pose proof (replaced_split_quote _ _ _ _ Hrep) as H1.
  destruct (split_quote s) as [[b s1]|] eqn:E1; [|by rewrite H1].
  destruct H1 as (out1 & -> & Hrep1).
  destruct (lit_eq DOTALL (of_string "UpdateKeys") b); [|done].
  apply split_quote_inv in E1 as [-> _].
  assert (forallb plain_value (all_values NOFLAGS K s1) = true) as HP1.
  { apply (all_values_suffix _ _ _ (b ++ [QUOTE])). revert HP. by norm_app. }
  inversion Hrep1 as [|? ? ? Hnone Hrep1' |? k v rest out' Hfield Hrep' Hs Hout]; subst.
  - (* the quote after the key is copied *)
    pose proof (replaced_expect K w unicode_space COLON s1 out1
                  space_not_quote eq_refl Hrep1') as H2.
    destruct (skipw_suffix unicode_space s1) as [a1 Ha1].
    destruct (skipw unicode_space s1) as [|x s2]; [by rewrite H2|].
    destruct (x =? COLON) eqn:Ex.
    2:{ destruct H2 as [out2 ->]. by rewrite Ex. }
    destruct H2 as (out2 & -> & Hrep2). change (COLON =? COLON) with true. cbv iota.
    assert (forallb plain_value (all_values NOFLAGS K s2) = true) as HP2.
    { apply (all_values_suffix _ _ _ (a1 ++ [x])). revert HP1. rewrite Ha1 at 1. by norm_app. }
    pose proof (replaced_expect K w unicode_space LBRACKET s2 out2
                  space_not_quote eq_refl Hrep2) as H3.
    destruct (skipw_suffix unicode_space s2) as [a2 Ha2].
    destruct (skipw unicode_space s2) as [|y s3]; [by rewrite H3|].
    destruct (y =? LBRACKET) eqn:Ey.
    2:{ destruct H3 as [out3 ->]. by rewrite Ey. }
    destruct H3 as (out3 & -> & Hrep3). change (LBRACKET =? LBRACKET) with true. cbv iota.
    assert (forallb plain_value (all_values NOFLAGS K s3) = true) as HP3.
    { apply (all_values_suffix _ _ _ (a2 ++ [y])). revert HP2. rewrite Ha2 at 1. by norm_app. }
    pose proof (replaced_split_on K w s3 out3 HK Hw Hrep3 HP3) as H4.
    destruct (split_on RBRACKET s3) as [[cap r]|] eqn:E4; [|by rewrite H4].
    destruct H4 as (cap' & r' & -> & Hcap). do 2 f_equal.
    apply (nexus_toks_replaced K w); try done.
    apply split_on_inv in E4 as [-> _]. by apply (all_values_prefix _ _ _ _ _ HP3).
  - (* the quote after the key opens a field of the patched key *)
    destruct (field_at_inv _ _ _ _ _ _ Hfield) as (b' & sp & -> & Hs' & Hb' & _).
    apply lit_eq_noflags in Hb' as ->.
    cbn [app] in Hs', Hout. injection Hs' as Hs'. injection Hout as Hout.
    rewrite Hs', <- Hout.
    pose proof (HKhead ((QUOTE :: sp ++ [QUOTE]) ++ v ++ QUOTE :: rest)) as Ha.
    pose proof (HKhead ((QUOTE :: sp ++ [QUOTE]) ++ w ++ QUOTE :: out')) as Hb.
    rewrite <- !app_assoc.
    destruct (skipw unicode_space (of_string K ++ _)) as [|x ?] in Ha |- *.
    + destruct (skipw unicode_space (of_string K ++ _)) as [|y ?] in Hb |- *; [done|].
      by rewrite Hb.
    + rewrite Ha.
      destruct (skipw unicode_space (of_string K ++ _)) as [|y ?] in Hb |- *; [done|].
      by rewrite Hb.
Qed.


Lemma uk_nexus_at_nonquote c s : (c =? QUOTE) = false -> uk_nexus_at (c :: s) = None.
Proof. intros H. unfold uk_nexus_at, uk_at. by rewrite H. Qed.

Lemma uk_nexus_at_mismatch b X :
  forallb notquote b = true -> lit_eq DOTALL (of_string "UpdateKeys") b = false ->
  uk_nexus_at (QUOTE :: b ++ QUOTE :: X) = None.
Proof.
  intros Hb Hl. unfold uk_nexus_at, uk_at. cbn [N.eqb QUOTE Pos.eqb].
  by rewrite split_quote_app, Hl.
Qed.

(** The update URL is that of before. *)
Lemma nurl_replaced K w s out :
  K = "Name"%string \/ K = "Description"%string ->
  forallb notquote w = true -> plain_value w = true ->
  replaced K w s out -> forallb plain_value (all_values NOFLAGS K s) = true ->
  extract_nurl out = extract_nurl s.
Proof.
  intros HK Hwq Hw Hrep HP. rewrite !extract_nurl_toks.
  destruct (key_facts K HK) as (_ & _ & _ & _ & HKu & _).
  rewrite (toks_replaced K w uk_nexus_at (lit_eq DOTALL (of_string "UpdateKeys"))
             plain_value) with (s := s); try done.
  - by apply plain_value_inv in Hw as (_ & _ & _ & ? & _).
  - apply uk_nexus_at_nonquote.
  - apply uk_nexus_at_mismatch.
  - intros sp. by apply lit_eq_sep.
  - by intros v (_ & _ & _ & ? & _)%plain_value_inv.
  - intros c s' out' Hrep' HP'. by apply (uk_nexus_stable K w).
Qed.

Lemma patchable_inv v :
  patchable v = true ->
  exists c v', v = c :: v' /\ ascii_digit c = false
    /\ forallb notquote v = true /\ no_opener v = true /\ plain_value v = true.
Proof.
  unfold patchable.
  intros [[[[H1 H2]%andb_true_iff H3]%andb_true_iff H4]%andb_true_iff H5]%andb_true_iff.
  destruct v as [|c v']; [done|]. exists c, v'. split_and!; try done.
  by apply negb_true_iff in H2.
Qed.

Lemma extract_no_opener s : no_opener s = true -> extract s = Ok (extract_fields s).
Proof. intros H. unfold extract. by rewrite strip_comments_id. Qed.

Lemma extract_fields_find s :
  extract_fields s =
  Fields (find_field NOFLAGS "Name" s) (find_field NOFLAGS "Description" s)
         (find_field IGNORECASE "UniqueID" s) (extract_nurl s).
Proof.
  unfold extract_fields, name_pattern, desc_pattern, uniqueid_pattern.
  by rewrite !search_field_pattern.
Qed.

(** Patching one of the two fields with a value that can be carried:
    the field reads the value, the other fields read what they read. *)
Lemma patch_round_trip K G content w :
  (K = "Name"%string /\ G = "Description"%string)
  \/ (K = "Description"%string /\ G = "Name"%string) ->
  patchable w = true -> no_opener content = true ->
  forallb plain_value (all_values NOFLAGS K content) = true ->
  find_field NOFLAGS K content <> None ->
  exists out,
    patch content K (Some w) = Ok (out, true)
    /\ no_opener out = true
    /\ find_field NOFLAGS K out = Some w
    /\ all_values NOFLAGS G out = all_values NOFLAGS G content
    /\ find_field IGNORECASE "UniqueID" out = find_field IGNORECASE "UniqueID" content
    /\ extract_nurl out = extract_nurl content.
Proof.
  intros HKG (c & v & -> & Hd & Hq & Ho & Hp)%patchable_inv Hoc HP Hfound.
  assert (K = "Name"%string \/ K = "Description"%string) as HK
    by (destruct HKG as [[-> _] | [-> _]]; [by left | by right]).
  destruct (key_facts K HK) as (Hwf & _).
  destruct (patch_spec K c v content Hwf Hd) as (out & E & Hrep & _).
  rewrite quote_escape_id in Hrep by done.
  rewrite found_field_test in E by done.
  exists out. split_and!.
  - rewrite E. by destruct (find_field NOFLAGS K content).
  - by apply (replaced_no_opener _ _ _ _ Ho Hrep).
  - rewrite (replaced_find _ _ _ _ Hq Hrep). by destruct (find_field NOFLAGS K content).
  - apply (field_values_replaced K NOFLAGS G plain_value (c :: v)); try done.
    + by destruct HKG as [[_ ->] | [_ ->]].
    + by destruct HKG as [[-> ->] | [-> ->]].
    + intros u (? & ? & _)%plain_value_inv. by destruct HKG as [[_ ->] | [_ ->]].
  - unfold find_field. f_equal.
    apply (field_values_replaced K IGNORECASE "UniqueID" plain_value (c :: v)); try done.
    + by destruct HK as [-> | ->].
    + by intros u (_ & _ & ? & _)%plain_value_inv.
  - by apply (nurl_replaced K (c :: v)).
Qed.


(** ** Values with a double quote *)

Lemma quote_escape_app a b : quote_escape (a ++ b) = quote_escape a ++ quote_escape b.
Proof. unfold quote_escape, replace1. apply flat_map_app. Qed.

Lemma split_quote_None s : split_quote s = None -> forallb notquote s = true.
Proof.
  induction s as [|x s IH]; [done|]. cbn [split_quote forallb]. unfold notquote at 1.
  destruct (x =? QUOTE); [done|]. destruct (split_quote s) as [[]|]; [done|].
  intros _. by rewrite IH.
Qed.

Lemma quote_escape_reextracted v :
  forallb notquote (reextracted v) = true
  /\ exists r, quote_escape v ++ [QUOTE] = reextracted v ++ QUOTE :: r.
Proof.
  unfold reextracted. destruct (split_quote v) as [[a b]|] eqn:E.
  - apply split_quote_inv in E as [-> Ha]. split.
    + rewrite forallb_app, Ha. done.
    + rewrite quote_escape_app, (quote_escape_id a) by done.
      rewrite quote_escape_cons. cbn [N.eqb QUOTE Pos.eqb].
      exists (quote_escape b ++ [QUOTE]). by norm_app.
  - apply split_quote_None in E. split; [done|].
    rewrite quote_escape_id by done. by exists [].
Qed.

Lemma reextracted_id v : forallb notquote v = true -> reextracted v = v.
Proof.
  intros Hv. unfold reextracted. destruct (split_quote v) as [[a b]|] eqn:E; [|done].
  apply split_quote_inv in E as [-> _]. rewrite forallb_app in Hv.
  apply andb_true_iff in Hv as [_ Hv]. done.
Qed.

Lemma replaced_find_written key w a r s out :
  w ++ [QUOTE] = a ++ QUOTE :: r -> forallb notquote a = true ->
  replaced key w s out ->
  find_field NOFLAGS key out =
  match find_field NOFLAGS key s with Some _ => Some a | None => None end.
Proof.
  intros Hw Ha. induction 1 as [|c s out Hnone Hrep IH|s k v rest out Hfield Hrep IH].
  - done.
  - rewrite (find_field_cons_None _ _ _ _ Hnone).
    rewrite find_field_cons_None by exact (replaced_field_None _ _ _ _ _ _ _ Hrep Hnone).
    done.
  - rewrite (find_field_Some _ _ _ _ _ _ Hfield).
    replace (k ++ w ++ QUOTE :: out) with (k ++ a ++ QUOTE :: (r ++ out)).
    + by rewrite (find_field_Some _ _ _ _ _ _ (field_at_change _ _ _ _ _ _ a (r ++ out) Hfield Ha)).
    + change (QUOTE :: out) with ([QUOTE] ++ out).
      rewrite (app_assoc w), Hw. by norm_app.
Qed.

Lemma head_quote_escape v :
  match head (quote_escape v) with
  | Some c => c = BACKSLASH \/ head v = Some c
  | None => v = []
  end.
Proof.
  destruct v as [|c v]; [done|]. rewrite quote_escape_cons.
  destruct (c =? QUOTE); cbn; [by left | by right].
Qed.

Lemma no_opener_quote_escape v : no_opener v = true -> no_opener (quote_escape v) = true.
Proof.
  unfold no_opener. induction v as [|c v IH]; [done|].
  rewrite no_pair_cons. intros [H1 H2]%andb_true_iff. specialize (IH H2).
  rewrite quote_escape_cons. destruct (N.eqb_spec c QUOTE) as [->|Hc].
  - cbn [app]. rewrite !no_pair_cons, IH. done.
  - cbn [app]. rewrite no_pair_cons, IH, andb_true_r.
    destruct (c =? SLASH); [|done]. cbn [andb] in *.
    pose proof (head_quote_escape v) as Hh.
    destruct (quote_escape v) as [|y t]; [done|]. cbn [head] in Hh.
    destruct Hh as [-> | Hh]; [done|].
    destruct v as [|c' v']; [done|]. by injection Hh as ->.
Qed.


(** ** Comments are removed wherever they stand *)

Lemma rep_lazy_through {A} p b t (k : str -> option A) :
  forallb p b = true ->
  (forall x s, In x b -> k (x :: s) = None) ->
  rep_lazy p (b ++ t) k = rep_lazy p t k.
Proof.
  intros Hb Hk. induction b as [|x b IH]; [done|]. cbn [app rep_lazy].
  cbn [forallb] in Hb. apply andb_true_iff in Hb as [Hx Hb].
  rewrite (Hk x (b ++ t)) by (by left). rewrite Hx. apply IH; [done|].
  intros y s Hy. apply Hk. by right.
Qed.

Lemma match_line_comment_line b c :
  forallb (fun x => negb (x =? NEWLINE)) b = true ->
  match_here MULTILINE line_comment (SLASH :: SLASH :: b ++ NEWLINE :: c)
  = Some ([], NEWLINE :: c).
Proof.
  intros Hb. unfold match_here, line_comment.
  cbn [rmatch Lit of_string map list_ascii_of_string Lazy].
  change (cset_mem MULTILINE (CChar (N_of_ascii "/")) SLASH) with true. cbv iota.
  rewrite rep_lazy_through.
  - done.
  - unfold cset_mem. cbn [dotall MULTILINE orb]. done.
  - intros x s Hx. cbn [at_eol multiline MULTILINE].
    rewrite forallb_forall in Hb. specialize (Hb x Hx).
    apply negb_true_iff in Hb. by rewrite Hb.
Qed.

Lemma line_comment_removed_line a b c :
  no_pair SLASH [ASTERISK] (a ++ SLASH :: SLASH :: b ++ NEWLINE :: c) = true ->
  no_pair SLASH [SLASH] (a ++ [SLASH]) = true ->
  forallb (fun x => negb (x =? NEWLINE)) b = true ->
  no_pair SLASH [SLASH] c = true ->
  strip_comments (a ++ SLASH :: SLASH :: b ++ NEWLINE :: c) = Ok (a ++ NEWLINE :: c).
Proof.
  intros Hblock Hline Hb Hc. rewrite strip_comments_Ok. f_equal.
  rewrite block_pass_id by done. rewrite line_pass_prefix by done.
  rewrite (sub_go_hit _ _ _ _ [] (SLASH :: SLASH :: b) (NEWLINE :: c)).
  - cbn [expand app]. f_equal. by apply line_pass_id.
  - cbn [app]. by apply match_line_comment_line.
  - done.
  - done.
Qed.

Lemma match_block_comment_body b c :
  no_pair ASTERISK [SLASH] b = true ->
  match_here DOTALL block_comment
    (SLASH :: ASTERISK :: b ++ ASTERISK :: SLASH :: c) = Some ([], c).
Proof.
  intros Hb. unfold match_here, block_comment.
  cbn [rmatch Lit of_string map list_ascii_of_string Lazy].
  change (cset_mem DOTALL (CChar (N_of_ascii "/")) SLASH) with true.
  change (cset_mem DOTALL (CChar (N_of_ascii "*")) ASTERISK) with true. cbv iota.
  induction b as [|x b IH].
  - cbn [app rep_lazy].
    change (cset_mem DOTALL (CChar (N_of_ascii "*")) ASTERISK) with true.
    change (cset_mem DOTALL (CChar (N_of_ascii "/")) SLASH) with true. done.
  - cbn [app rep_lazy]. rewrite no_pair_cons in Hb.
    apply andb_true_iff in Hb as [Hx Hb]. rewrite (IH Hb).
    change (cset_mem DOTALL CDot x) with true. cbv iota.
    unfold cset_mem at 1. cbn [ignorecase DOTALL].
    destruct (N.eqb_spec x (N_of_ascii "*")) as [->|]; [|done].
    change (N_of_ascii "*" =? ASTERISK) with true in Hx. cbn [andb] in Hx.
    destruct b as [|y b]; cbn [app].
    + done.
    + unfold cset_mem at 1. cbn [ignorecase DOTALL].
      cbn [existsb] in Hx. rewrite orb_false_r in Hx. apply negb_true_iff in Hx.
      change (N_of_ascii "/") with SLASH. by rewrite Hx.
Qed.

Lemma block_pass_prefix a s :
  no_pair SLASH [ASTERISK] a = true ->
  sub_go DOTALL block_comment [] 0 (a ++ SLASH :: ASTERISK :: s)
  = a ++ sub_go DOTALL block_comment [] 0 (SLASH :: ASTERISK :: s).
Proof.
  induction a as [|x a IH]; [done|]. cbn [app]. rewrite no_pair_cons.
  intros [H1 H2]%andb_true_iff.
  rewrite sub_go_miss; [by rewrite IH|].
  destruct (match_here DOTALL block_comment (x :: a ++ SLASH :: ASTERISK :: s)) eqn:E; [|done].
  apply match_block_comment_head in E as [t E]. exfalso.
  destruct a as [|y a]; cbn [app] in *.
  - injection E as -> E _. done.
  - injection E as -> -> _. done.
Qed.

Lemma block_comment_removed a b c :
  no_pair SLASH [ASTERISK] a = true ->
  no_pair ASTERISK [SLASH] b = true ->
  no_pair SLASH [ASTERISK] c = true ->
  no_pair SLASH [SLASH] (a ++ c) = true ->
  strip_comments (a ++ SLASH :: ASTERISK :: b ++ ASTERISK :: SLASH :: c) = Ok (a ++ c).
Proof.
  intros Ha Hb Hc Hac. rewrite strip_comments_Ok. f_equal.
  rewrite block_pass_prefix by done.
  rewrite (sub_go_hit DOTALL block_comment []
             (SLASH :: ASTERISK :: b ++ ASTERISK :: SLASH :: c) []
             (SLASH :: ASTERISK :: b ++ [ASTERISK; SLASH]) c).
  - cbn [expand app]. rewrite block_pass_id by done. by apply line_pass_id.
  - norm_app. by apply match_block_comment_body.
  - done.
  - by norm_app.
Qed.

(** * The claims of the specification *)

(** ** The Field Patcher *)

(** C1, as stated, fails: a value with a double quote is written with a
    backslash in front of the quote, the pattern of the second patch
    stops at that quote, and the rest of the value is written again.
    (And a value that starts with a digit makes a template that [re]
    refuses: the digit is read as part of the group reference.) *)
Lemma C1_counterexample :
  patch (text "{'Name': 'x'}") "Name" (Some (text "a'b"))
    = Ok (text "{'Name': 'a\'b'}", true)
  /\ patch (text "{'Name': 'a\'b'}") "Name" (Some (text "a'b"))
    = Ok (text "{'Name': 'a\'b'b'}", true)
  /\ text "{'Name': 'a\'b'}" <> text "{'Name': 'a\'b'b'}"
  /\ patch (text "{'Name': 'x'}") "Name" (Some (text "1abc")) = Raise ReError.
Proof. split_and!; by vm_compute. Qed.

(** C1 (amended): for a value without a double quote that does not start
    with an ASCII digit, patching the Name field twice gives the text and
    the flag of patching it once. *)
Theorem C1_patch_idempotent (content value : str) :
  forallb notquote value = true ->
  leading_digit value = false ->
  exists out changed,
    patch content "Name" (Some value) = Ok (out, changed)
    /\ patch out "Name" (Some value) = Ok (out, changed).
Proof.
  intros Hq Hd. destruct value as [|c v].
  - by exists content, false.
  - destruct (patch_spec "Name" c v content key_wf_Name Hd) as (out & E & Hrep & Hsame).
    exists out, (found NOFLAGS (field_test "Name") content). split; [done|].
    destruct (patch_spec "Name" c v out key_wf_Name Hd) as (out2 & E2 & Hrep2 & Hsame2).
    rewrite quote_escape_id in Hrep, Hrep2 by done.
    rewrite E2. do 2 f_equal.
    + apply (replaced_fun _ _ _ _ _ Hrep2). by eapply replaced_fixpoint.
    + rewrite !found_field_test by done.
      rewrite (replaced_find _ _ _ _ Hq Hrep).
      by destruct (find_field NOFLAGS "Name" content).
Qed.

Lemma C1_witness :
  exists out changed,
    patch (text "{'Name': 'old', 'Name': 'older'}") "Name" (Some (text "new\n"))
      = Ok (out, changed)
    /\ patch out "Name" (Some (text "new\n")) = Ok (out, changed).
Proof.
  apply (C1_patch_idempotent (text "{'Name': 'old', 'Name': 'older'}") (text "new\n"));
    reflexivity.
Defined.

(** C2, as stated, fails: [re.sub] is called without a count, so every
    occurrence of the field is rewritten, not the first one only.  (And
    a value that starts with two octal digits is read with the group
    reference as an octal escape: the key is lost.) *)
Lemma C2_counterexample :
  patch (text "'Name':'a','Name':'b'") "Name" (Some (text "x"))
    = Ok (text "'Name':'x','Name':'x'", true)
  /\ spec_patch (text "'Name':'a','Name':'b'") "Name" (text "x")
    = (text "'Name':'x','Name':'b'", true)
  /\ text "'Name':'x','Name':'x'" <> text "'Name':'x','Name':'b'"
  /\ patch (text "{'Name': 'x'}") "Name" (Some (text "01")) = Ok (text "{A'}", true).
Proof. split_and!; by vm_compute. Qed.

(** C2 (amended): for the field Name or Description and a non-empty value
    that does not start with an ASCII digit, the Field Patcher replaces
    the quoted value span of every occurrence of the field, found from
    left to right, by the value with a backslash put in front of each of
    its double quotes; the key, the white space, the colon, the quotes
    and every other character stay as they are; [changed] tells whether
    there was an occurrence, and without one the text is returned as it
    is.  The last part says what an occurrence is. *)
Theorem C2_patch_every_occurrence (key : string) (content value : str) :
  key = "Name"%string \/ key = "Description"%string ->
  truthy (Some value) = true ->
  leading_digit value = false ->
  exists out changed,
    patch content key (Some value) = Ok (out, changed)
    /\ changed = found NOFLAGS (field_test key) content
    /\ replaced key (quote_escape value) content out
    /\ (changed = false -> out = content)
    /\ (forall s k v rest,
          field_at NOFLAGS key s = Some (k, v, rest)
          <-> field_head key k /\ forallb notquote v = true
              /\ s = k ++ v ++ QUOTE :: rest).
Proof.
  intros Hkey Hne Hd. destruct value as [|c v]; [done|].
  assert (key_wf NOFLAGS key = true /\ forallb notquote (of_string key) = true)
    as [Hwf Hkq] by (by destruct Hkey as [-> | ->]).
  destruct (patch_spec key c v content Hwf Hd) as (out & E & Hrep & Hsame).
  exists out, (found NOFLAGS (field_test key) content).
  split_and!; try done.
  intros s k v' rest. by apply field_at_head.
Qed.

Lemma C2_witness :
  exists out changed,
    patch (text "{'Name' : 'a', 'Description': 'b'}") "Name" (Some (text "x'y"))
      = Ok (out, changed)
    /\ changed = found NOFLAGS (field_test "Name") (text "{'Name' : 'a', 'Description': 'b'}")
    /\ replaced "Name" (quote_escape (text "x'y"))
         (text "{'Name' : 'a', 'Description': 'b'}") out
    /\ (changed = false -> out = text "{'Name' : 'a', 'Description': 'b'}")
    /\ (forall s k v rest,
          field_at NOFLAGS "Name" s = Some (k, v, rest)
          <-> field_head "Name" k /\ forallb notquote v = true
              /\ s = k ++ v ++ QUOTE :: rest).
Proof.
  apply (C2_patch_every_occurrence "Name" (text "{'Name' : 'a', 'Description': 'b'}")
           (text "x'y")); [by left | reflexivity | reflexivity].
Defined.



(** ** The Field Extractor *)

(** C10: every Name, Description or UniqueID value the Field Extractor
    returns is the text between the opening quote of the value and the
    next double quote of the text without comments, so it holds no
    double quote; a value written with an escaped quote is cut at the
    backslash. *)
Theorem C10_extracted_values_quote_free (content : str) :
  exists stripped,
    strip_comments content = Ok stripped
    /\ extract content = Ok (extract_fields stripped)
    /\ (forall v,
          f_name (extract_fields stripped) = Some v
          \/ f_description (extract_fields stripped) = Some v
          \/ f_unique_id (extract_fields stripped) = Some v ->
          forallb notquote v = true
          /\ exists pre k rest, stripped = pre ++ (k ++ [QUOTE]) ++ v ++ QUOTE :: rest)
    /\ extract (text "{'Name': 'a\'b'}")
       = Ok (Fields (Some (text "a\")) None None None).
Proof.
  eexists. split; [apply strip_comments_Ok|]. split; [apply extract_Ok|].
  split; [|by vm_compute].
  set (stripped := sub_go MULTILINE line_comment [] 0 _).
  assert (forall fl key v, find_field fl key stripped = Some v ->
            forallb notquote v = true
            /\ exists pre k rest, stripped = pre ++ (k ++ [QUOTE]) ++ v ++ QUOTE :: rest) as H.
  { intros fl key v (pre & k & rest & -> & Hf)%find_field_span.
    apply field_at_inv in Hf as (b & sp & -> & _ & _ & _ & _ & _ & Hv).
    split; [done|]. exists pre, (QUOTE :: b ++ QUOTE :: sp), rest. by norm_app. }
  intros v. unfold extract_fields. cbn [f_name f_description f_unique_id].
  unfold name_pattern, desc_pattern, uniqueid_pattern.
  rewrite !search_field_pattern by reflexivity.
  intros [Hv | [Hv | Hv]]; by eapply H.
Qed.

(** ** The Language Classifier *)

(** C8: [IsChinese] is true exactly when the extracted name or the
    extracted description holds a character from U+4E00 to U+9FFF; it is
    the flag stored with a record; a manifest whose Name is the four
    characters U+6D4B U+8BD5 U+6A21 U+7EC4 is classified true, and one
    with Name [Test Mod] and Description [A test] false. *)
Theorem C8_localization_classification :
  (forall name description,
     is_chinese name description = true <-> has_chinese name \/ has_chinese description)
  /\ (forall m r, process_manifest m = Ok (Some r) ->
        IsChinese r = Some (is_chinese (Name r) (Description r)))
  /\ process_manifest
       (ManifestFile (text "A") (text "A")
          (Some (manifest_bytes "{'Name': '测试模组'}")))
     = Ok (Some (ModData (text "A") (Some [27979; 35797; 27169; 32452]) None
                   (text "A") (Some true) None))
  /\ process_manifest
       (ManifestFile (text "B") (text "B")
          (Some (manifest_bytes "{'Name': 'Test Mod', 'Description': 'A test'}")))
     = Ok (Some (ModData (text "B") (Some (text "Test Mod")) (Some (text "A test"))
                   (text "B") (Some false) None)).
Proof.
  split; [apply is_chinese_spec|]. split; [|split; by vm_compute].
  intros m r. rewrite process_manifest_spec.
  destruct (read_manifest (mf_file m)) as [content|]; [|done].
  destruct (extract content) as [f|]; [|done].
  destruct (truthy (f_name f) || truthy (f_description f)); [|done].
  by intros [= <-].
Qed.

(** ** The Encoding Reader *)

(** C9: the bytes of a manifest always decode: the result is that of
    UTF-8 when it succeeds, else that of UTF-8 with a byte-order mark
    when it succeeds, else that of latin-1, which takes every byte; so
    reading fails only when the file cannot be opened. *)
Theorem C9_reader_total :
  (forall bs,
     decode_manifest bs =
     Ok match utf8_decode (bytes_to_N bs) with
        | Ok t => t
        | Raise _ =>
            match utf8_sig_decode (bytes_to_N bs) with
            | Ok t => t
            | Raise _ => latin1_decode (bytes_to_N bs)
            end
        end)
  /\ (forall bs, exists content, read_manifest (Some bs) = Ok content)
  /\ (forall file e, read_manifest file = Raise e -> file = None /\ e = OSError).
Proof.
  split; [apply decode_manifest_spec|]. split.
  - intros bs. eexists. apply decode_manifest_spec.
  - intros [bs|] e; simpl.
    + by rewrite decode_manifest_spec.
    + by intros [= <-].
Qed.


(** ** The Scan Orchestrator *)

Lemma scan_step_spec st m :
  scan_step st m =
  match read_manifest (mf_file m) with
  | Raise _ => ScanState (translations_data st) (success_count st) (S (error_count st))
  | Ok content =>
      match extract content with
      | Raise _ => ScanState (translations_data st) (success_count st) (S (error_count st))
      | Ok f =>
          if truthy (f_name f) || truthy (f_description f)
          then ScanState (<[mf_relpath m := record_of m f]> (translations_data st))
                         (S (success_count st)) (error_count st)
          else ScanState (translations_data st) (success_count st) (S (error_count st))
      end
  end.
Proof.
  unfold scan_step. rewrite process_manifest_spec.
  destruct (read_manifest (mf_file m)) as [content|]; [|done].
  destruct (extract content) as [f|]; [|done].
  by destruct (truthy (f_name f) || truthy (f_description f)).
Qed.

Lemma scan_step_store_ok st m :
  store_ok (translations_data st) -> store_ok (translations_data (scan_step st m)).
Proof.
  intros Hst. rewrite scan_step_spec.
  destruct (read_manifest (mf_file m)) as [content|]; [|done].
  destruct (extract content) as [f|]; [|done].
  destruct (truthy (f_name f) || truthy (f_description f)) eqn:E; [|done].
  intros k r. cbn [translations_data].
  destruct (decide (k = mf_relpath m)) as [->|Hk].
  - rewrite lookup_insert_eq. by intros [= <-].
  - rewrite lookup_insert_ne by done. apply Hst.
Qed.

Lemma scan_store_ok ms : store_ok (translations_data (scan ms)).
Proof.
  unfold scan. assert (store_ok (translations_data scan_init)) as H by (by intros k r).
  revert H. generalize scan_init. induction ms as [|m ms IH]; intros st Hst; [done|].
  simpl. apply IH. by apply scan_step_store_ok.
Qed.

(** C6, as stated, fails: a manifest whose Name is the empty string and
    that has no Description yields a name that is not absent, and is left
    out of the store all the same (line 117 tests the truth value). *)
Lemma C6_counterexample :
  bind (read_manifest (Some (manifest_bytes "{'Name': ''}"))) extract
    = Ok (Fields (Some []) None None None)
  /\ translations_data
       (scan [ManifestFile (text "A") (text "A") (Some (manifest_bytes "{'Name': ''}"))])
     !! text "A" = None
  /\ error_count
       (scan [ManifestFile (text "A") (text "A") (Some (manifest_bytes "{'Name': ''}"))])
     = 1%nat.
Proof. split_and!; by vm_compute. Qed.

(** C6 (amended): a manifest whose name and description are both absent
    or empty is never put in the Record Store and is counted with the
    errors, as is one that cannot be read; every other manifest gives one
    record, stored under the path of its directory relative to the root.
    So every record of the store of a scan has a non-empty name or
    description and sits under its own path. *)
Theorem C6_store_inclusion :
  (forall st m,
     scan_step st m =
     match read_manifest (mf_file m) with
     | Raise _ => ScanState (translations_data st) (success_count st) (S (error_count st))
     | Ok content =>
         match extract content with
         | Raise _ =>
             ScanState (translations_data st) (success_count st) (S (error_count st))
         | Ok f =>
             if truthy (f_name f) || truthy (f_description f)
             then ScanState (<[mf_relpath m := record_of m f]> (translations_data st))
                            (S (success_count st)) (error_count st)
             else ScanState (translations_data st) (success_count st)
                            (S (error_count st))
         end
     end)
  /\ (forall content, exists f, extract content = Ok f)
  /\ (forall ms k r,
        translations_data (scan ms) !! k = Some r ->
        truthy (Name r) || truthy (Description r) = true /\ Path r = k).
Proof.
  split; [apply scan_step_spec|]. split.
  - intros content. eexists. apply extract_Ok.
  - intros ms. apply scan_store_ok.
Qed.

(** ** The Restore Orchestrator *)

(** C7: a field whose stored value is absent or empty is not replaced:
    the text and the flag come out as they went in, so the restore of a
    record is that of its other field alone.  The restore of a record is
    the patch of Name followed by that of Description and of nothing
    else: UniqueID is never patched, and what is stored for it has no
    part in the outcome. *)
Theorem C7_absent_value_patches_nothing :
  (forall key st,
     update_field key None st = Ok st /\ update_field key (Some []) st = Ok st)
  /\ (forall content key,
        patch content key None = Ok (content, false)
        /\ patch content key (Some []) = Ok (content, false))
  /\ (forall md content,
        update_content md content
        = bind (patch content "Name" (Name md))
               (update_field "Description" (Description md)))
  /\ (forall md content,
        match Name md with
        | None | Some [] =>
            update_content md content = patch content "Description" (Description md)
        | _ => True
        end)
  /\ (forall md content,
        match Description md with
        | None | Some [] =>
            update_content md content = patch content "Name" (Name md)
        | _ => True
        end)
  /\ (forall md u content,
        update_content (with_UniqueID md u) content = update_content md content)
  /\ (forall md u file, restore_mod file (with_UniqueID md u) = restore_mod file md).
Proof.
  split_and!.
  - done.
  - done.
  - done.
  - intros md content. unfold update_content. by destruct (Name md) as [[|]|].
  - intros md content. unfold update_content, patch.
    destruct (Description md) as [[|]|]; try done;
      by destruct (update_field "Name" (Name md) (content, false)).
  - done.
  - done.
Qed.

(** ** Comments *)

(** C5, as stated, fails: the passes know nothing of quotes, and a value
    with a comment sequence in it is cut like any other text.  Here the
    Name is in the text, the line pass removes it from the two slashes
    on, closing quote included, and the extractor finds no Name. *)
Lemma C5_counterexample :
  group1 (search NOFLAGS name_pattern (text "{'Name': 'http://x'}"))
    = Some (text "http://x")
  /\ strip_comments (text "{'Name': 'http://x'}") = Ok (text "{'Name': 'http:")
  /\ extract (text "{'Name': 'http://x'}") = Ok (Fields None None None None).
Proof. split_and!; by vm_compute. Qed.

(** C5 (amended): the two passes are a pure transformation of the whole
    text, done before the fields are searched, and they take no account
    of quotes.  A text in which no slash is followed by a slash or an
    asterisk comes out as it is.  Two slashes and what follows them up to
    the end of the line, or of the text, are removed wherever they stand,
    and so is everything from a slash and an asterisk to the next
    asterisk and slash, newlines included: the texts [a], [b] and [c]
    below may hold any quotes, so this is also what happens to a comment
    sequence inside a quoted value. *)
Theorem C5_comment_stripping :
  (forall content, exists stripped,
     strip_comments content = Ok stripped
     /\ extract content = Ok (extract_fields stripped))
  /\ (forall content, no_opener content = true -> strip_comments content = Ok content)
  /\ (forall a b,
        no_pair SLASH [ASTERISK] (a ++ SLASH :: SLASH :: b) = true ->
        no_pair SLASH [SLASH] (a ++ [SLASH]) = true ->
        forallb (fun c => negb (c =? NEWLINE)) b = true ->
        strip_comments (a ++ SLASH :: SLASH :: b) = Ok a)
  /\ (forall a b c,
        no_pair SLASH [ASTERISK] (a ++ SLASH :: SLASH :: b ++ NEWLINE :: c) = true ->
        no_pair SLASH [SLASH] (a ++ [SLASH]) = true ->
        forallb (fun x => negb (x =? NEWLINE)) b = true ->
        no_pair SLASH [SLASH] c = true ->
        strip_comments (a ++ SLASH :: SLASH :: b ++ NEWLINE :: c) = Ok (a ++ NEWLINE :: c))
  /\ (forall a b c,
        no_pair SLASH [ASTERISK] a = true ->
        no_pair ASTERISK [SLASH] b = true ->
        no_pair SLASH [ASTERISK] c = true ->
        no_pair SLASH [SLASH] (a ++ c) = true ->
        strip_comments (a ++ SLASH :: ASTERISK :: b ++ ASTERISK :: SLASH :: c)
        = Ok (a ++ c))
  /\ strip_comments (text "{'Name': 'a/*b', 'Description': 'c*/d'}")
     = Ok (text "{'Name': 'ad'}").
Proof.
  split_and!.
  - intros content. eexists. split; [apply strip_comments_Ok | apply extract_Ok].
  - apply strip_comments_id.
  - apply line_comment_removed.
  - apply line_comment_removed_line.
  - apply block_comment_removed.
  - by vm_compute.
Qed.

(** ** Escaping *)

(** C3, as stated, fails: the extractor does not undo the escaping and
    stops at the first double quote, so a value with a double quote comes
    back cut, with the backslash of the escape at its end.  Two more
    things stand in the way of the round trip: a value with a comment
    sequence is cut by the comment passes, and a value that starts with a
    digit makes a bad template. *)
Lemma C3_counterexample :
  patch (text "{'Name': 'x'}") "Name" (Some (text "a'b"))
    = Ok (text "{'Name': 'a\'b'}", true)
  /\ extract (text "{'Name': 'a\'b'}") = Ok (Fields (Some (text "a\")) None None None)
  /\ text "a\" <> text "a'b"
  /\ patch (text "{'Name': 'x'}") "Name" (Some (text "http://x"))
     = Ok (text "{'Name': 'http://x'}", true)
  /\ extract (text "{'Name': 'http://x'}") = Ok (Fields None None None None)
  /\ patch (text "{'Name': 'x'}") "Name" (Some (text "1abc")) = Raise ReError.
Proof. split_and!; by vm_compute. Qed.

Lemma field_of_extract key s :
  key = "Name"%string \/ key = "Description"%string ->
  field_of key (extract_fields s) = find_field NOFLAGS key s.
Proof.
  intros [-> | ->]; cbn; unfold name_pattern, desc_pattern;
    by rewrite search_field_pattern.
Qed.

(** C3 (amended): the escaping step replaces each backslash by two and
    then each double quote by a backslash and a double quote.  For the
    field Name or Description, a text that has the field and opens no
    comment, and a non-empty value that opens no comment and does not
    start with an ASCII digit, the Field Extractor returns from the
    patched text the value itself, backslashes included, when the value
    holds no double quote; when it holds one, the extractor returns the
    part of the value before its first double quote, followed by a
    backslash. *)
Theorem C3_escaping_round_trip (key : string) (content value : str) :
  key = "Name"%string \/ key = "Description"%string ->
  truthy (Some value) = true ->
  leading_digit value = false ->
  no_opener value = true ->
  no_opener content = true ->
  found NOFLAGS (field_test key) content = true ->
  escape value
    = replace1 QUOTE [BACKSLASH; QUOTE]
        (replace1 BACKSLASH [BACKSLASH; BACKSLASH] value)
  /\ (exists out f,
        patch content key (Some value) = Ok (out, true)
        /\ extract out = Ok f
        /\ field_of key f = Some (reextracted value))
  /\ (forallb notquote value = true -> reextracted value = value)
  /\ (forall a b, value = a ++ QUOTE :: b -> forallb notquote a = true ->
        reextracted value = a ++ [BACKSLASH]).
Proof.
  intros Hkey Hne Hd Hov Hoc Hfound. split; [done|].
  split; [|split; [apply reextracted_id|]].
  - destruct value as [|c v]; [done|].
    assert (key_wf NOFLAGS key = true) as Hwf by (by destruct Hkey as [-> | ->]).
    destruct (patch_spec key c v content Hwf Hd) as (out & E & Hrep & _).
    rewrite Hfound in E.
    exists out, (extract_fields out). split; [done|].
    split.
    + unfold extract. rewrite strip_comments_id; [done|].
      by apply (replaced_no_opener _ _ _ _ (no_opener_quote_escape _ Hov) Hrep).
    + rewrite field_of_extract by done.
      destruct (quote_escape_reextracted (c :: v)) as (Hq & r & Hw).
      rewrite (replaced_find_written _ _ _ _ _ _ Hw Hq Hrep).
      rewrite found_field_test in Hfound by done.
      by destruct (find_field NOFLAGS key content).
  - intros a b -> Ha. unfold reextracted. by rewrite split_quote_app.
Qed.

Lemma C3_witness :
  escape (text "C:\mods\x")
    = replace1 QUOTE [BACKSLASH; QUOTE]
        (replace1 BACKSLASH [BACKSLASH; BACKSLASH] (text "C:\mods\x"))
  /\ (exists out f,
        patch (text "{'Name': 'a', 'Description': 'b'}") "Description"
              (Some (text "C:\mods\x")) = Ok (out, true)
        /\ extract out = Ok f
        /\ field_of "Description" f = Some (reextracted (text "C:\mods\x")))
  /\ (forallb notquote (text "C:\mods\x") = true ->
      reextracted (text "C:\mods\x") = text "C:\mods\x")
  /\ (forall a b, text "C:\mods\x" = a ++ QUOTE :: b -> forallb notquote a = true ->
        reextracted (text "C:\mods\x") = a ++ [BACKSLASH]).
Proof.
  apply (C3_escaping_round_trip "Description"
           (text "{'Name': 'a', 'Description': 'b'}") (text "C:\mods\x"));
    [by right | reflexivity..].
Defined.

(** ** The round trip *)

(** C4, as stated, fails.  A replacement with a double quote comes back
    cut at the quote; and a text in which the value of one field is the
    key of another loses that other field when the value is replaced. *)
Lemma C4_counterexample :
  extract (text "{'Name': 'n', 'Description': 'd'}")
    = Ok (Fields (Some (text "n")) (Some (text "d")) None None)
  /\ patch (text "{'Name': 'n', 'Description': 'd'}") "Name" (Some (text "a'b"))
     = Ok (text "{'Name': 'a\'b', 'Description': 'd'}", true)
  /\ patch (text "{'Name': 'a\'b', 'Description': 'd'}") "Description" (Some (text "e"))
     = Ok (text "{'Name': 'a\'b', 'Description': 'e'}", true)
  /\ extract (text "{'Name': 'a\'b', 'Description': 'e'}")
     = Ok (Fields (Some (text "a\")) (Some (text "e")) None None)
  /\ text "a\" <> text "a'b"
  /\ extract (text "'Name':'UniqueID':'x','Description':'d'")
     = Ok (Fields (Some (text "UniqueID")) (Some (text "d")) (Some (text "x")) None)
  /\ patch (text "'Name':'UniqueID':'x','Description':'d'") "Name" (Some (text "n"))
     = Ok (text "'Name':'n':'x','Description':'d'", true)
  /\ patch (text "'Name':'n':'x','Description':'d'") "Description" (Some (text "e"))
     = Ok (text "'Name':'n':'x','Description':'e'", true)
  /\ extract (text "'Name':'n':'x','Description':'e'")
     = Ok (Fields (Some (text "n")) (Some (text "e")) None None).
Proof. split_and!; by vm_compute. Qed.

(** C4 (amended): take a manifest text that opens no comment, from which
    a Name and a Description are extracted, and in which no value of a
    quoted Name or Description field is itself a key of the extractor, a
    Nexus token, or holds a closing bracket; and take two replacement
    values that are not empty, hold no double quote, do not start with an
    ASCII digit, open no comment, and are plain in the same sense.  Then
    patching Name and then Description changes both texts, and the
    extraction of the result has the two new values, with the UniqueID
    and the update URL of the extraction of the original. *)
Theorem C4_round_trip (content n2 d2 : str) (f : fields) (n d : str) :
  extract content = Ok f ->
  f_name f = Some n -> f_description f = Some d ->
  no_opener content = true ->
  forallb plain_value (all_values NOFLAGS "Name" content) = true ->
  forallb plain_value (all_values NOFLAGS "Description" content) = true ->
  patchable n2 = true -> patchable d2 = true ->
  exists t1 t2,
    patch content "Name" (Some n2) = Ok (t1, true)
    /\ patch t1 "Description" (Some d2) = Ok (t2, true)
    /\ extract t2
       = Ok {| f_name := Some n2; f_description := Some d2;
               f_unique_id := f_unique_id f; f_nurl := f_nurl f |}.
Proof.
  intros Hex Hn Hd Hoc HPn HPd Hn2 Hd2.
  rewrite extract_no_opener in Hex by done. assert (f = extract_fields content) as -> by congruence. clear Hex.
  rewrite extract_fields_find in Hn, Hd |- *. cbn [f_name f_description f_unique_id f_nurl] in *.
  destruct (patch_round_trip "Name" "Description" content n2)
    as (t1 & E1 & Ho1 & Hf1 & Hv1 & Hu1 & Hl1); try done.
  { by left. } { by rewrite Hn. }
  destruct (patch_round_trip "Description" "Name" t1 d2)
    as (t2 & E2 & Ho2 & Hf2 & Hv2 & Hu2 & Hl2); try done.
  { by right. } { by rewrite Hv1. }
  { unfold find_field. rewrite Hv1. fold (find_field NOFLAGS "Description" content).
    by rewrite Hd. }
  exists t1, t2. split_and!; try done.
  rewrite extract_no_opener by done. rewrite extract_fields_find.
  cbn [f_unique_id f_nurl]. rewrite Hf2, Hu2, Hu1, Hl2, Hl1. do 2 f_equal.
  unfold find_field. rewrite Hv2. exact Hf1.
Qed.

Lemma C4_witness :
  exists t1 t2,
    patch (text "{'Name': 'Old', 'Description': 'Older', 'UniqueID': 'a.b', 'UpdateKeys': ['Nexus:12']}")
          "Name" (Some (text "New name")) = Ok (t1, true)
    /\ patch t1 "Description" (Some (text "New: text")) = Ok (t2, true)
    /\ extract t2
       = Ok {| f_name := Some (text "New name");
               f_description := Some (text "New: text");
               f_unique_id :=
                 f_unique_id (Fields (Some (text "Old")) (Some (text "Older"))
                                (Some (text "a.b")) (Some (NEXUS_URL ++ text "12")));
               f_nurl :=
                 f_nurl (Fields (Some (text "Old")) (Some (text "Older"))
                           (Some (text "a.b")) (Some (NEXUS_URL ++ text "12"))) |}.
Proof.
  apply (C4_round_trip
           (text "{'Name': 'Old', 'Description': 'Older', 'UniqueID': 'a.b', 'UpdateKeys': ['Nexus:12']}")
           (text "New name") (text "New: text")
           (Fields (Some (text "Old")) (Some (text "Older"))
              (Some (text "a.b")) (Some (NEXUS_URL ++ text "12")))
           (text "Old") (text "Older")); by vm_compute.
Defined.


(** * Further properties of the scripts *)

(** ** The loop of the extraction script *)

Lemma scan_step_counts st m :
  (success_count (scan_step st m) + error_count (scan_step st m)
   = S (success_count st + error_count st))%nat.
Proof.
  unfold scan_step. destruct (process_manifest m) as [[r|]|]; simpl; lia.
Qed.

Lemma fold_scan_counts ms st :
  (success_count (fold_left scan_step ms st) + error_count (fold_left scan_step ms st)
   = length ms + (success_count st + error_count st))%nat.
Proof.
  revert st. induction ms as [|m ms IH]; intros st; [done|].
  cbn [fold_left length]. rewrite IH, scan_step_counts. lia.
Qed.

Lemma scan_snoc ms m : scan (ms ++ [m]) = scan_step (scan ms) m.
Proof. unfold scan. by rewrite fold_left_app. Qed.

Lemma scan_step_record st m :
  scan_step st m =
  match record_for m with
  | Some r => ScanState (<[mf_relpath m := r]> (translations_data st))
                        (S (success_count st)) (error_count st)
  | None => ScanState (translations_data st) (success_count st) (S (error_count st))
  end.
Proof. unfold scan_step, record_for. by destruct (process_manifest m) as [[r|]|]. Qed.

Lemma scan_success ms :
  success_count (scan ms) = length (omap record_for ms).
Proof.
  induction ms as [|m ms IH] using rev_ind; [done|].
  rewrite scan_snoc, scan_step_record, omap_app, length_app. simpl.
  destruct (record_for m); simpl; rewrite IH; lia.
Qed.

Lemma last_record_snoc k ms m :
  last_record k (ms ++ [m]) =
  match (if decide (mf_relpath m = k) then record_for m else None) with
  | Some r => Some r
  | None => last_record k ms
  end.
Proof.
  induction ms as [|m' ms IH]; cbn [app last_record].
  - by destruct (if decide (mf_relpath m = k) then record_for m else None).
  - rewrite IH. by destruct (if decide (mf_relpath m = k) then record_for m else None).
Qed.

Lemma scan_lookup ms k :
  translations_data (scan ms) !! k = last_record k ms.
Proof.
  induction ms as [|m ms IH] using rev_ind; [done|].
  rewrite scan_snoc, scan_step_record, last_record_snoc.
  destruct (decide (mf_relpath m = k)) as [->|Hk].
  - destruct (record_for m); cbn [translations_data]; [by rewrite lookup_insert_eq | done].
  - destruct (record_for m); cbn [translations_data]; [by rewrite lookup_insert_ne | done].
Qed.

Lemma scan_size ms :
  (size (translations_data (scan ms)) <= success_count (scan ms))%nat.
Proof.
  induction ms as [|m ms IH] using rev_ind; [done|].
  rewrite scan_snoc, scan_step_record.
  destruct (record_for m); cbn [translations_data success_count]; [|done].
  destruct (translations_data (scan ms) !! mf_relpath m) eqn:E.
  - rewrite map_size_insert_Some by done. lia.
  - rewrite map_size_insert_None by done. lia.
Qed.

Lemma last_record_None k ms :
  k ∉ map mf_relpath ms -> last_record k ms = None.
Proof.
  induction ms as [|m ms IH]; [done|]. cbn [map last_record].
  intros [Hk Hin]%not_elem_of_cons. rewrite IH by done.
  by destruct (decide (mf_relpath m = k)).
Qed.

Lemma scan_size_distinct ms :
  NoDup (map mf_relpath ms) ->
  size (translations_data (scan ms)) = success_count (scan ms).
Proof.
  induction ms as [|m ms IH] using rev_ind; [done|].
  rewrite map_app. cbn [map]. intros [Hms [Hm _]]%NoDup_app.
  rewrite scan_snoc, scan_step_record.
  destruct (record_for m); cbn [translations_data success_count]; [|by apply IH].
  rewrite map_size_insert_None.
  - by rewrite IH.
  - rewrite scan_lookup. apply last_record_None. intros Hin. apply (Hm _ Hin). by left.
Qed.


(** ** Reading and writing a text *)

Lemma utf8_sig_follows bs e :
  utf8_decode bs = Raise e -> utf8_sig_decode bs = Raise e.
Proof.
  unfold utf8_sig_decode.
  repeat match goal with
  | |- utf8_decode ?l = Raise _ -> utf8_decode ?l = Raise _ => done
  | |- utf8_decode _ = Raise _ -> Ok _ = Raise _ => by vm_compute
  | |- context [match ?l with [] => _ | _ :: _ => _ end] => destruct l
  | |- context [match ?n with N0 => _ | Npos _ => _ end] => destruct n
  | |- context [match ?p with xH => _ | xO _ => _ | xI _ => _ end] => destruct p
  end.
  cbn [utf8_decode]. change (239 <? 128) with false. cbv iota.
  change (in_range 194 223 239) with false. change (in_range 224 239 239) with true.
  cbv iota. change (is_cont 187 && negb ((239 =? 224) && (187 <? 160)) && negb ((239 =? 237) && (160 <=? 187))) with true.
  cbv iota. change (is_cont 191) with true. cbv iota.
  match goal with |- context [utf8_decode ?l] => by destruct (utf8_decode l) end.
Qed.

Lemma utf8_decode_bom bs :
  utf8_decode (239 :: 187 :: 191 :: bs) = bind (utf8_decode bs) (fun l => Ok (65279 :: l)).
Proof. reflexivity. Qed.

Lemma bytes_to_N_lt bs : forallb (fun c => c <? 256) (bytes_to_N bs) = true.
Proof.
  induction bs as [|b bs IH]; [done|]. cbn [bytes_to_N map forallb].
  apply andb_true_intro. split; [|exact IH].
  apply N.ltb_lt. pose proof (Byte.to_N_bounded b). lia.
Qed.

Ltac bool_hyps :=
  unfold is_cont, in_range in *;
  repeat match goal with
  | H : _ && _ = true |- _ => apply andb_true_iff in H; destruct H
  | H : _ && _ = false |- _ => apply andb_false_iff in H; destruct H
  | H : _ || _ = true |- _ => apply orb_true_iff in H; destruct H
  | H : _ || _ = false |- _ => apply orb_false_iff in H; destruct H
  | H : negb _ = true |- _ => apply negb_true_iff in H
  | H : negb _ = false |- _ => apply negb_false_iff in H
  | H : (_ <? _) = true |- _ => apply N.ltb_lt in H
  | H : (_ <? _) = false |- _ => apply N.ltb_ge in H
  | H : (_ <=? _) = true |- _ => apply N.leb_le in H
  | H : (_ <=? _) = false |- _ => apply N.leb_gt in H
  | H : (_ =? _) = true |- _ => apply N.eqb_eq in H
  | H : (_ =? _) = false |- _ => apply N.eqb_neq in H
  end.

Lemma scalar_intro c : c < 55296 \/ (57343 < c /\ c < 1114112) -> scalar c = true.
Proof.
  intros H. unfold scalar, in_range.
  apply andb_true_intro. split; [apply N.ltb_lt; lia|].
  apply negb_true_iff, andb_false_iff.
  destruct H as [H|H]; [left; apply N.leb_gt; lia | right; apply N.leb_gt; lia].
Qed.

Lemma utf8_decode_scalar n : forall bs t,
  (length bs <= n)%nat -> utf8_decode bs = Ok t -> forallb scalar t = true.
Proof.
  induction n as [|n IH]; intros bs t Hn.
  - destruct bs; [by intros [= <-] | simpl in Hn; lia].
  - destruct bs as [|b0 r1]; [by intros [= <-]|]. cbn [utf8_decode].
    assert (forall r c t, (length r <= n)%nat -> scalar c = true ->
              bind (utf8_decode r) (fun l => Ok (c :: l)) = Ok t ->
              forallb scalar t = true) as Hrec.
    { intros r c t' Hr Hc. destruct (utf8_decode r) as [l|] eqn:E; [|done].
      intros [= <-]. cbn [forallb]. rewrite Hc. by eapply IH. }
    simpl in Hn.
    repeat match goal with
    | |- Ok [] = Ok _ -> _ => by intros [= <-]
    | |- Raise _ = Ok _ -> _ => discriminate
    | |- bind _ _ = Ok _ -> _ =>
        apply Hrec; [simpl in *; lia | apply scalar_intro; bool_hyps; lia]
    | |- context [if ?b then _ else _] => destruct b eqn:?
    | |- context [match ?l with [] => _ | _ :: _ => _ end] =>
        is_var l; destruct l; simpl in Hn
    end.
Qed.

Lemma utf8_decode_encode_char c r :
  scalar c = true ->
  utf8_decode (utf8_encode_char c ++ r) = bind (utf8_decode r) (fun l => Ok (c :: l)).
Proof.
  intros Hc. unfold scalar in Hc. unfold utf8_encode_char.
  pose proof (N.div_mod c 64 ltac:(lia)).
  pose proof (N.mod_lt c 64 ltac:(lia)).
  pose proof (N.div_mod c 4096 ltac:(lia)).
  pose proof (N.mod_lt c 4096 ltac:(lia)).
  pose proof (N.div_mod c 262144 ltac:(lia)).
  pose proof (N.mod_lt c 262144 ltac:(lia)).
  pose proof (N.div_mod (c / 64) 64 ltac:(lia)).
  pose proof (N.mod_lt (c / 64) 64 ltac:(lia)).
  pose proof (N.div_mod (c / 4096) 64 ltac:(lia)).
  pose proof (N.mod_lt (c / 4096) 64 ltac:(lia)).
  set (q1 := c / 64) in *. set (m1 := c mod 64) in *.
  set (q2 := c / 4096) in *. set (m2 := c mod 4096) in *.
  set (q3 := c / 262144) in *. set (m3 := c mod 262144) in *.
  set (q4 := q1 / 64) in *. set (m4 := q1 mod 64) in *.
  set (q5 := q2 / 64) in *. set (m5 := q2 mod 64) in *.
  clearbody q1 m1 q2 m2 q3 m3 q4 m4 q5 m5.
  destruct (c <? 128) eqn:E1; [|destruct (c <? 2048) eqn:E2; [|destruct (c <? 65536) eqn:E3]];
    cbn [app];
    match goal with |- utf8_decode (_ :: ?t) = _ => remember t as r1 eqn:Hr1 end;
    cbn [utf8_decode]; subst r1; cbv beta iota;
    repeat match goal with
    | |- context [if ?b then _ else _] => destruct b eqn:?
    end;
    bool_hyps; try lia;
    try (match goal with
         | |- bind _ (fun _ => Ok (?a :: _)) = bind _ (fun _ => Ok (?b :: _)) =>
             replace a with b by lia; reflexivity
         end).
Qed.

Lemma utf8_decode_encode s :
  forallb scalar s = true -> utf8_decode (flat_map utf8_encode_char s) = Ok s.
Proof.
  induction s as [|c s IH]; [done|]. cbn [forallb flat_map].
  intros [Hc Hs]%andb_true_iff.
  rewrite utf8_decode_encode_char by done. by rewrite IH.
Qed.

Lemma bytes_to_of_N l :
  forallb (fun c => c <? 256) l = true -> bytes_to_N (bytes_of_N l) = l.
Proof.
  induction l as [|n l IH]; [done|]. cbn [forallb bytes_of_N bytes_to_N map].
  intros [Hn Hl]%andb_true_iff. apply N.ltb_lt in Hn.
  fold (bytes_of_N l). fold (bytes_to_N (bytes_of_N l)). rewrite IH by done. f_equal.
  destruct (Byte.of_N n) as [b|] eqn:E.
  - by apply Byte.to_of_N.
  - apply Byte.of_N_None_iff in E. lia.
Qed.

Lemma utf8_encode_char_lt c :
  c < 1114112 -> forallb (fun b => b <? 256) (utf8_encode_char c) = true.
Proof.
  intros Hc. unfold utf8_encode_char.
  pose proof (N.mod_lt c 64 ltac:(lia)).
  pose proof (N.mod_lt (c / 64) 64 ltac:(lia)).
  pose proof (N.mod_lt (c / 4096) 64 ltac:(lia)).
  assert (c < 2048 -> c / 64 < 32) by (intros; apply N.Div0.div_lt_upper_bound; lia).
  assert (c < 65536 -> c / 4096 < 16) by (intros; apply N.Div0.div_lt_upper_bound; lia).
  assert (c / 262144 < 5) by (apply N.Div0.div_lt_upper_bound; lia).
  set (q1 := c / 64) in *. set (m1 := c mod 64) in *.
  set (q2 := c / 4096) in *. set (q3 := c / 262144) in *.
  set (m4 := q1 mod 64) in *. set (m5 := q2 mod 64) in *.
  clearbody q1 m1 q2 q3 m4 m5.
  destruct (c <? 128) eqn:E1; [|destruct (c <? 2048) eqn:E2; [|destruct (c <? 65536) eqn:E3]];
    cbn [forallb]; bool_hyps;
    repeat (apply andb_true_intro; split); try done; apply N.ltb_lt; lia.
Qed.

Lemma utf8_encode_lt s :
  forallb scalar s = true ->
  forallb (fun b => b <? 256) (flat_map utf8_encode_char s) = true.
Proof.
  induction s as [|c s IH]; [done|]. cbn [forallb flat_map].
  intros [Hc Hs]%andb_true_iff. rewrite forallb_app, IH by done.
  rewrite utf8_encode_char_lt; [done|]. unfold scalar in Hc.
  apply andb_true_iff in Hc as [Hc _]. by apply N.ltb_lt.
Qed.

Lemma decode_utf8_encode s :
  forallb scalar s = true -> decode_manifest (utf8_encode s) = Ok s.
Proof.
  intros Hs. unfold decode_manifest, utf8_encode.
  rewrite bytes_to_of_N by (by apply utf8_encode_lt).
  by rewrite utf8_decode_encode.
Qed.

Lemma scalar_encodable s : forallb scalar s = true -> encodable s = true.
Proof.
  unfold encodable. induction s as [|c s IH]; [done|]. cbn [forallb].
  intros [Hc Hs]%andb_true_iff. rewrite IH by done.
  unfold scalar in Hc. apply andb_true_iff in Hc as [_ ->]. done.
Qed.

Lemma universal_newlines_no_cr s :
  forallb (fun c => negb (c =? CR)) (universal_newlines s) = true.
Proof.
  induction s as [|c s IH]; [done|]. cbn [universal_newlines].
  destruct (c =? CR) eqn:E.
  - destruct s as [|c' s']; [done|]. destruct (c' =? NEWLINE); [exact IH|].
    cbn [forallb]. by rewrite IH.
  - cbn [forallb]. by rewrite E, IH.
Qed.

Lemma universal_newlines_lt s :
  forallb (fun c => c <? 256) s = true ->
  forallb (fun c => c <? 256) (universal_newlines s) = true.
Proof.
  induction s as [|c s IH]; [done|]. cbn [universal_newlines forallb].
  intros [Hc Hs]%andb_true_iff. specialize (IH Hs).
  destruct (c =? CR) eqn:E.
  - destruct s as [|c' s']; [done|]. destruct (c' =? NEWLINE); [exact IH|].
    cbn [forallb]. by rewrite IH.
  - cbn [forallb]. by rewrite Hc, IH.
Qed.

Lemma universal_newlines_id s :
  forallb (fun c => negb (c =? CR)) s = true -> universal_newlines s = s.
Proof.
  induction s as [|c s IH]; [done|]. cbn [universal_newlines forallb].
  intros [Hc Hs]%andb_true_iff. apply negb_true_iff in Hc. rewrite Hc. by rewrite IH.
Qed.

Lemma lt256_scalar s :
  forallb (fun c => c <? 256) s = true -> forallb scalar s = true.
Proof.
  induction s as [|c s IH]; [done|]. cbn [forallb].
  intros [Hc Hs]%andb_true_iff. rewrite IH by done.
  rewrite scalar_intro; [done|]. apply N.ltb_lt in Hc. lia.
Qed.

Lemma decode_manifest_cases bs :
  decode_manifest bs =
  Ok match utf8_decode (bytes_to_N bs) with
     | Ok t => t
     | Raise _ => latin1_decode (bytes_to_N bs)
     end.
Proof.
  rewrite decode_manifest_spec.
  destruct (utf8_decode (bytes_to_N bs)) as [t|e] eqn:E; [done|].
  by rewrite (utf8_sig_follows _ _ E).
Qed.

Lemma decode_manifest_scalar bs t :
  decode_manifest bs = Ok t -> forallb scalar t = true.
Proof.
  rewrite decode_manifest_cases. intros [= <-].
  destruct (utf8_decode (bytes_to_N bs)) as [t|e] eqn:E.
  - by apply (utf8_decode_scalar _ _ _ (le_n _) E).
  - apply lt256_scalar, universal_newlines_lt, bytes_to_N_lt.
Qed.


(** ** The loop of the restore script *)

Lemma write_manifest_cases f content :
  write_manifest f content =
  if f_writable f then
    if encodable content then (File (utf8_encode content) (f_readable f) true, true)
    else (File [] (f_readable f) true, false)
  else (f, false).
Proof. unfold write_manifest. by destruct (f_writable f) eqn:E. Qed.

Lemma restore_entry_untouched locate fs p md i :
  i <> locate p -> (restore_entry locate fs p md).1 !! i = fs !! i.
Proof.
  intros Hi. unfold restore_entry.
  destruct (fs !! locate p) as [f|]; [|done].
  destruct (negb (f_readable f)); [done|].
  destruct (decode_manifest (f_data f)) as [content|]; [|done].
  destruct (forallb unicode_space content); [done|].
  destruct (negb (should_update md)); [done|].
  destruct (update_content md content) as [[content' []]|]; try done.
  destruct (write_manifest f content') as [f' ok]. cbn [fst].
  by rewrite lookup_insert_ne.
Qed.

Lemma restore_entry_dom locate fs p md :
  dom (restore_entry locate fs p md).1 = dom fs.
Proof.
  unfold restore_entry.
  destruct (fs !! locate p) as [f|] eqn:E; [|done].
  destruct (negb (f_readable f)); [done|].
  destruct (decode_manifest (f_data f)) as [content|]; [|done].
  destruct (forallb unicode_space content); [done|].
  destruct (negb (should_update md)); [done|].
  destruct (update_content md content) as [[content' []]|]; try done.
  destruct (write_manifest f content') as [f' ok]. cbn [fst].
  by apply dom_insert_lookup_L.
Qed.

Lemma restore_step_files locate st e :
  rs_files (restore_step locate st e) = (restore_entry locate (rs_files st) e.1 e.2).1.
Proof.
  unfold restore_step. by destruct (restore_entry locate (rs_files st) e.1 e.2) as [fs []].
Qed.

Lemma restore_step_counts locate st e :
  (restored_count (restore_step locate st e) + failed_count (restore_step locate st e)
   + skipped_count (restore_step locate st e)
   = S (restored_count st + failed_count st + skipped_count st))%nat.
Proof.
  unfold restore_step.
  destruct (restore_entry locate (rs_files st) e.1 e.2) as [fs []]; simpl; lia.
Qed.

Lemma restore_all_snoc locate entries e fs :
  restore_all locate (entries ++ [e]) fs
  = restore_step locate (restore_all locate entries fs) e.
Proof. unfold restore_all. by rewrite fold_left_app. Qed.

Lemma restore_all_counts locate entries fs :
  (restored_count (restore_all locate entries fs)
   + failed_count (restore_all locate entries fs)
   + skipped_count (restore_all locate entries fs) = length entries)%nat.
Proof.
  induction entries as [|e entries IH] using rev_ind; [done|].
  rewrite restore_all_snoc, restore_step_counts, IH, length_app. simpl. lia.
Qed.

Lemma restore_all_dom locate entries fs :
  dom (rs_files (restore_all locate entries fs)) = dom fs.
Proof.
  induction entries as [|e entries IH] using rev_ind; [done|].
  by rewrite restore_all_snoc, restore_step_files, restore_entry_dom.
Qed.

Lemma restore_all_untouched locate entries fs i :
  i ∉ map (fun e => locate e.1) entries ->
  rs_files (restore_all locate entries fs) !! i = fs !! i.
Proof.
  induction entries as [|e entries IH] using rev_ind; [done|].
  rewrite map_app. cbn [map]. intros [Hi He]%not_elem_of_app.
  rewrite restore_all_snoc, restore_step_files.
  rewrite restore_entry_untouched; [by apply IH|].
  intros ->. apply He. by left.
Qed.

(** An entry that is not to be updated leaves every file as it is. *)
Lemma restore_entry_not_chinese locate fs p md :
  should_update md = false ->
  (restore_entry locate fs p md).1 = fs
  /\ (restore_entry locate fs p md).2 <> VRestored.
Proof.
  intros Hs. unfold restore_entry. rewrite Hs.
  destruct (fs !! locate p) as [f|]; [|done].
  destruct (negb (f_readable f)); [done|].
  destruct (decode_manifest (f_data f)) as [content|]; [|done].
  by destruct (forallb unicode_space content).
Qed.

(** The entry of the loop and the restore of one record. *)
Lemma restore_entry_mod locate fs p md f :
  fs !! locate p = Some f -> f_readable f = true -> f_writable f = true ->
  restore_entry locate fs p md =
  match restore_mod (Some (f_data f)) md with
  | Restored content =>
      (<[locate p := File (utf8_encode content) true true]> fs, VRestored)
  | Skipped => (fs, VSkipped)
  | Failed =>
      match decode_manifest (f_data f) with
      | Ok content =>
          match update_content md content with
          | Ok (_, true) => (<[locate p := File [] true true]> fs, VFailed)
          | _ => (fs, VFailed)
          end
      | Raise _ => (fs, VFailed)
      end
  end.
Proof.
  intros Hf Hr Hw. unfold restore_entry, restore_mod. rewrite Hf, Hr. cbn [negb].
  destruct (decode_manifest (f_data f)) as [content|] eqn:E; [|done].
  destruct (forallb unicode_space content); [done|].
  destruct (negb (should_update md)); [done|].
  destruct (update_content md content) as [[content' []]|] eqn:U; try done.
  rewrite write_manifest_cases, Hw, Hr.
  by destruct (encodable content').
Qed.

(** ** What the patcher can write *)

Lemma land_255 x : N.land x 255 < 256.
Proof. change 255 with (N.ones 8). rewrite N.land_ones. by apply N.mod_lt. Qed.

Lemma tpl_escape_lt c e : tpl_escape c = Some e -> e < 256.
Proof.
  unfold tpl_escape.
  repeat match goal with
  | |- context [if ?b then _ else _] => destruct b
  end; try done; intros [= <-]; by vm_compute.
Qed.

Ltac solve_forallb :=
  cbn [forallb];
  repeat match goal with |- _ && _ = true => apply andb_true_intro; split end;
  first [assumption | reflexivity].

Ltac solve_lit HP Hland :=
  first
  [ reflexivity
  | assumption
  | apply HP;
    first
    [ apply Hland
    | eapply tpl_escape_lt; eassumption
    | by vm_compute
    | unfold ascii_octdigit, ascii_digit in *; bool_hyps; lia ] ].

Lemma parse_from_lits (P : char -> bool) ngrp n :
  (forall c, c < 256 -> P c = true) ->
  forall t skip l, (length t <= n)%nat -> forallb P t = true ->
    parse_from ngrp skip t = Ok l -> tpl_lits P l = true.
Proof.
  intros HP. induction n as [|n IH]; intros t skip l Hn Ht.
  - destruct t; [by intros [= <-] | simpl in Hn; lia].
  - destruct t as [|c t1]; [by intros [= <-]|].
    assert (forall r sk (i : tpl_item) l,
              (length r <= n)%nat -> forallb P r = true ->
              match i with TLit c => P c | TGroup _ => true end = true ->
              bind (parse_from ngrp sk r) (fun l => Ok (i :: l)) = Ok l ->
              tpl_lits P l = true) as Hrec.
    { intros r sk i l' Hr HPr Hi. destruct (parse_from ngrp sk r) as [l0|] eqn:E; [|done].
      intros [= <-]. cbn [tpl_lits forallb]. rewrite Hi. by eapply IH. }
    assert (forall r sk (i j : tpl_item) l,
              (length r <= n)%nat -> forallb P r = true ->
              match i with TLit c => P c | TGroup _ => true end = true ->
              match j with TLit c => P c | TGroup _ => true end = true ->
              bind (bind (parse_from ngrp sk r) (fun l => Ok (j :: l)))
                   (fun l => Ok (i :: l)) = Ok l ->
              tpl_lits P l = true) as Hrec2.
    { intros r sk i j l' Hr HPr Hi Hj. destruct (parse_from ngrp sk r) as [l0|] eqn:E; [|done].
      intros [= <-]. cbn [tpl_lits forallb]. rewrite Hi, Hj. by eapply IH. }
    cbn [parse_from]. cbn [forallb] in Ht. simpl in Hn.
    apply andb_true_iff in Ht as [Hc Ht1].
    pose proof (land_255) as Hland.
    repeat match goal with
    | |- Raise _ = Ok _ -> _ => discriminate
    | |- parse_from _ _ _ = Ok _ -> _ => apply IH; [simpl in *; lia | solve_forallb]
    | |- bind (bind (parse_from _ _ _) _) _ = Ok _ -> _ =>
        apply Hrec2; [simpl in *; lia | solve_forallb | solve_lit HP Hland | solve_lit HP Hland]
    | |- bind (parse_from _ _ _) (fun l => Ok (_ :: l)) = Ok _ -> _ =>
        apply Hrec; [simpl in *; lia | solve_forallb | solve_lit HP Hland]
    | |- bind (tpl_group _ _) _ = Ok _ -> _ => unfold tpl_group
    | |- bind (Raise _) _ = Ok _ -> _ => discriminate
    | |- bind (Ok _) _ = Ok _ -> _ => cbn [bind]
    | |- context [if ?b then _ else _] => destruct b eqn:?
    | |- context [match ?l with [] => _ | _ :: _ => _ end] =>
        is_var l; destruct l; simpl in Hn, Ht1;
        try match type of Ht1 with _ && _ = true => apply andb_true_iff in Ht1 as [? Ht1] end
    | |- context [match tpl_name ?s with _ => _ end] => destruct (tpl_name s) as [[? ?]|] eqn:?
    | |- context [match tpl_number ?s with _ => _ end] => destruct (tpl_number s) eqn:?
    | |- context [match tpl_escape ?s with _ => _ end] => destruct (tpl_escape s) eqn:?
    end.
Qed.

Lemma expand_forallb (P : char -> bool) t g :
  tpl_lits P t = true ->
  (forall i v, group g i = Some v -> forallb P v = true) ->
  forallb P (expand t g) = true.
Proof.
  intros Ht Hg. induction t as [|[c|i] t IH]; [done| |];
    cbn [tpl_lits forallb] in Ht; apply andb_true_iff in Ht as [Hi Ht];
    cbn [expand forallb].
  - rewrite Hi. by apply IH.
  - rewrite forallb_app, IH by done.
    destruct (group g i) as [v|] eqn:E; simpl; [|done]. by rewrite (Hg _ _ E).
Qed.

Lemma sub_go_forallb (P : char -> bool) key t s :
  key_wf NOFLAGS key = true -> tpl_lits P t = true -> forallb P s = true ->
  forallb P (sub_go NOFLAGS (field_subst key) t 0 s) = true.
Proof.
  intros Hwf Ht. remember (length s) as n eqn:Hn. revert s Hn.
  induction n as [n IH] using lt_wf_ind. intros s -> Hs.
  destruct (field_at NOFLAGS key s) as [[[k v] rest]|] eqn:E.
  - pose proof (field_at_decomp _ _ _ _ _ _ E) as Hdec.
    rewrite (sub_go_hit _ _ _ s [(2%nat, [QUOTE]); (1%nat, k)] (k ++ v ++ [QUOTE]) rest).
    + rewrite Hdec, !forallb_app in Hs. cbn [forallb] in Hs.
      apply andb_true_iff in Hs as [Hk [Hv [Hq Hrest]%andb_true_iff]%andb_true_iff].
      rewrite forallb_app. apply andb_true_intro. split.
      * apply expand_forallb; [done|]. intros i u. cbn [group].
        repeat (case_match; [intros [= <-]; rewrite ?forallb_app; cbn [forallb];
                             by rewrite ?Hk, ?Hv, ?Hq|]).
        done.
      * eapply IH; [|reflexivity|done]. rewrite Hdec, !length_app. simpl. lia.
    + rewrite match_field_subst by done.
      rewrite <- !app_assoc. simpl. rewrite <- Hdec, E. reflexivity.
    + intros Hnil. apply (f_equal length) in Hnil. rewrite !length_app in Hnil. simpl in Hnil. lia.
    + rewrite <- !app_assoc. simpl. exact Hdec.
  - destruct s as [|c s].
    + by rewrite sub_go_nil by (by rewrite match_field_subst, E).
    + rewrite sub_go_miss by (by rewrite match_field_subst, E).
      cbn [forallb] in Hs |- *. apply andb_true_iff in Hs as [-> Hs].
      eapply IH; [|reflexivity|done]. simpl. lia.
Qed.

Lemma replace1_forallb (P : char -> bool) old new s :
  forallb P new = true -> forallb P s = true -> forallb P (replace1 old new s) = true.
Proof.
  intros Hn. unfold replace1. induction s as [|c s IH]; [done|].
  cbn [forallb flat_map]. intros [Hc Hs]%andb_true_iff.
  rewrite forallb_app, IH by done. destruct (c =? old); [by rewrite Hn|].
  cbn [forallb]. by rewrite Hc.
Qed.

Lemma update_field_forallb (P : char -> bool) key value st st' :
  (forall c, c < 256 -> P c = true) ->
  key_wf NOFLAGS key = true ->
  forallb P (default [] value) = true -> forallb P st.1 = true ->
  update_field key value st = Ok st' -> forallb P st'.1 = true.
Proof.
  intros HP Hwf Hv Hs. unfold update_field.
  destruct (truthy value); [|by intros [= <-]].
  destruct (found NOFLAGS (field_test key) st.1); [|by intros [= <-]].
  unfold re_sub.
  destruct (parse_template (ngroups (field_subst key)) (template (escape (default [] value))))
    as [t|] eqn:E; [|done].
  cbn [bind]. intros [= <-]. cbn [fst].
  apply sub_go_forallb; try done.
  apply (parse_from_lits P _ _ HP _ _ _ (le_n _)) in E; [done|].
  assert (P BACKSLASH = true /\ P QUOTE = true /\ P 49 = true /\ P 50 = true)
    as (Hb & Hq & H1 & H2) by (repeat split; apply HP; reflexivity).
  unfold template, escape. rewrite !forallb_app. cbn [forallb].
  rewrite Hb, H1, H2.
  rewrite (replace1_forallb P QUOTE); [done| by cbn [forallb]; rewrite Hb, Hq |].
  apply replace1_forallb; [by cbn [forallb]; rewrite Hb | done].
Qed.

Lemma update_content_forallb (P : char -> bool) md content content' b :
  (forall c, c < 256 -> P c = true) ->
  forallb P (default [] (Name md)) = true ->
  forallb P (default [] (Description md)) = true ->
  forallb P content = true ->
  update_content md content = Ok (content', b) -> forallb P content' = true.
Proof.
  intros HP Hn Hd Hc. unfold update_content.
  destruct (update_field "Name" (Name md) (content, false)) as [st|] eqn:E; [|done].
  cbn [bind]. intros E2.
  apply (update_field_forallb P _ _ _ _ HP) in E; try done.
  by apply (update_field_forallb P _ _ _ _ HP) in E2.
Qed.

Lemma scalar_lt256 c : c < 256 -> scalar c = true.
Proof. intros Hc. apply scalar_intro. lia. Qed.

Lemma find_field_not_blank fl key s v :
  find_field fl key s = Some v -> forallb unicode_space s = false.
Proof.
  intros (pre & k & rest & -> & (b & sp & -> & _)%field_at_inv)%find_field_span.
  rewrite forallb_app. cbn [app forallb].
  change (unicode_space QUOTE) with false. cbn [andb]. apply andb_false_r.
Qed.


(** A text whose fields all hold [w] already is its own image. *)
Lemma replaced_same key w s :
  Forall (eq w) (all_values NOFLAGS key s) -> replaced key w s s.
Proof.
  remember (length s) as n eqn:Hn. revert s Hn.
  induction n as [n IH] using lt_wf_ind. intros s -> Hall.
  destruct (field_at NOFLAGS key s) as [[[k v] rest]|] eqn:E.
  - pose proof (field_at_decomp _ _ _ _ _ _ E) as Hdec.
    assert (w = v) as ->.
    { destruct s as [|c s]; [by rewrite field_at_nil in E|].
      rewrite all_values_cons, E in Hall. by inversion Hall. }
    rewrite Hdec at 2. eapply replaced_hit; [exact E|].
    eapply IH; [|reflexivity|].
    + rewrite Hdec, !length_app. simpl. lia.
    + rewrite Hdec in Hall. clear -Hall.
      assert (forall a X, Forall (eq v) (all_values NOFLAGS key (a ++ X)) ->
                Forall (eq v) (all_values NOFLAGS key X)) as Hsuf.
      { induction a as [|c a IHa]; [done|]. intros X. cbn [app].
        rewrite all_values_cons. intros [_ H]%Forall_app. by apply IHa. }
      apply (Hsuf (k ++ v ++ [QUOTE])). revert Hall. by rewrite <- !app_assoc.
  - destruct s as [|c s]; [constructor|].
    constructor; [done|]. eapply IH; [|reflexivity|]; [simpl; lia|].
    rewrite all_values_cons, E in Hall. exact Hall.
Qed.



(** Patching one field with a value that does not start with a digit,
    in terms of the text scanned. *)
Lemma update_field_replaced key c v content b :
  key_wf NOFLAGS key = true -> ascii_digit c = false ->
  exists out,
    update_field key (Some (c :: v)) (content, b)
      = Ok (out, b || found NOFLAGS (field_test key) content)
    /\ replaced key (quote_escape (c :: v)) content out.
Proof.
  intros Hwf Hc.
  destruct (patch_spec key c v content Hwf Hc) as (out & E & Hrep & Hsame).
  exists out. split; [|done].
  unfold patch in E. rewrite update_field_spec in E |- * by done. cbn [fst] in *.
  rewrite found_field_test in * by done.
  destruct (find_field NOFLAGS key content).
  - injection E as <-. by rewrite orb_true_r.
  - injection E as <-. by rewrite orb_false_r.
Qed.


(** * Properties of the scripts beyond the claims *)

(** ** The extraction script *)

(** X1: the loop over the manifests counts each manifest once, as a
    success or as an error; the successes are the manifests that give a
    record; and the store never holds more records than there were
    successes. *)
Theorem X1_scan_counts (ms : list manifest_file) :
  (success_count (scan ms) + error_count (scan ms) = length ms)%nat
  /\ success_count (scan ms) = length (omap record_for ms)
  /\ (size (translations_data (scan ms)) <= success_count (scan ms))%nat.
Proof.
  split_and!.
  - unfold scan. rewrite fold_scan_counts. simpl. lia.
  - apply scan_success.
  - apply scan_size.
Qed.

(** X2: what the store holds under a path after a scan is the record of
    the last manifest, in the order of the walk, that lies in that
    directory and gives a record: a manifest scanned later in the same
    directory replaces the record of an earlier one, and both were
    counted as successes. *)
Theorem X2_store_last_record (ms : list manifest_file) (k : str) :
  translations_data (scan ms) !! k = last_record k ms
  /\ (forall m r, record_for m = Some r ->
        translations_data (scan (ms ++ [m])) !! mf_relpath m = Some r
        /\ success_count (scan (ms ++ [m])) = S (success_count (scan ms))
        /\ (is_Some (translations_data (scan ms) !! mf_relpath m) ->
            size (translations_data (scan (ms ++ [m])))
            = size (translations_data (scan ms)))).
Proof.
  split; [apply scan_lookup|]. intros m r Hr.
  rewrite scan_snoc, scan_step_record, Hr. cbn [translations_data success_count].
  split_and!; [by rewrite lookup_insert_eq | done |].
  intros Hsome. by apply map_size_insert_Some.
Qed.

(** X3: when the manifests lie in pairwise distinct directories, the
    store holds exactly one record for each success. *)
Theorem X3_scan_distinct_directories (ms : list manifest_file) :
  NoDup (map mf_relpath ms) ->
  size (translations_data (scan ms)) = success_count (scan ms).
Proof. apply scan_size_distinct. Qed.

Lemma X3_witness :
  size (translations_data
          (scan [ManifestFile (text "A") (text "A") (Some (manifest_bytes "{'Name': 'a'}"));
                 ManifestFile (text "B") (text "B") (Some (manifest_bytes "{'Name': 'b'}"))]))
  = success_count
      (scan [ManifestFile (text "A") (text "A") (Some (manifest_bytes "{'Name': 'a'}"));
             ManifestFile (text "B") (text "B") (Some (manifest_bytes "{'Name': 'b'}"))]).
Proof.
  apply (X3_scan_distinct_directories
           [ManifestFile (text "A") (text "A") (Some (manifest_bytes "{'Name': 'a'}"));
            ManifestFile (text "B") (text "B") (Some (manifest_bytes "{'Name': 'b'}"))]).
  apply (bool_decide_unpack _). vm_compute. exact I.
Defined.

(** ** Reading and writing *)

(** X4: the second attempt of the reader, UTF-8 with a byte-order mark,
    never gives a text: where strict UTF-8 raises, it raises too.  So the
    text read is that of strict UTF-8 or, failing that, that of latin-1;
    and a byte-order mark at the head of a UTF-8 file is not removed: it
    is read as the character U+FEFF. *)
Theorem X4_utf8_sig_never_recovers (bs : list byte) :
  (forall e, utf8_decode (bytes_to_N bs) = Raise e ->
             utf8_sig_decode (bytes_to_N bs) = Raise e)
  /\ decode_manifest bs
     = Ok match utf8_decode (bytes_to_N bs) with
          | Ok t => t
          | Raise _ => latin1_decode (bytes_to_N bs)
          end
  /\ decode_manifest (BOM_BYTES ++ bs)
     = Ok match utf8_decode (bytes_to_N bs) with
          | Ok t => 65279 :: t
          | Raise _ => latin1_decode (bytes_to_N (BOM_BYTES ++ bs))
          end.
Proof.
  split_and!.
  - intros e. apply utf8_sig_follows.
  - apply decode_manifest_cases.
  - rewrite decode_manifest_cases. unfold bytes_to_N. rewrite map_app.
    change (map Byte.to_N BOM_BYTES) with [239; 187; 191]. cbn [app].
    rewrite utf8_decode_bom. fold (bytes_to_N bs).
    by destruct (utf8_decode (bytes_to_N bs)).
Qed.

(** X5: whatever the bytes, the text read holds only code points that
    UTF-8 can carry, so it can be written back.  When the bytes are not
    UTF-8 and latin-1 is used, the built-in [open] translates the line
    ends: the text is that of the bytes with CR LF and a lone CR turned
    into LF, it holds no CR and no character from U+0100 on.  A text read
    as UTF-8, through [codecs], keeps its CR. *)
Theorem X5_decoded_text (bs : list byte) :
  exists t,
    decode_manifest bs = Ok t
    /\ forallb scalar t = true /\ encodable t = true
    /\ (forall e, utf8_decode (bytes_to_N bs) = Raise e ->
          t = universal_newlines (bytes_to_N bs)
          /\ forallb (fun c => negb (c =? CR)) t = true
          /\ forallb (fun c => c <? 256) t = true)
    /\ decode_manifest [x61; x0d; x0a; x62; x0d] = Ok [97; 13; 10; 98; 13]
    /\ decode_manifest [xe9; x0d; x0a; x62; x0d] = Ok [233; 10; 98; 10].
Proof.
  eexists. split; [apply decode_manifest_cases|].
  assert (decode_manifest bs
          = Ok match utf8_decode (bytes_to_N bs) with
               | Ok t => t
               | Raise _ => latin1_decode (bytes_to_N bs)
               end) as Hd by apply decode_manifest_cases.
  apply decode_manifest_scalar in Hd.
  split_and!; [done | by apply scalar_encodable | | by vm_compute..].
  intros e ->. unfold latin1_decode. split_and!; [done| |].
  - apply universal_newlines_no_cr.
  - apply universal_newlines_lt, bytes_to_N_lt.
Qed.

(** X6: a text of code points that UTF-8 can carry, written as UTF-8, is
    read back by the reader of both scripts as the same text. *)
Theorem X6_write_then_read (s : str) :
  forallb scalar s = true -> decode_manifest (utf8_encode s) = Ok s.
Proof. apply decode_utf8_encode. Qed.

Lemma X6_witness :
  decode_manifest (utf8_encode [123; 233; 13; 10; 27979; 35797; 128512; 65279; 125])
  = Ok [123; 233; 13; 10; 27979; 35797; 128512; 65279; 125].
Proof.
  apply (X6_write_then_read [123; 233; 13; 10; 27979; 35797; 128512; 65279; 125]).
  reflexivity.
Defined.

(** ** The restore script *)

Lemma restore_entry_skip_all locate fs p md :
  should_update md = false -> restore_entry locate fs p md
  = (fs, match fs !! locate p with
         | Some f =>
             if f_readable f
             then match decode_manifest (f_data f) with
                  | Ok _ => VSkipped
                  | Raise _ => VFailed
                  end
             else VFailed
         | None => VSkipped
         end).
Proof.
  intros Hs. unfold restore_entry. rewrite Hs.
  destruct (fs !! locate p) as [f|]; [|done].
  destruct (f_readable f); [|done]. cbn [negb].
  destruct (decode_manifest (f_data f)) as [content|]; [|done].
  by destruct (forallb unicode_space content).
Qed.

Lemma restore_all_not_chinese locate entries fs :
  Forall (fun e : str * mod_data => should_update e.2 = false) entries ->
  rs_files (restore_all locate entries fs) = fs
  /\ restored_count (restore_all locate entries fs) = 0%nat.
Proof.
  induction entries as [|e entries IH] using rev_ind; [done|].
  intros [He [Hs _]%Forall_cons]%Forall_app. destruct (IH He) as [IH1 IH2].
  rewrite restore_all_snoc. unfold restore_step.
  rewrite restore_entry_skip_all by done. rewrite IH1.
  destruct (fs !! locate e.1) as [f|]; [|done].
  destruct (f_readable f); [|done].
  by destruct (decode_manifest (f_data f)).
Qed.

(** X7: the loop over the backup counts every entry once, as restored,
    failed or skipped; it creates no file and removes none; a file that
    no entry names is left as it is; and if no entry is to be updated
    (no Chinese text), no file changes and nothing is counted as
    restored. *)
Theorem X7_restore_loop (locate : str -> N) (entries : list (str * mod_data))
    (fs : gmap N file) :
  (restored_count (restore_all locate entries fs)
   + failed_count (restore_all locate entries fs)
   + skipped_count (restore_all locate entries fs) = length entries)%nat
  /\ dom (rs_files (restore_all locate entries fs)) = dom fs
  /\ (forall i, i ∉ map (fun e => locate e.1) entries ->
        rs_files (restore_all locate entries fs) !! i = fs !! i)
  /\ (Forall (fun e : str * mod_data => should_update e.2 = false) entries ->
        rs_files (restore_all locate entries fs) = fs
        /\ restored_count (restore_all locate entries fs) = 0%nat).
Proof.
  split_and!.
  - apply restore_all_counts.
  - apply restore_all_dom.
  - intros i. apply restore_all_untouched.
  - apply restore_all_not_chinese.
Qed.

(** X8: with stored values that UTF-8 can carry, an entry of the backup
    either leaves every file as it is and is not counted as restored, or
    it rewrites its one manifest with the UTF-8 of the patched text, and
    that file reads back as the patched text. *)
Theorem X8_restore_entry_effect (locate : str -> N) (fs : gmap N file)
    (p : str) (md : mod_data) :
  forallb scalar (default [] (Name md)) = true ->
  forallb scalar (default [] (Description md)) = true ->
  ((restore_entry locate fs p md).1 = fs
   /\ (restore_entry locate fs p md).2 <> VRestored)
  \/ (exists f content content',
        fs !! locate p = Some f
        /\ decode_manifest (f_data f) = Ok content
        /\ should_update md = true
        /\ update_content md content = Ok (content', true)
        /\ restore_entry locate fs p md
           = (<[locate p := File (utf8_encode content') true true]> fs, VRestored)
        /\ decode_manifest (utf8_encode content') = Ok content').
Proof.
  intros Hn Hd. unfold restore_entry.
  destruct (fs !! locate p) as [f|] eqn:Hf; [|by left].
  destruct (f_readable f) eqn:Hr; [|by left]. cbn [negb].
  destruct (decode_manifest (f_data f)) as [content|] eqn:E; [|by left].
  destruct (forallb unicode_space content); [by left|].
  destruct (should_update md) eqn:Hs; [|by left]. cbn [negb].
  destruct (update_content md content) as [[content' []]|] eqn:U; try by left.
  assert (forallb scalar content' = true) as Hc'.
  { apply (update_content_forallb scalar md content content' true); try done.
    - apply scalar_lt256.
    - by apply decode_manifest_scalar in E. }
  rewrite write_manifest_cases, (scalar_encodable _ Hc'), Hr.
  destruct (f_writable f) eqn:Hw.
  - right. exists f, content, content'. split_and!; try done.
    by apply decode_utf8_encode.
  - left. cbn [fst snd]. split; [|done]. by apply insert_id.
Qed.

Lemma X8_witness :
  ((restore_entry (fun _ => 0)
      {[ 0 := File (manifest_bytes "{'Name': 'Test Mod'}") true true ]}
      (text "A")
      (ModData (text "a.b") (Some [27979; 35797]) None (text "A") (Some true) None)).1
   = {[ 0 := File (manifest_bytes "{'Name': 'Test Mod'}") true true ]}
   /\ (restore_entry (fun _ => 0)
         {[ 0 := File (manifest_bytes "{'Name': 'Test Mod'}") true true ]}
         (text "A")
         (ModData (text "a.b") (Some [27979; 35797]) None (text "A") (Some true) None)).2
      <> VRestored)
  \/ (exists f content content',
        ({[ 0 := File (manifest_bytes "{'Name': 'Test Mod'}") true true ]} : gmap N file)
          !! 0 = Some f
        /\ decode_manifest (f_data f) = Ok content
        /\ should_update
             (ModData (text "a.b") (Some [27979; 35797]) None (text "A") (Some true) None)
           = true
        /\ update_content
             (ModData (text "a.b") (Some [27979; 35797]) None (text "A") (Some true) None)
             content = Ok (content', true)
        /\ restore_entry (fun _ => 0)
             {[ 0 := File (manifest_bytes "{'Name': 'Test Mod'}") true true ]}
             (text "A")
             (ModData (text "a.b") (Some [27979; 35797]) None (text "A") (Some true) None)
           = (<[0 := File (utf8_encode content') true true]>
                {[ 0 := File (manifest_bytes "{'Name': 'Test Mod'}") true true ]},
              VRestored)
        /\ decode_manifest (utf8_encode content') = Ok content').
Proof.
  apply (X8_restore_entry_effect (fun _ => 0)
           {[ 0 := File (manifest_bytes "{'Name': 'Test Mod'}") true true ]}
           (text "A")
           (ModData (text "a.b") (Some [27979; 35797]) None (text "A") (Some true) None));
    reflexivity.
Defined.

Lemma update_field_falsy key value st :
  truthy value = false -> update_field key value st = Ok st.
Proof. intros H. unfold update_field. by rewrite H. Qed.



(** A field that holds its stored value already is patched to itself. *)
Lemma update_field_same key value content b :
  key = "Name"%string \/ key = "Description"%string ->
  find_field NOFLAGS key content = value ->
  Forall (fun v => value = Some v) (all_values NOFLAGS key content) ->
  leading_digit (default [] value) = false ->
  update_field key value (content, b) = Ok (content, b || truthy value).
Proof.
  intros Hkey Hfind Hall Hd.
  assert (key_wf NOFLAGS key = true) as Hwf by (by destruct Hkey as [-> | ->]).
  destruct value as [[|c v]|]; try by rewrite update_field_falsy, orb_false_r.
  destruct (update_field_replaced key c v content b Hwf Hd) as (out & -> & Hrep).
  rewrite found_field_test, Hfind by done. cbn [truthy].
  assert (forallb notquote (c :: v) = true) as Hq.
  { apply find_field_span in Hfind as (pre & k & rest & _ & Hf).
    by apply field_at_inv in Hf as (? & ? & _ & _ & _ & _ & _ & _ & ?). }
  rewrite quote_escape_id in Hrep by done.
  do 2 f_equal. apply (replaced_fun _ _ _ _ _ Hrep). apply replaced_same.
  eapply Forall_impl; [exact Hall|]. by intros u [= <-].
Qed.

(** X10: restoring a manifest from the record that was just extracted
    from it.  Take a manifest without comment openers in which every Name
    field holds the extracted name and every Description field the
    extracted description (each key occurs once, say), neither starting
    with an ASCII digit.  Then the restore of its record rewrites the
    manifest with the very text it has when the record is Chinese, and
    skips it when it is not. *)
Theorem X10_restore_after_extract (m : manifest_file) (bs : list byte)
    (content : str) (r : mod_data) :
  mf_file m = Some bs -> decode_manifest bs = Ok content ->
  no_opener content = true ->
  process_manifest m = Ok (Some r) ->
  Forall (fun v => Name r = Some v) (all_values NOFLAGS "Name" content) ->
  Forall (fun v => Description r = Some v) (all_values NOFLAGS "Description" content) ->
  leading_digit (default [] (Name r)) = false ->
  leading_digit (default [] (Description r)) = false ->
  restore_mod (Some bs) r
  = if is_chinese (Name r) (Description r) then Restored content else Skipped.
Proof.
  intros Hm E Ho Hp Hn Hd Hdn Hdd.
  rewrite process_manifest_spec, Hm in Hp. cbn [read_manifest] in Hp.
  rewrite E, extract_no_opener in Hp by done.
  destruct (truthy (f_name (extract_fields content))
            || truthy (f_description (extract_fields content))) eqn:Ht; [|done].
  injection Hp as <-. rewrite extract_fields_find in *.
  unfold record_of in *. cbn [Name Description IsChinese f_name f_description] in *.
  unfold restore_mod. rewrite E.
  assert (forallb unicode_space content = false) as ->.
  { apply orb_true_iff in Ht as [Ht|Ht].
    - destruct (find_field NOFLAGS "Name" content) eqn:Hf; [|done].
      by eapply find_field_not_blank.
    - destruct (find_field NOFLAGS "Description" content) eqn:Hf; [|done].
      by eapply find_field_not_blank. }
  unfold should_update. cbn [IsChinese Name Description].
  destruct (is_chinese _ _); cbn [negb]; [|done].
  unfold update_content. cbn [Name Description].
  rewrite (update_field_same "Name") by (try done; by left). cbn [bind orb].
  rewrite (update_field_same "Description") by (try done; by right).
  rewrite Ht.
  by rewrite (scalar_encodable _ (decode_manifest_scalar _ _ E)).
Qed.

Lemma X10_witness :
  restore_mod (Some (manifest_bytes "{'Name': '测试', 'Description': 'A mod', 'UniqueID': 'a.b'}"))
    (ModData (text "a.b") (Some [27979; 35797]) (Some (text "A mod")) (text "Mods/A")
       (Some true) None)
  = if is_chinese (Name (ModData (text "a.b") (Some [27979; 35797]) (Some (text "A mod"))
                           (text "Mods/A") (Some true) None))
                  (Description (ModData (text "a.b") (Some [27979; 35797])
                                  (Some (text "A mod")) (text "Mods/A") (Some true) None))
    then Restored [123; 34; 78; 97; 109; 101; 34; 58; 32; 34; 27979; 35797; 34; 44; 32;
                   34; 68; 101; 115; 99; 114; 105; 112; 116; 105; 111; 110; 34; 58; 32;
                   34; 65; 32; 109; 111; 100; 34; 44; 32; 34; 85; 110; 105; 113; 117;
                   101; 73; 68; 34; 58; 32; 34; 97; 46; 98; 34; 125]
    else Skipped.
Proof.
  apply (X10_restore_after_extract
           (ManifestFile (text "A") (text "Mods/A")
              (Some (manifest_bytes "{'Name': '测试', 'Description': 'A mod', 'UniqueID': 'a.b'}")))
           (manifest_bytes "{'Name': '测试', 'Description': 'A mod', 'UniqueID': 'a.b'}"));
    try reflexivity.
  - vm_compute. repeat constructor.
  - vm_compute. repeat constructor.
Defined.


(** ** The update URL *)

Lemma head_toks_Some {R} (tok : str -> option R) s r :
  head (toks tok s) = Some r -> exists pre t, s = pre ++ t /\ tok t = Some r.
Proof.
  induction s as [|c s IH].
  - rewrite toks_nil. destruct (tok []) eqn:E; [|done]. intros [= <-]. by exists [], [].
  - rewrite toks_cons. destruct (tok (c :: s)) eqn:E.
    + intros [= <-]. by exists [], (c :: s).
    + intros (pre & t & -> & Ht)%IH. by exists (c :: pre), t.
Qed.

Lemma uk_at_span t cap :
  uk_at t = Some cap -> exists a z, t = a ++ cap ++ z.
Proof.
  unfold uk_at. destruct t as [|c s0]; [done|].
  destruct (c =? QUOTE); [|done].
  destruct (split_quote s0) as [[b s1]|] eqn:E0; [|done].
  destruct (lit_eq DOTALL (of_string "UpdateKeys") b); [|done].
  destruct (skipw_suffix unicode_space s1) as (a1 & H1).
  destruct (skipw unicode_space s1) as [|x s2]; [done|].
  destruct (x =? COLON); [|done].
  destruct (skipw_suffix unicode_space s2) as (a2 & H2).
  destruct (skipw unicode_space s2) as [|y s3]; [done|].
  destruct (y =? LBRACKET); [|done].
  destruct (split_on RBRACKET s3) as [[cap' r]|] eqn:E3; [|done].
  intros [= <-]. apply split_quote_inv in E0 as [-> _].
  apply split_on_inv in E3 as [-> _].
  exists (c :: b ++ QUOTE :: a1 ++ x :: a2 ++ [y]), (RBRACKET :: r).
  rewrite H1, H2. by norm_app.
Qed.

Lemma nexus_id_digits b ds :
  nexus_id b = Some ds ->
  b = of_string "Nexus:" ++ ds /\ ds <> [] /\ forallb unicode_decimal ds = true.
Proof.
  unfold nexus_id.
  destruct (lit_strip NOFLAGS (of_string "Nexus:") b) as [ds'|] eqn:E; [|done].
  destruct (forallb unicode_decimal ds') eqn:Hd; [|done].
  destruct ds' as [|d ds']; [done|]. cbn [negb andb]. intros [= <-].
  split_and!; [|done|done].
  revert E. generalize (d :: ds'). intros r.
  replace (of_string "Nexus:") with [78; 101; 120; 117; 115; 58] by (by vm_compute).
  cbn [lit_strip].
  repeat (destruct b as [|? b]; [done|];
          match goal with |- context [cset_mem NOFLAGS (CChar ?c) ?x] =>
            change (cset_mem NOFLAGS (CChar c) x) with (x =? c);
            destruct (N.eqb_spec x c) as [->|]; [|done]
          end).
  by intros [= ->].
Qed.

(** X11: the update URL is the fixed address of the Nexus site followed
    by the digits of a quoted [Nexus:] token of the text; the digits are
    what [\d] takes, a non-empty run of decimal digits of any script.
    Only the first UpdateKeys array is looked at, up to the first closing
    bracket after it, and the first token in it is the one taken. *)
Theorem X11_update_url (content : str) :
  (forall u, f_nurl (extract_fields content) = Some u ->
     exists ds, u = NEXUS_URL ++ ds /\ ds <> []
                /\ forallb unicode_decimal ds = true
                /\ exists pre rest,
                     content = pre ++ (QUOTE :: of_string "Nexus:") ++ ds ++ QUOTE :: rest)
  /\ extract_nurl (text "'UpdateKeys': ['Nexus:12', 'Nexus:34']")
     = Some (NEXUS_URL ++ text "12")
  /\ extract_nurl (text "'UpdateKeys': [], 'UpdateKeys': ['Nexus:1']") = None
  /\ extract_nurl (text "'UpdateKeys': ['GitHub:a/b]', 'Nexus:5']") = None
  /\ extract_nurl (QUOTE :: of_string "UpdateKeys" ++ [QUOTE; 58; 91; QUOTE]
                   ++ of_string "Nexus:" ++ [1633; 1634; QUOTE; 93])
     = Some (NEXUS_URL ++ [1633; 1634]).
Proof.
  split; [|split_and!; by vm_compute].
  intros u. cbn [extract_fields f_nurl]. rewrite extract_nurl_toks.
  destruct (head (toks uk_nexus_at content)) as [[id|]|] eqn:E; try done.
  intros [= <-].
  apply head_toks_Some in E as (pre & t & -> & Ht). unfold uk_nexus_at in Ht.
  destruct (uk_at t) as [cap|] eqn:Hcap; [|done]. injection Ht as Ht.
  apply uk_at_span in Hcap as (a & z & ->).
  apply head_toks_Some in Ht as (pre2 & t2 & -> & Ht2).
  unfold nexus_at in Ht2. destruct t2 as [|c s0]; [done|].
  destruct (N.eqb_spec c QUOTE) as [->|]; [|done].
  destruct (split_quote s0) as [[b r]|] eqn:E0; [|done].
  apply split_quote_inv in E0 as [-> _].
  apply nexus_id_digits in Ht2 as (-> & Hne & Hds).
  exists id. split_and!; try done.
  exists (pre ++ a ++ pre2), (r ++ z). by norm_app.
Qed.
